(** * Polygon migration: test-case pipeline

    A shallow embedding of the test-case migration pipeline of the
    PolygonMigration Django project:

    - [problems/storage_manager.py]: object naming of the five storage
      back ends;
    - [problems/polygon_api.py]: request signing, the Redis test-case cache,
      checker handling and [migrate_to_cloud_storage];
    - [problems/views.py]: the storage-migration part of the [index] view and
      its failure handler.

    Python strings are [string]s, Python dictionaries are [gmap string _],
    exceptions are an explicit result type threaded through a state monad
    whose state (Redis, object storage, log) survives a raised exception. *)

From Stdlib Require Import ZArith Ascii String List Bool Lia.
From Stdlib Require Import DecimalString DecimalZ DecimalPos Sorted.
From stdpp Require Import gmap strings list fin_maps.

Local Open Scope Z_scope.

(** String concatenation is left to [simpl] on literal prefixes. *)
#[local] Arguments String.append !_ _ / : simpl nomatch.

(* ===================================================================== *)
(** * Python string primitives                                            *)
(* ===================================================================== *)

Module PyStr.

(** [str(z)] for a Python [int]: decimal digits with a leading minus sign
    for negative numbers. *)
Definition str_of_int (z : Z) : string :=
  NilZero.string_of_int (Z.to_int z).

(** [s.startswith(p)]. *)
Definition startswith (p s : string) : bool := String.prefix p s.

Fixpoint rev (s : string) : string :=
  match s with
  | EmptyString => EmptyString
  | String c s' => rev s' +:+ String c EmptyString
  end.

(** [s.endswith(p)]. *)
Definition endswith (p s : string) : bool := String.prefix (rev p) (rev s).

(** Truth value of a Python [str]: the empty string is false. *)
Definition nonempty (s : string) : bool :=
  match s with EmptyString => false | String _ _ => true end.

(** [c in s] for a one-character [c]. *)
Fixpoint contains (c : ascii) (s : string) : bool :=
  match s with
  | EmptyString => false
  | String d s' => Ascii.eqb d c || contains c s'
  end.

(** [s.split(sep)] for a one-character separator. *)
Fixpoint split (sep : ascii) (s : string) : list string :=
  match s with
  | EmptyString => [EmptyString]
  | String c s' =>
      if Ascii.eqb c sep then EmptyString :: split sep s'
      else match split sep s' with
           | h :: t => String c h :: t
           | [] => [String c EmptyString]
           end
  end.

(** [sep.join(parts)]. *)
Fixpoint join (sep : string) (parts : list string) : string :=
  match parts with
  | [] => EmptyString
  | [p] => p
  | p :: ps => p +:+ sep +:+ join sep ps
  end.

(** [format(z, "02d")]: sign-aware zero padding to a minimum width of two
    characters; wider numbers are printed in full. *)
Definition format_02d (z : Z) : string :=
  if z <? 0 then "-" +:+ str_of_int (- z)
  else
    let s := str_of_int z in
    if (String.length s <? 2)%nat then "0" +:+ s else s.

(** [posixpath.join] on two components, and [os.path.join(a, *ps)]. *)
Definition path_join2 (path b : string) : string :=
  if startswith "/" b then b
  else if negb (nonempty path) || endswith "/" path then path +:+ b
  else path +:+ "/" +:+ b.

Definition os_path_join (a : string) (ps : list string) : string :=
  fold_left path_join2 ps a.

End PyStr.

(* ===================================================================== *)
(** * Storage back ends: object naming ([storage_manager.py])             *)
(* ===================================================================== *)

Module Naming.
Import PyStr.

(** The five implementations of [StorageManager]; [Local] carries its
    [base_path]. *)
Inductive backend : Type :=
| S3
| R2
| GoogleDrive
| Local (base_path : string)
| AzureBlob.

(** Where a back end puts an object: a key in a bucket or container
    (S3, R2, Azure), a file path (local), or a file name below a chain of
    Drive folders obtained by successive [_get_or_create_folder] calls. *)
Inductive location : Type :=
| BlobKey (container key : string)
| FilePath (path : string)
| DriveFile (folders : list string) (name : string).

(** The problem key is the text that the f-string [{db_problem_id}], or
    [str(db_problem_id)], produces. *)

(** The two f-strings of the S3, R2 and Azure managers. *)
Definition input_key (db_problem_id : string) (test_number : Z) : string :=
  "test_cases/" +:+ db_problem_id +:+ "/" +:+ format_02d test_number.

Definition output_key (db_problem_id : string) (test_number : Z) : string :=
  "test_cases/" +:+ db_problem_id +:+ "/" +:+ format_02d test_number +:+ ".a".

(** [upload_test_case]: the locations of the input and of the output
    object, as each back end computes them. *)
Definition upload_test_case_locations
    (b : backend) (container_name db_problem_id : string) (test_number : Z)
  : location * location :=
  match b with
  | S3 | R2 | AzureBlob =>
      (BlobKey container_name (input_key db_problem_id test_number),
       BlobKey container_name (output_key db_problem_id test_number))
  | GoogleDrive =>
      let folders := [container_name; "test_cases"; db_problem_id] in
      let input_filename := format_02d test_number in
      let output_filename := format_02d test_number +:+ ".a" in
      (DriveFile folders input_filename, DriveFile folders output_filename)
  | Local base_path =>
      let problem_dir :=
        os_path_join base_path [container_name; "test_cases"; db_problem_id] in
      let input_file := os_path_join problem_dir [format_02d test_number] in
      let output_file :=
        os_path_join problem_dir [format_02d test_number +:+ ".a"] in
      (FilePath input_file, FilePath output_file)
  end.

(** [upload_file]: the location a back end gives to an object key. *)
Definition upload_file_location
    (b : backend) (container_name file_path : string) : location :=
  match b with
  | S3 | R2 | AzureBlob => BlobKey container_name file_path
  | GoogleDrive =>
      let parts := split "/" file_path in
      DriveFile (container_name :: removelast parts) (List.last parts "")
  | Local base_path =>
      FilePath (os_path_join base_path [container_name; file_path])
  end.

(** The specification's wording of the keys: [NN] is the test number
    written with exactly two decimal digits. *)
Definition digit_char (d : Z) : ascii :=
  ascii_of_nat (48 + Z.to_nat d).

Definition two_digits (n : Z) : string :=
  String (digit_char (n / 10)) (String (digit_char (n mod 10)) EmptyString).

Definition spec_input_key (problemKey : string) (n : Z) : string :=
  "test_cases/" +:+ problemKey +:+ "/" +:+ two_digits n.

Definition spec_output_key (problemKey : string) (n : Z) : string :=
  spec_input_key problemKey n +:+ ".a".

(** A problem key that is a single path component, as the decimal text of
    a database identifier is. *)
Definition plain_component (s : string) : Prop :=
  nonempty s = true ∧ contains "/" s = false.

End Naming.

(* ===================================================================== *)
(** * Python values, exceptions and the effect monad                      *)
(* ===================================================================== *)

Module Py.
Import PyStr.

(** Scalar JSON values as Python sees them after [json.loads]:
    [None], [bool], [int] and [str]. Floating-point numbers do not occur
    in test-case records and are left out. *)
Inductive jv : Type :=
| JNull
| JBool (b : bool)
| JInt (z : Z)
| JStr (s : string).

(** Truth value of a Python object, as [if x:] and [x and y] use it. *)
Definition truthy (v : jv) : bool :=
  match v with
  | JNull => false
  | JBool b => b
  | JInt z => negb (z =? 0)
  | JStr s => nonempty s
  end.

(** [str(v)]. *)
Definition py_str (v : jv) : string :=
  match v with
  | JNull => "None"
  | JBool true => "True"
  | JBool false => "False"
  | JInt z => str_of_int z
  | JStr s => s
  end.

(** An element of a test-case list: a dictionary when it comes from the
    API client, and whatever [json.loads] returned when it comes from the
    cache. *)
Inductive pyobj : Type :=
| PInt (z : Z)
| PDict (d : gmap string jv).

(** [d.get(key, default)]. *)
Definition dict_get (d : gmap string jv) (key : string) (default : jv) : jv :=
  match d !! key with
  | Some v => v
  | None => default
  end.

Inductive exn : Type :=
| HTTPRequestError          (* "HTTP Request Error: ..." from [_make_request] *)
| PolygonAPIError (comment : string)
| RedisError (msg : string)
| StorageError (msg : string)
| AttributeError (attr : string)
| KeyError (key : string)
| TypeError (msg : string)
| ValueError (msg : string)
| OSError (msg : string)
| OtherException (msg : string).

Inductive result (A : Type) : Type :=
| Ok (a : A)
| Raise (e : exn).
Arguments Ok {A} a.
Arguments Raise {A} e.

Definition is_ok {A} (r : result A) : bool :=
  match r with Ok _ => true | Raise _ => false end.

Definition value_or {A} (default : A) (r : result A) : A :=
  match r with Ok a => a | Raise _ => default end.

End Py.

Module Runtime.
Import PyStr Py.

(** ** The Redis server *)

(** What a key holds, seen through the decoders the program applies to the
    stored bytes: the decimal text of an integer ([int(...)] and
    [json.loads] both accept it), the JSON text of an object, or any other
    byte string (possibly empty). *)
Inductive rvalue : Type :=
| RInt (z : Z)
| RJson (d : gmap string jv)
| ROther (raw : string).

(** A key with its value and the time at which it expires, if any. *)
Definition entry : Type := rvalue * option Z.

Definition live (now : Z) (en : entry) : bool :=
  match en.2 with
  | None => true
  | Some deadline => now <? deadline
  end.

(** Glob patterns of [SCAN ... MATCH]: [*] matches any run of characters,
    [?] one character, anything else itself. Character classes and
    escapes are not modelled; the patterns built by this program are a
    literal prefix followed by [*]. *)
Fixpoint glob_match (pattern : string) : string → bool :=
  match pattern with
  | EmptyString => fun key => negb (nonempty key)
  | String c pattern' =>
      if Ascii.eqb c "*" then
        fix star (key : string) : bool :=
          glob_match pattern' key
          || match key with
             | EmptyString => false
             | String _ key' => star key'
             end
      else
        fun key =>
          match key with
          | EmptyString => false
          | String d key' =>
              (Ascii.eqb c "?" || Ascii.eqb c d) && glob_match pattern' key'
          end
  end.

(** ** Object storage *)

(** Objects are addressed by container and key, the view shared by the
    S3, R2 and Azure managers and, with directories read as key prefixes,
    by the local one. *)
Definition object_id : Type := string * string.

(** ** Observable events and log *)

Inductive event : Type :=
| EvRequest (method : string)                     (* [_make_request] *)
| EvEmptyBlob (container problem_key : string)    (* [empty_blob] *)
| EvUploadTestCase (container problem_key : string) (test_number : Z)
| EvUploadFile (container file_path : string)     (* [upload_file] *)
| EvScanDelete (pattern : string).                (* [scan_iter] + [delete] *)

Inductive level : Type := Warning | Error.

(** Warnings and errors written to the logger; the text of the exception
    that some messages end with is left out. *)
Definition log_record : Type := level * string.

Record world : Type := World {
  redis : gmap string entry;
  storage : gmap object_id string;
  trace : list event;
  log : list log_record;
}.

(** ** The environment of a run *)

(** The outcome of the compiler subprocess. *)
Inductive gpp_outcome : Type :=
| Exited (returncode : Z) (binary : option string)
    (* the exit status, and the bytes of the output file if one exists *)
| TimeoutExpired
| FileNotFound
| SubprocessFailure.

(** Answers of the remote API, per method, as [_make_request] returns or
    raises them. *)
Record polygon_remote : Type := PolygonRemote {
  problem_tests : string → string → result (list (gmap string jv));
  problem_testInput : string → string → jv → result string;
  problem_testAnswer : string → string → jv → result string;
  problem_checker : string → result jv;
  problem_viewFile : string → string → string → result string;
  problem_info : string → result (gmap string jv);
  problem_updateWorkingCopy : string → result jv;
  problem_solutions : string → result (list (gmap string jv));
  problem_viewSolution : string → jv → result string;
}.

Record env : Type := Env {
  now : Z;                                   (* [time.time()], in seconds *)
  redis_up : bool;                           (* the server answers *)
  remote : polygon_remote;
  storage_configured : bool;                 (* [get_storage_manager] succeeds *)
  put_fails : string → string → bool;        (* a write to this object raises *)
  purge_fails : bool;                        (* listing or deleting raises *)
  which_gpp : option string;                 (* [shutil.which('g++')] *)
  source_write_fails : bool;                 (* writing [custom_checker.cpp] raises *)
  run_gpp : string → gpp_outcome;            (* by source text *)
  read_binary_fails : bool;                  (* reading the compiled file raises *)
  platform_win : bool;                       (* [sys.platform.startswith('win')] *)
  custom_checker_dir : option string;        (* [settings.CUSTOM_CHECKER_DIR] *)
  fresh_temp_dir : string;                   (* [tempfile.TemporaryDirectory()] *)
  api_key : string;                          (* [settings.POLYGON_API_KEY] *)
  api_secret : string;                       (* [settings.POLYGON_API_SECRET] *)
  rand_index : nat → nat;                    (* the k-th index drawn by [random.choices] *)
  db_problem : string → option Z;            (* [Problem] row id, by Polygon id *)
  storage_container_name : option string;    (* [settings.STORAGE_CONTAINER_NAME] *)
}.

(** ** State and exceptions *)

(** A computation reads the environment, updates the world and either
    returns or raises. The world reached when an exception is raised is
    kept: writes to Redis and to storage are not undone. *)
Definition M (A : Type) : Type := env → world → result A * world.

Definition ret {A} (a : A) : M A := fun _ w => (Ok a, w).

Definition bind {A B} (m : M A) (k : A → M B) : M B :=
  fun e w =>
    match m e w with
    | (Ok a, w') => k a e w'
    | (Raise x, w') => (Raise x, w')
    end.

Definition raise {A} (x : exn) : M A := fun _ w => (Raise x, w).

(** [try: m except Exception as x: handler x]. *)
Definition try_except {A} (m : M A) (handler : exn → M A) : M A :=
  fun e w =>
    match m e w with
    | (Ok a, w') => (Ok a, w')
    | (Raise x, w') => handler x e w'
    end.

Definition ask : M env := fun e w => (Ok e, w).

Definition emit (ev : event) : M unit :=
  fun _ w =>
    (Ok tt, {| redis := redis w; storage := storage w;
               trace := trace w ++ [ev]; log := log w |}).

Definition logger (lv : level) (msg : string) : M unit :=
  fun _ w =>
    (Ok tt, {| redis := redis w; storage := storage w;
               trace := trace w; log := log w ++ [(lv, msg)] |}).

Declare Scope py_scope.
Delimit Scope py_scope with py.
Notation "'let*' x ':=' m 'in' k" := (bind m (fun x => k))
  (at level 10, x pattern, m at level 100, k at level 200) : py_scope.
Notation "m >> k" := (bind m (fun _ => k))
  (at level 60, right associativity) : py_scope.

Local Open Scope py_scope.

(** [for idx, x in enumerate(xs, start)]. *)
Fixpoint for_enumerate {A} (start : Z) (xs : list A) (body : Z → A → M unit)
  : M unit :=
  match xs with
  | [] => ret tt
  | x :: xs' => body start x >> for_enumerate (start + 1) xs' body
  end.

End Runtime.

(* ===================================================================== *)
(** * The storage manager on a key space ([storage_manager.py])           *)
(* ===================================================================== *)

Module StorageManager.
Import PyStr Py Runtime.
Local Open Scope py_scope.

(** The operations below follow the S3 manager, whose key-space behaviour
    the R2, Azure and local managers share. The Drive manager, which adds a
    new file on every upload and deletes the problem folder by name, is
    covered by the naming in [Naming] only. *)

Definition set_storage (st : gmap object_id string) (w : world) : world :=
  {| redis := redis w; storage := st; trace := trace w; log := log w |}.

(** [get_storage_manager(storage_type)]. *)
Definition get_storage_manager : M unit :=
  fun e w =>
    if storage_configured e then (Ok tt, w)
    else (Raise (ValueError "unknown storage type"), w).

(** [put_object] / [upload_blob(..., overwrite=True)]: the object is
    replaced if it exists. *)
Definition put_object (container key body : string) : M unit :=
  fun e w =>
    if put_fails e container key then (Raise (StorageError key), w)
    else (Ok tt, set_storage (<[(container, key) := body]> (storage w)) w).

(** [data.encode('utf-8')]: only a [str] has the method. *)
Definition encode (data : jv) : M string :=
  match data with
  | JStr s => ret s
  | _ => raise (AttributeError "encode")
  end.

Definition upload_test_case
    (container_name db_problem_id : string) (test_number : Z)
    (input_data output_data : jv) : M unit :=
  emit (EvUploadTestCase container_name db_problem_id test_number) >>
  try_except
    (let* body := encode input_data in
     put_object container_name
       (Naming.input_key db_problem_id test_number) body >>
     let* body' := encode output_data in
     put_object container_name
       (Naming.output_key db_problem_id test_number) body')
    (fun x =>
       logger Error ("failed to upload test case " +:+ str_of_int test_number)
       >> raise x).

(** The objects of a container whose key starts with [prefix]. *)
Definition under_prefix (container prefix : string) (o : object_id) : bool :=
  String.eqb o.1 container && startswith prefix o.2.

Definition empty_blob (container_name problem_id : string) : M unit :=
  emit (EvEmptyBlob container_name problem_id) >>
  try_except
    (fun e w =>
       let prefix := "test_cases/" +:+ problem_id +:+ "/" in
       if purge_fails e then (Raise (StorageError prefix), w)
       else
         (Ok tt,
          set_storage
            (filter (fun ob => under_prefix container_name prefix ob.1 = false)
                    (storage w)) w))
    (fun x => logger Error "error deleting files" >> raise x).

Definition upload_file (container_name file_path file_data : string) : M unit :=
  emit (EvUploadFile container_name file_path) >>
  try_except
    (put_object container_name file_path file_data)
    (fun x => logger Error "upload failed" >> raise x).

End StorageManager.

(* ===================================================================== *)
(** * The API client and the test-case cache ([polygon_api.py])           *)
(* ===================================================================== *)

Module PolygonAPI.
Import PyStr Py Runtime.
Local Open Scope py_scope.

(** ** Request signing *)

Section Signing.
(** [hashlib.sha512(text.encode('utf-8')).hexdigest()]. *)
Variable sha512_hexdigest : string → string.

Definition hex_digit (n : nat) : ascii :=
  nth n (list_ascii_of_string "0123456789ABCDEF") "0"%char.

(** Characters that [quote_plus] leaves alone. *)
Definition always_safe (c : ascii) : bool :=
  let n := nat_of_ascii c in
  ((48 <=? n) && (n <=? 57) || (65 <=? n) && (n <=? 90)
   || (97 <=? n) && (n <=? 122))%nat
  || Ascii.eqb c "_" || Ascii.eqb c "." || Ascii.eqb c "-"
  || Ascii.eqb c "~".

(** [urllib.parse.quote_plus] on the bytes of the text. *)
Fixpoint quote_plus (s : string) : string :=
  match s with
  | EmptyString => EmptyString
  | String c s' =>
      if always_safe c then String c (quote_plus s')
      else if Ascii.eqb c " " then String "+" (quote_plus s')
      else
        let n := nat_of_ascii c in
        String "%" (String (hex_digit (n / 16))
                      (String (hex_digit (n mod 16)) (quote_plus s')))
  end.

(** [urlencode(pairs)]. *)
Definition urlencode (pairs : list (string * jv)) : string :=
  join "&"
    (map (fun kv => quote_plus kv.1 +:+ "=" +:+ quote_plus (py_str kv.2))
         pairs).

(** [sorted(params.items())]: the keys of a dictionary are distinct, so
    the order of the pairs is the order of their keys. *)
Fixpoint insert_item (kv : string * jv) (l : list (string * jv))
  : list (string * jv) :=
  match l with
  | [] => [kv]
  | kv' :: l' =>
      if String.leb kv.1 kv'.1 then kv :: l
      else kv' :: insert_item kv l'
  end.

Definition sorted_items (params : gmap string jv) : list (string * jv) :=
  foldr insert_item [] (map_to_list params).

Definition population : list ascii :=
  list_ascii_of_string "abcdefghijklmnopqrstuvwxyz0123456789".

(** [''.join(random.choices(population, k=6))]. *)
Definition rand_prefix (e : env) : string :=
  string_of_list_ascii
    (map (fun k => nth (rand_index e k mod 36) population "a"%char)
         (seq 0 6)).

(** [_generate_api_sig(method_name, params)]: the signature and the
    time stamp that went into it. *)
Definition _generate_api_sig
    (e : env) (method_name : string) (params : gmap string jv)
  : string * Z :=
  let params := <["apiKey" := JStr (api_key e)]> params in
  let params := <["time" := JInt (now e)]> params in
  let param_str := urlencode (sorted_items params) in
  let prefix := rand_prefix e in
  let to_hash :=
    prefix +:+ "/" +:+ method_name +:+ "?" +:+ param_str +:+ "#"
      +:+ api_secret e in
  let api_sig := prefix +:+ sha512_hexdigest to_hash in
  (api_sig, now e).

End Signing.

(** ** Redis commands *)

Definition set_redis (r : gmap string entry) (w : world) : world :=
  {| redis := r; storage := storage w; trace := trace w; log := log w |}.

(** Every command raises when the server cannot be reached. *)
Definition command {A} (run : M A) : M A :=
  fun e w =>
    if redis_up e then run e w
    else (Raise (RedisError "connection refused"), w).

Definition ping : M unit := command (ret tt).

(** [r.setex(key, seconds, value)]; the server rejects a time to live
    that is not positive. *)
Definition setex (key : string) (seconds : Z) (v : rvalue) : M unit :=
  command (fun e w =>
    if seconds <=? 0 then (Raise (RedisError "invalid expire time"), w)
    else
      (Ok tt, set_redis (<[key := (v, Some (now e + seconds))]> (redis w)) w)).

(** [r.get(key)]: [None] for a key that is absent or has expired. *)
Definition lookup_live (now : Z) (r : gmap string entry) (key : string)
  : option rvalue :=
  match r !! key with
  | Some en => if live now en then Some en.1 else None
  | None => None
  end.

Definition get (key : string) : M (option rvalue) :=
  command (fun e w => (Ok (lookup_live (now e) (redis w) key), w)).

(** [for key in r.scan_iter(pattern): r.delete(key)]. Expired records are
    dropped with the others; a read never sees them either way. *)
Definition scan_delete (pattern : string) : M unit :=
  emit (EvScanDelete pattern) >>
  command (fun e w =>
    (Ok tt,
     set_redis
       (filter (fun kv => glob_match pattern kv.1 = false) (redis w)) w)).

(** ** The cache *)

Definition cache_prefix (polygon_id : string) : string :=
  "polygon_migration_test_cases_" +:+ polygon_id.

Definition count_key (polygon_id : string) : string :=
  cache_prefix polygon_id +:+ "_count".

Definition test_key (polygon_id : string) (idx : Z) : string :=
  cache_prefix polygon_id +:+ "_test_" +:+ str_of_int idx.

Definition delete_problem_test_case_cache (db_problem_id : Z) : M unit :=
  let pattern :=
    "oj_dev_with_redis_storage_test_cases_" +:+ str_of_int db_problem_id
      +:+ "*" in
  try_except
    (scan_delete pattern)
    (fun _ => logger Warning "Could not clear Redis cache").

(** [test_case.get(...)]: only a dictionary has the method. *)
Definition as_dict (test : pyobj) : M (gmap string jv) :=
  match test with
  | PDict d => ret d
  | PInt _ => raise (AttributeError "get")
  end.

(** The record written for one test case. *)
Definition test_case_data (idx : Z) (test_case : gmap string jv)
  : gmap string jv :=
  <["is_sample" := dict_get test_case "is_sample" (JBool false)]>
  (<["description" := dict_get test_case "description" (JStr "")]>
  (<["output" := dict_get test_case "output" (JStr "")]>
  (<["input" := dict_get test_case "input" (JStr "")]>
  (<["index" := dict_get test_case "index" (JInt idx)]> ∅)))).

(** [store_test_cases_in_redis(polygon_id, test_cases, expiry_hours)],
    with [expiry_seconds = int(expiry_hours * 3600)]; every caller passes
    half an hour, 1800 seconds. *)
Definition store_test_cases_in_redis
    (polygon_id : string) (test_cases : list pyobj) (expiry_seconds : Z)
  : M unit :=
  try_except
    (ping >>
     setex (count_key polygon_id) expiry_seconds
       (RInt (Z.of_nat (length test_cases))) >>
     for_enumerate 1 test_cases (fun idx test_case =>
       let* d := as_dict test_case in
       setex (test_key polygon_id idx) expiry_seconds
         (RJson (test_case_data idx d))))
    (fun _ =>
       logger Error
         ("Error storing test cases in Redis for polygon_id " +:+ polygon_id)).

(** [int(count)]. *)
Definition int_of_bytes (v : rvalue) : M Z :=
  match v with
  | RInt z => ret z
  | RJson _ => raise (ValueError "invalid literal for int()")
  | ROther _ => raise (ValueError "invalid literal for int()")
  end.

(** Truth value of the bytes returned by [r.get]. *)
Definition bytes_truthy (v : option rvalue) : bool :=
  match v with
  | None => false
  | Some (ROther raw) => nonempty raw
  | Some _ => true
  end.

(** [json.loads(test_case_data)]. *)
Definition json_loads (v : rvalue) : M pyobj :=
  match v with
  | RInt z => ret (PInt z)
  | RJson d => ret (PDict d)
  | ROther _ => raise (ValueError "JSONDecodeError")
  end.

(** The loop [for idx in range(1, count + 1)], appending to
    [test_cases]. *)
Fixpoint collect_test_cases
    (polygon_id : string) (indices : list nat) (test_cases : list pyobj)
  : M (list pyobj) :=
  match indices with
  | [] => ret test_cases
  | i :: rest =>
      let idx := Z.of_nat i in
      let* test_case_data := get (test_key polygon_id idx) in
      if bytes_truthy test_case_data then
        let* test_case :=
          match test_case_data with
          | Some v => json_loads v
          | None => raise (TypeError "NoneType")
          end in
        collect_test_cases polygon_id rest (test_cases ++ [test_case])
      else
        logger Warning
          ("Missing test case " +:+ str_of_int idx
             +:+ " in Redis for polygon_id " +:+ polygon_id) >>
        collect_test_cases polygon_id rest test_cases
  end.

(** [get_test_cases_from_redis(polygon_id)]: [None] on a miss and on any
    error. *)
Definition get_test_cases_from_redis (polygon_id : string)
  : M (option (list pyobj)) :=
  try_except
    (let* count := get (count_key polygon_id) in
     match count with
     | None => ret None
     | Some c =>
         let* count := int_of_bytes c in
         let* test_cases :=
           collect_test_cases polygon_id (seq 1 (Z.to_nat count)) [] in
         ret (Some test_cases)
     end)
    (fun _ =>
       logger Error
         ("Error retrieving test cases from Redis for polygon_id "
            +:+ polygon_id) >>
       ret None).

Definition clear_test_cases_from_redis (polygon_id : string) : M unit :=
  try_except
    (scan_delete (cache_prefix polygon_id +:+ "*"))
    (fun _ =>
       logger Error
         ("Error clearing test cases from Redis for polygon_id "
            +:+ polygon_id)).

(** ** Remote calls *)

(** [_make_request(method, ...)] and [_make_plain_request]: the call is
    recorded and its outcome comes from the remote side. *)
Definition request {A} (method : string) (answer : polygon_remote → result A)
  : M A :=
  emit (EvRequest method) >>
  (fun e w => (answer (remote e), w)).

(** [text or '']. *)
Definition or_empty (text : string) : jv := JStr text.

(** One iteration of the loop of [get_all_test_cases]. *)
Definition fetch_test_case
    (problem_id testset : string) (test : gmap string jv) : M pyobj :=
  let* test_index :=
    match test !! "index" with
    | Some v => ret v
    | None => raise (KeyError "index")
    end in
  let test_case : gmap string jv :=
    <["description" := dict_get test "description" (JStr "")]>
    (<["is_sample" := dict_get test "useInStatements" (JBool false)]>
    (<["manual" := dict_get test "manual" (JBool false)]>
    (<["index" := test_index]> ∅))) in
  let* test_case :=
    try_except
      (let* input :=
         request "problem.testInput"
           (fun r => problem_testInput r problem_id testset test_index) in
       let test_case := <["input" := or_empty input]> test_case in
       let* output :=
         request "problem.testAnswer"
           (fun r => problem_testAnswer r problem_id testset test_index) in
       ret (<["output" := or_empty output]> test_case))
      (fun _ =>
         logger Warning
           ("Error fetching test case " +:+ py_str test_index) >>
         ret (<["output" := JStr ""]> (<["input" := JStr ""]> test_case))) in
  ret (PDict test_case).

Fixpoint fetch_test_cases
    (problem_id testset : string) (tests : list (gmap string jv))
    (all_cases : list pyobj) : M (list pyobj) :=
  match tests with
  | [] => ret all_cases
  | test :: tests' =>
      let* test_case := fetch_test_case problem_id testset test in
      fetch_test_cases problem_id testset tests' (all_cases ++ [test_case])
  end.

Definition get_all_test_cases (problem_id testset : string)
  : M (list pyobj) :=
  let* tests :=
    request "problem.tests" (fun r => problem_tests r problem_id testset) in
  fetch_test_cases problem_id testset tests [].

(** [get_custom_checker_info(problem_id)]: the name of the custom
    checker, i.e. the [name] entry of the dictionary
    [{'name': ..., 'type': 'custom'}], or [None]. *)
Definition get_custom_checker_info (problem_id : string)
  : M (option string) :=
  try_except
    (let* checker_info :=
       request "problem.checker" (fun r => problem_checker r problem_id) in
     if truthy checker_info then
       match checker_info with
       | JStr name =>
           if negb (startswith "std::" name) then ret (Some name)
           else ret None
       | _ => raise (AttributeError "startswith")
       end
     else ret None)
    (fun _ => logger Error "Error fetching custom checker info" >> ret None).

(** ** Checker handling *)

(** [fetch_custom_checker_file(problem_id, checker_name)]: the source
    file, then the resource file, then the source file with [.cpp]
    appended. *)
Definition fetch_custom_checker_file (problem_id checker_name : string)
  : M (option string) :=
  let view (type name : string) : M string :=
    request "problem.viewFile"
      (fun r => problem_viewFile r problem_id type name) in
  try_except
    (let* content := view "source" checker_name in ret (Some content))
    (fun _ =>
       logger Error "Error fetching custom checker file as source" >>
       try_except
         (let* content := view "resource" checker_name in ret (Some content))
         (fun _ =>
            logger Error "Error fetching custom checker file as resource" >>
            if negb (endswith ".cpp" checker_name) then
              try_except
                (let* content := view "source" (checker_name +:+ ".cpp") in
                 ret (Some content))
                (fun _ =>
                   logger Error
                     "Error fetching custom checker file with .cpp extension"
                   >> ret None)
            else ret None)).

(** Truth value of an optional text ([None] and [''] are false). *)
Definition text_truthy (t : option string) : bool :=
  match t with
  | Some s => nonempty s
  | None => false
  end.

(** The name of the compiled file and of its blob. *)
Definition binary_filename (e : env) : string :=
  if platform_win e then "custom_checker.exe" else "custom_checker".

(** [compile_custom_checker(source_code, temp_dir)]: the path of the
    binary, paired with the bytes the compiler left there (the caller
    reads them back), or [None]. *)
Definition compile_custom_checker (source_code temp_dir : string)
  : M (option (string * string)) :=
  let* e := ask in
  let temp_dir :=
    match custom_checker_dir e with
    | Some checker_dir => if nonempty checker_dir then checker_dir else temp_dir
    | None => temp_dir
    end in
  if negb (text_truthy (which_gpp e)) then
    logger Error "g++ compiler not found in system PATH" >> ret None
  else
    let source_file := os_path_join temp_dir ["custom_checker.cpp"] in
    (if source_write_fails e then raise (OSError source_file) else ret tt) >>
    let binary_file := os_path_join temp_dir [binary_filename e] in
    match run_gpp e source_code with
    | Exited returncode binary =>
        if returncode =? 0 then
          match binary with
          | Some bytes => ret (Some (binary_file, bytes))
          | None =>
              logger Error
                "Compilation succeeded but binary file was not created"
              >> ret None
          end
        else ret None
    | TimeoutExpired => logger Error "Compilation timed out" >> ret None
    | FileNotFound => logger Error "g++ compiler not found" >> ret None
    | SubprocessFailure => logger Error "Error during compilation" >> ret None
    end.

(** [db_problem_id if db_problem_id is not None else problem_id], as the
    f-strings print it. *)
Definition problem_id_for_naming (problem_id : string) (db_problem_id : option Z)
  : string :=
  match db_problem_id with
  | Some id => str_of_int id
  | None => problem_id
  end.

Definition checker_source_path (naming : string) : string :=
  "test_cases/" +:+ naming +:+ "/custom_checker.cpp".

Definition checker_binary_path (e : env) (naming : string) : string :=
  "test_cases/" +:+ naming +:+ "/" +:+ binary_filename e.

(** The body shared by the two branches of
    [upload_custom_checker_to_storage], which differ in the working
    directory only. *)
Definition compile_and_upload
    (problem_id container_name : string) (db_problem_id : option Z)
    (source_code temp_dir : string) : M unit :=
  let naming := problem_id_for_naming problem_id db_problem_id in
  let* binary := compile_custom_checker source_code temp_dir in
  match binary with
  | None =>
      try_except
        (StorageManager.upload_file container_name
           (checker_source_path naming) source_code)
        (fun _ => logger Error "Error uploading custom checker source code")
  | Some (binary_path, bytes) =>
      let* e := ask in
      if read_binary_fails e then
        logger Error "Error reading compiled binary"
      else
        try_except
          (StorageManager.upload_file container_name
             (checker_binary_path e naming) bytes)
          (fun _ => logger Error "Error uploading custom checker")
  end.

Definition upload_custom_checker_to_storage
    (problem_id container_name : string) (db_problem_id : option Z) : M unit :=
  let* checker_info := get_custom_checker_info problem_id in
  match checker_info with
  | None => ret tt
  | Some name =>
      let* source_code := fetch_custom_checker_file problem_id name in
      match source_code with
      | Some source_code =>
          if nonempty source_code then
            StorageManager.get_storage_manager >>
            let* e := ask in
            match custom_checker_dir e with
            | Some checker_dir =>
                if nonempty checker_dir then
                  compile_and_upload problem_id container_name db_problem_id
                    source_code checker_dir
                else
                  compile_and_upload problem_id container_name db_problem_id
                    source_code (fresh_temp_dir e)
            | None =>
                compile_and_upload problem_id container_name db_problem_id
                  source_code (fresh_temp_dir e)
            end
          else logger Error "Failed to fetch custom checker source code"
      | None => logger Error "Failed to fetch custom checker source code"
      end
  end.

(** ** Migration to storage *)

(** The cache-then-API resolution at the head of
    [migrate_to_cloud_storage]. *)
Definition resolve_test_cases (problem_id testset : string)
  : M (list pyobj) :=
  let* test_cases := get_test_cases_from_redis problem_id in
  match test_cases with
  | None =>
      logger Warning "Test cases not found in Redis, fetching from Polygon" >>
      let* test_cases := get_all_test_cases problem_id testset in
      store_test_cases_in_redis problem_id test_cases 1800 >>
      ret test_cases
  | Some test_cases => ret test_cases
  end.

(** The body of the upload loop. *)
Definition upload_step (container_name naming : string)
    (idx : Z) (test : pyobj) : M unit :=
  let* test := as_dict test in
  let input_data := dict_get test "input" (JStr "") in
  let output_data := dict_get test "output" (JStr "") in
  if truthy input_data && truthy output_data then
    StorageManager.upload_test_case container_name naming idx
      input_data output_data
  else
    logger Warning
      ("Skipping test case #" +:+ str_of_int idx
         +:+ ": missing input or output").

Definition migrate_to_cloud_storage
    (problem_id container_name : string) (db_problem_id : option Z)
    (testset : string) : M unit :=
  let* test_cases := resolve_test_cases problem_id testset in
  StorageManager.get_storage_manager >>
  let naming := problem_id_for_naming problem_id db_problem_id in
  StorageManager.empty_blob container_name naming >>
  for_enumerate 1 test_cases (upload_step container_name naming) >>
  upload_custom_checker_to_storage problem_id container_name db_problem_id.

End PolygonAPI.

(* ===================================================================== *)
(** * The storage migration of the [index] view ([views.py])              *)
(* ===================================================================== *)

Module Views.
Import PyStr Py Runtime PolygonAPI.
Local Open Scope py_scope.

(** The entries of the template context that the migration sets. *)
Record context : Type := Context {
  error : option string;
  success : option string;
}.

(** The local variables the failure handler reads. *)
Record flags : Type := Flags {
  azure_blob_uploaded : bool;
  azure_blob_problem_id : option Z;
}.

(** The block [if migrate_to_azure:] inside the transaction. It returns
    early with a context (a [return render(...)] inside the [try]) or goes
    on with the flags it has set. *)
Definition storage_migration (polygon_id : string)
  : M (context + flags) :=
  let* e := ask in
  match db_problem e polygon_id with
  | None =>
      logger Warning ("Problem with Polygon ID " +:+ polygon_id +:+ " not in DB")
      >> ret (inl {| error := Some "Problem has not been migrated to the database yet";
                     success := None |})
  | Some problem_id =>
      if negb (text_truthy (storage_container_name e)) then
        ret (inl {| error := Some "Storage container/bucket name not configured";
                    success := None |})
      else
        let container := default "" (storage_container_name e) in
        delete_problem_test_case_cache problem_id >>
        let* custom_checker_info := get_custom_checker_info polygon_id in
        try_except
          (migrate_to_cloud_storage polygon_id container (Some problem_id)
             "tests")
          (fun x => logger Error "Cloud storage migration failed" >> raise x)
        >> ret (inr {| azure_blob_uploaded := true;
                       azure_blob_problem_id := Some problem_id |})
  end.

(** [if azure_blob_uploaded and azure_blob_problem_id:]. *)
Definition purge_requested (f : flags) : bool :=
  azure_blob_uploaded f
  && match azure_blob_problem_id f with
     | Some id => negb (id =? 0)
     | None => false
     end.

(** The handler [except Exception as e:] of the view. [PolygonAPI] defines
    no method [delete_azure_blob], so looking it up raises. *)
Definition failure_handler (polygon_id : string) (f : flags) : M context :=
  logger Error "Exception in index view" >>
  (if purge_requested f then raise (AttributeError "delete_azure_blob")
   else ret tt) >>
  clear_test_cases_from_redis polygon_id >>
  ret {| error := Some "Migration failed and all changes have been rolled back";
         success := None |}.

(** [solution.get('tag') == 'MA']. *)
Definition is_main_tag (v : jv) : bool :=
  match v with
  | JStr tag => String.eqb tag "MA"
  | _ => false
  end.

(** The loop that looks for the main solution: the name of the first
    solution tagged [MA], or [None]. *)
Fixpoint main_solution_name (solutions : list (gmap string jv)) : M jv :=
  match solutions with
  | [] => ret JNull
  | solution :: solutions' =>
      if is_main_tag (dict_get solution "tag" JNull) then
        match solution !! "name" with
        | Some name => ret name
        | None => raise (KeyError "name")
        end
      else main_solution_name solutions'
  end.

(** The statements before the transaction that fetch the main solution of a
    problem already in the database. *)
Definition fetch_main_solution (polygon_id : string) : M (option string) :=
  try_except
    (request "problem.updateWorkingCopy"
       (fun r => problem_updateWorkingCopy r polygon_id) >>
     let* solutions :=
       request "problem.solutions" (fun r => problem_solutions r polygon_id) in
     match solutions with
     | [] => ret None
     | first :: _ =>
         let* name := main_solution_name solutions in
         let* name :=
           if truthy name then ret name
           else match first !! "name" with
                | Some name => ret name
                | None => raise (KeyError "name")
                end in
         if truthy name then
           let* content :=
             request "problem.viewSolution"
               (fun r => problem_viewSolution r polygon_id name) in
           ret (Some content)
         else ret None
     end)
    (fun _ => logger Error "Error fetching solution" >> ret None).

(** A POST to the view. [rest] stands for the statements of the [try] block
    after the storage migration (problem display and the database writes);
    the entries of the context other than [error] and [success] are not
    kept. *)
Definition index (polygon_id : string) (migrate_to_azure : bool)
    (rest : M unit) : M context :=
  let initial :=
    {| azure_blob_uploaded := false; azure_blob_problem_id := None |} in
  let done (f : flags) : context :=
    {| error := None;
       success :=
         if azure_blob_uploaded f
         then Some "Test cases migrated to cloud storage successfully."
         else None |} in
  let continue (f : flags) : M context :=
    try_except (rest >> ret (done f)) (fun _ => failure_handler polygon_id f) in
  if negb (nonempty polygon_id) then ret {| error := None; success := None |}
  else
    let* e := ask in
    (match db_problem e polygon_id with
     | Some _ => let* _ := fetch_main_solution polygon_id in ret tt
     | None => ret tt
     end) >>
    if migrate_to_azure then
      let* r :=
        try_except
          (let* r := storage_migration polygon_id in ret (inl r))
          (fun _ => let* c := failure_handler polygon_id initial in ret (inr c)) in
      match r with
      | inl (inl early) => ret early
      | inl (inr f) => continue f
      | inr c => ret c
      end
    else continue initial.

End Views.

(* ===================================================================== *)
(** * Vocabulary of the statements                                        *)
(* ===================================================================== *)

Module Describe.
Import PyStr Py Runtime PolygonAPI.

(** [list(enumerate(xs, start))]. *)
Fixpoint enumerate {A} (start : Z) (xs : list A) : list (Z * A) :=
  match xs with
  | [] => []
  | x :: xs' => (start, x) :: enumerate (start + 1) xs'
  end.

Definition is_text (v : jv) : bool :=
  match v with JStr _ => true | _ => false end.

Definition text_of (v : jv) : string :=
  match v with JStr s => s | _ => "" end.

Definition input_of (t : pyobj) : jv :=
  match t with PDict d => dict_get d "input" (JStr "") | PInt _ => JNull end.

Definition output_of (t : pyobj) : jv :=
  match t with PDict d => dict_get d "output" (JStr "") | PInt _ => JNull end.

Definition index_of (t : pyobj) : jv :=
  match t with PDict d => dict_get d "index" JNull | PInt _ => JNull end.

(** A test-case record whose input and output are texts, as the API
    client builds them. *)
Definition text_case (t : pyobj) : bool :=
  match t with
  | PDict _ => is_text (input_of t) && is_text (output_of t)
  | PInt _ => false
  end.

(** Both sides are present. *)
Definition complete (t : pyobj) : bool :=
  truthy (input_of t) && truthy (output_of t).

(** The numbered test cases that have both sides, and those that lack
    one. *)
Definition kept (start : Z) (tcs : list pyobj) : list (Z * pyobj) :=
  List.filter (fun it => complete it.2) (enumerate start tcs).

Definition skipped (start : Z) (tcs : list pyobj) : list (Z * pyobj) :=
  List.filter (fun it => negb (complete it.2)) (enumerate start tcs).

(** Writing the two objects of one numbered test case. *)
Definition put_case (container pk : string)
    (st : gmap object_id string) (it : Z * pyobj) : gmap object_id string :=
  <[(container, Naming.output_key pk it.1) := text_of (output_of it.2)]>
    (<[(container, Naming.input_key pk it.1) := text_of (input_of it.2)]> st).

Definition skip_record (it : Z * pyobj) : log_record :=
  (Warning,
   "Skipping test case #" +:+ str_of_int it.1 +:+ ": missing input or output").

(** The world after the upload loop has gone through [tcs]. *)
Definition after_uploads (container pk : string) (start : Z)
    (tcs : list pyobj) (w : world) : world :=
  {| redis := redis w;
     storage := foldl (put_case container pk) (storage w) (kept start tcs);
     trace :=
       trace w
         ++ map (fun it => EvUploadTestCase container pk it.1)
                (kept start tcs);
     log := log w ++ map skip_record (skipped start tcs) |}.

(** The world after a successful [empty_blob]. *)
Definition after_purge (container pk : string) (w : world) : world :=
  {| redis := redis w;
     storage :=
       filter (fun ob =>
                 StorageManager.under_prefix container
                   ("test_cases/" +:+ pk +:+ "/") ob.1 = false)
              (storage w);
     trace := trace w ++ [EvEmptyBlob container pk];
     log := log w |}.

(** The entries of a record that the cache keeps. *)
Definition cached_fields : list string :=
  ["index"; "input"; "output"; "description"; "is_sample"].

(** A record that has all of them, as the API client builds it. *)
Definition has_cached_fields (d : gmap string jv) : bool :=
  forallb (fun f => is_ok (match d !! f with
                           | Some v => Ok v
                           | None => Raise (KeyError f)
                           end))
          cached_fields.

(** Two records with the same value under every cached entry. *)
Definition agree_on_cached_fields (t t' : pyobj) : Prop :=
  match t, t' with
  | PDict d, PDict d' => ∀ f, In f cached_fields → d' !! f = d !! f
  | _, _ => False
  end.

(** The record has no [manual] entry. *)
Definition lacks_manual (t : pyobj) : Prop :=
  match t with
  | PDict d => d !! "manual" = None
  | PInt _ => False
  end.

Definition has_manual (t : pyobj) : Prop :=
  match t with
  | PDict d => is_Some (d !! "manual")
  | PInt _ => False
  end.

(** The list a cache hit returns for the records [ds] stored in order. *)
Definition as_cached (start : Z) (ds : list (gmap string jv)) : list pyobj :=
  map (fun it => PDict (test_case_data it.1 it.2)) (enumerate start ds).

(** Redis after the records [items] were written with a common deadline. *)
Definition with_records (polygon_id : string) (deadline : Z)
    (items : list (Z * gmap string jv)) (r : gmap string entry)
  : gmap string entry :=
  foldl (fun r it =>
           <[test_key polygon_id it.1 :=
               (RJson (test_case_data it.1 it.2), Some deadline)]> r)
        r items.

(** Redis after a successful [store_test_cases_in_redis]. *)
Definition with_cache_entry (polygon_id : string) (deadline : Z)
    (ds : list (gmap string jv)) (r : gmap string entry) : gmap string entry :=
  with_records polygon_id deadline (enumerate 1 ds)
    (<[count_key polygon_id := (RInt (Z.of_nat (length ds)), Some deadline)]> r).


(** A computation that leaves object storage as it found it, whether it
    returns or raises. *)
Definition keeps_storage {A} (m : M A) : Prop :=
  ∀ e w, storage (m e w).2 = storage w.

(** What checker handling may do to storage: nothing, or one write, of the
    source or of the binary. *)
Definition checker_write (container pk : string) (e : env)
    (st st' : gmap object_id string) : Prop :=
  st' = st
  ∨ (∃ data, st' = <[(container, checker_source_path pk) := data]> st)
  ∨ (∃ data, st' = <[(container, checker_binary_path e pk) := data]> st).



(** No write to the container fails. *)
Definition writes_succeed (e : env) (container : string) : Prop :=
  ∀ key, put_fails e container key = false.

End Describe.

(* ===================================================================== *)
(** * Concrete runs                                                       *)
(* ===================================================================== *)

Module Scenario.
Import PyStr Py Runtime PolygonAPI Views.

Definition nl : string := String (ascii_of_nat 10) EmptyString.

(** An entry of the list returned by [problem.tests]. *)
Definition listed (index : Z) : gmap string jv :=
  <["index" := JInt index]> (<["manual" := JBool true]> ∅).

(** A record as [get_all_test_cases] builds it. *)
Definition fetched_case (index : Z) (input output : string) : pyobj :=
  PDict (<["output" := JStr output]> (<["input" := JStr input]>
        (<["description" := JStr ""]> (<["is_sample" := JBool false]>
        (<["manual" := JBool true]> (<["index" := JInt index]> ∅)))))).

(** A record as [store_test_cases_in_redis] writes it. *)
Definition cached_case (index : Z) (input output : string) : gmap string jv :=
  <["is_sample" := JBool false]> (<["description" := JStr ""]>
  (<["output" := JStr output]> (<["input" := JStr input]>
  (<["index" := JInt index]> ∅)))).

(** The remote problem "123": three tests, the second with an empty
    input, and a standard checker. *)
Definition remote_three : polygon_remote := {|
  problem_tests := fun _ _ => Ok [listed 1; listed 2; listed 3];
  problem_testInput := fun _ _ index =>
    match index with
    | JInt 1 => Ok ("5" +:+ nl)
    | JInt 2 => Ok ""
    | _ => Ok ("6" +:+ nl)
    end;
  problem_testAnswer := fun _ _ index =>
    match index with
    | JInt 1 => Ok ("10" +:+ nl)
    | JInt 2 => Ok ("3" +:+ nl)
    | _ => Ok ("12" +:+ nl)
    end;
  problem_checker := fun _ => Ok (JStr "std::ncmp.cpp");
  problem_viewFile := fun _ _ _ => Raise HTTPRequestError;
  problem_info := fun _ => Ok ∅;
  problem_updateWorkingCopy := fun _ => Ok JNull;
  problem_solutions := fun _ => Ok [];
  problem_viewSolution := fun _ _ => Raise HTTPRequestError;
|}.

(** A host without a C++ compiler, a reachable Redis server, a storage
    back end that accepts every write, and the problem "123" stored in
    the database under the identifier 7. *)
Definition env_three : env := {|
  now := 1000;
  redis_up := true;
  remote := remote_three;
  storage_configured := true;
  put_fails := fun _ _ => false;
  purge_fails := false;
  which_gpp := None;
  source_write_fails := false;
  run_gpp := fun _ => FileNotFound;
  read_binary_fails := false;
  platform_win := false;
  custom_checker_dir := None;
  fresh_temp_dir := "/tmp/checker";
  api_key := "key";
  api_secret := "secret";
  rand_index := fun k => k;
  db_problem := fun polygon_id =>
    if String.eqb polygon_id "123" then Some 7 else None;
  storage_container_name := Some "bucket";
|}.

Definition empty_world : world :=
  {| redis := ∅; storage := ∅; trace := []; log := [] |}.

Definition with_remote (r : polygon_remote) (e : env) : env :=
  {| now := now e; redis_up := redis_up e; remote := r;
     storage_configured := storage_configured e; put_fails := put_fails e;
     purge_fails := purge_fails e; which_gpp := which_gpp e;
     source_write_fails := source_write_fails e; run_gpp := run_gpp e;
     read_binary_fails := read_binary_fails e;
     platform_win := platform_win e;
     custom_checker_dir := custom_checker_dir e;
     fresh_temp_dir := fresh_temp_dir e; api_key := api_key e;
     api_secret := api_secret e; rand_index := rand_index e;
     db_problem := db_problem e;
     storage_container_name := storage_container_name e |}.

Definition with_put_fails (f : string → string → bool) (e : env) : env :=
  {| now := now e; redis_up := redis_up e; remote := remote e;
     storage_configured := storage_configured e; put_fails := f;
     purge_fails := purge_fails e; which_gpp := which_gpp e;
     source_write_fails := source_write_fails e; run_gpp := run_gpp e;
     read_binary_fails := read_binary_fails e;
     platform_win := platform_win e;
     custom_checker_dir := custom_checker_dir e;
     fresh_temp_dir := fresh_temp_dir e; api_key := api_key e;
     api_secret := api_secret e; rand_index := rand_index e;
     db_problem := db_problem e;
     storage_container_name := storage_container_name e |}.

Definition at_time (t : Z) (e : env) : env :=
  {| now := t; redis_up := redis_up e; remote := remote e;
     storage_configured := storage_configured e; put_fails := put_fails e;
     purge_fails := purge_fails e; which_gpp := which_gpp e;
     source_write_fails := source_write_fails e; run_gpp := run_gpp e;
     read_binary_fails := read_binary_fails e;
     platform_win := platform_win e;
     custom_checker_dir := custom_checker_dir e;
     fresh_temp_dir := fresh_temp_dir e; api_key := api_key e;
     api_secret := api_secret e; rand_index := rand_index e;
     db_problem := db_problem e;
     storage_container_name := storage_container_name e |}.

(** A cache entry for "123" that lost its second record: the count says
    three, the records 1 and 3 are there. *)
Definition cache_without_second : gmap string entry :=
  <["polygon_migration_test_cases_123_test_3" :=
      (RJson (cached_case 3 ("6" +:+ nl) ("12" +:+ nl)), Some 2000)]>
  (<["polygon_migration_test_cases_123_test_1" :=
      (RJson (cached_case 1 ("5" +:+ nl) ("10" +:+ nl)), Some 2000)]>
  (<["polygon_migration_test_cases_123_count" := (RInt 3, Some 2000)]> ∅)).




(** A custom checker with a readable source. *)
Definition remote_checker : polygon_remote := {|
  problem_tests := fun _ _ => Ok [listed 1];
  problem_testInput := fun _ _ _ => Ok "1";
  problem_testAnswer := fun _ _ _ => Ok "2";
  problem_checker := fun _ => Ok (JStr "check.cpp");
  problem_viewFile := fun _ _ _ => Ok "int main() {}";
  problem_info := fun _ => Ok ∅;
  problem_updateWorkingCopy := fun _ => Ok JNull;
  problem_solutions := fun _ => Ok [];
  problem_viewSolution := fun _ _ => Raise HTTPRequestError;
|}.

(** The remote side does not answer the checker lookup. *)
Definition remote_checker_down : polygon_remote := {|
  problem_tests := fun _ _ => Ok [listed 1];
  problem_testInput := fun _ _ _ => Ok "1";
  problem_testAnswer := fun _ _ _ => Ok "2";
  problem_checker := fun _ => Raise HTTPRequestError;
  problem_viewFile := fun _ _ _ => Ok "int main() {}";
  problem_info := fun _ => Ok ∅;
  problem_updateWorkingCopy := fun _ => Ok JNull;
  problem_solutions := fun _ => Ok [];
  problem_viewSolution := fun _ _ => Raise HTTPRequestError;
|}.

(** A storage back end that rejects every write for test number 3. *)
Definition third_write_fails (container key : string) : bool :=
  String.eqb key "test_cases/7/03".

Definition is_purge (ev : event) : bool :=
  match ev with EvEmptyBlob _ _ => true | _ => false end.

Definition is_cache_clear (ev : event) : bool :=
  match ev with
  | EvScanDelete pattern => startswith "polygon_migration_test_cases_" pattern
  | _ => false
  end.

Definition world_with_cache (r : gmap string entry) : world :=
  {| redis := r; storage := ∅; trace := []; log := [] |}.

End Scenario.

(* ===================================================================== *)
(** * Further vocabulary                                                  *)
(* ===================================================================== *)

Module Reading.
Import PyStr Py Runtime PolygonAPI Describe.

(** [int(s)] on the text of a decimal number, with an optional minus
    sign. *)
Definition parse_int (s : string) : option Z :=
  option_map Z.of_int (NilZero.int_of_string s).

(** The two objects of a numbered test case. *)
Definition case_objects (container pk : string) (i : Z) : list object_id :=
  [(container, Naming.input_key pk i); (container, Naming.output_key pk i)].

(** The prefix that [empty_blob] lists. *)
Definition problem_prefix (pk : string) : string :=
  "test_cases/" +:+ pk +:+ "/".

(** The two-digit forms of the numbers below [n] all sort before the one
    of [n]. *)
Definition ordered_below (n : Z) : bool :=
  forallb (fun k => String.ltb (format_02d (Z.of_nat k)) (format_02d n))
          (seq 1 (Z.to_nat n - 1)).

End Reading.

Module Cases.
Import PyStr Py Runtime PolygonAPI Describe Scenario.

(** The keys of the objects that the upload loop writes for [tcs]. *)
Definition case_keys (pk : string) (items : list (Z * pyobj)) : list string :=
  flat_map (fun it => [Naming.input_key pk it.1; Naming.output_key pk it.1])
           items.

(** A storage back end that rejects the write of one object. *)
Definition one_write_fails (key : string) (e : env) : env :=
  with_put_fails (fun _ k => String.eqb k key) e.

End Cases.

Module CacheReading.
Import PyStr Py Runtime PolygonAPI Describe.


(** What [json.loads] makes of the bytes [r.get] returned, when they are
    true and parse. *)
Definition decoded (v : option rvalue) : option pyobj :=
  match v with
  | Some (RJson d) => Some (PDict d)
  | Some (RInt z) => Some (PInt z)
  | _ => None
  end.

(** The bytes are absent, empty, or parse as JSON. *)
Definition readable (v : option rvalue) : bool :=
  match v with
  | Some (ROther raw) => negb (nonempty raw)
  | _ => true
  end.

(** The records found under the test keys of [indices], in that order. *)
Definition cached_records (now : Z) (r : gmap string entry) (pid : string)
    (indices : list nat) : list pyobj :=
  omap (fun i => decoded (lookup_live now r (test_key pid (Z.of_nat i))))
       indices.

(** The server cannot be reached. *)
Definition redis_down (e : env) : env :=
  {| now := now e; redis_up := false; remote := remote e;
     storage_configured := storage_configured e; put_fails := put_fails e;
     purge_fails := purge_fails e; which_gpp := which_gpp e;
     source_write_fails := source_write_fails e; run_gpp := run_gpp e;
     read_binary_fails := read_binary_fails e;
     platform_win := platform_win e;
     custom_checker_dir := custom_checker_dir e;
     fresh_temp_dir := fresh_temp_dir e; api_key := api_key e;
     api_secret := api_secret e; rand_index := rand_index e;
     db_problem := db_problem e;
     storage_container_name := storage_container_name e |}.

End CacheReading.

Module RemoteReading.
Import PyStr Py Runtime PolygonAPI Describe.

(** Both texts of the test were fetched and neither is empty. *)
Definition fetched_both (r : polygon_remote) (pid testset : string) (idx : jv)
  : bool :=
  match problem_testInput r pid testset idx,
        problem_testAnswer r pid testset idx with
  | Ok i, Ok o => nonempty i && nonempty o
  | _, _ => false
  end.

(** The files that [fetch_custom_checker_file] asks for, in order. *)
Definition checker_attempts (name : string) : list (string * string) :=
  [("source", name); ("resource", name)]
    ++ (if endswith ".cpp" name then [] else [("source", name +:+ ".cpp")]).

(** The first answer among the attempts, and the number of requests made
    to get it. *)
Fixpoint first_answer (r : polygon_remote) (pid : string)
    (attempts : list (string * string)) : option string * nat :=
  match attempts with
  | [] => (None, 0%nat)
  | (type, name) :: rest =>
      match problem_viewFile r pid type name with
      | Ok content => (Some content, 1%nat)
      | Raise _ =>
          let (found, n) := first_answer r pid rest in (found, S n)
      end
  end.

(** The storage back end rejects every write. *)
Definition storage_read_only (e : env) : env :=
  Scenario.with_put_fails (fun _ _ => true) e.

End RemoteReading.

(* ===================================================================== *)
(** * The data the view prepares for the database ([views.py])            *)
(* ===================================================================== *)

Module ViewData.
Import PyStr Py Runtime PolygonAPI.

(** [text[n:]] and [text[:n]] for a non-negative [n]. *)
Fixpoint drop_chars (n : nat) (s : string) : string :=
  match n, s with
  | O, _ => s
  | S n', String _ s' => drop_chars n' s'
  | S _, EmptyString => EmptyString
  end.

Fixpoint take_chars (n : nat) (s : string) : string :=
  match n, s with
  | O, _ => EmptyString
  | S n', String c s' => String c (take_chars n' s')
  | S _, EmptyString => EmptyString
  end.

(** [valid_checkers] of the view. *)
Definition valid_checkers : list string :=
  ["ncmp"; "fcmp"; "hcmp"; "lcmp"; "nyesno"; "rcmp4"; "rcmp6"; "rcmp9";
   "wcmp"; "yesno"].

(** The keys of [Problem.CHECKER_TYPE_CHOICES] ([models.py]), and the
    [max_length] of the field. *)
Definition CHECKER_TYPE_CHOICES : list string :=
  ["ncmp"; "fcmp"; "hcmp"; "lcmp"; "nyesno"; "rcmp4"; "rcmp6"; "rcmp9";
   "wcmp"; "yesno"; "custom"].

Definition checker_type_max_length : nat := 10.

(** [checker_type in valid_checkers]. *)
Definition is_valid_checker (s : string) : bool :=
  existsb (String.eqb s) valid_checkers.

(** The checker type computed from the answer to [problem.checker]:
    [answer or 'ncmp'], without a leading [std::] and a trailing [.cpp],
    and [custom] when what is left is not a standard checker. *)
Definition checker_type_of (answer : jv) : result string :=
  let checker_type := if truthy answer then answer else JStr "ncmp" in
  match checker_type with
  | JStr checker_type =>
      let checker_type :=
        if startswith "std::" checker_type then drop_chars 5 checker_type
        else checker_type in
      let checker_type :=
        if endswith ".cpp" checker_type
        then take_chars (String.length checker_type - 4) checker_type
        else checker_type in
      Ok (if is_valid_checker checker_type then checker_type else "custom")
  | _ => Raise (AttributeError "startswith")
  end.

(** The spellings under which the view takes an answer for the standard
    checker [v]. *)
Definition spellings (v : string) : list string :=
  [v; "std::" +:+ v; v +:+ ".cpp"; "std::" +:+ v +:+ ".cpp"].

(** A remote problem whose checker has the given name. *)
Definition remote_with_checker (name : string) : polygon_remote := {|
  problem_tests := fun _ _ => Ok [];
  problem_testInput := fun _ _ _ => Ok "";
  problem_testAnswer := fun _ _ _ => Ok "";
  problem_checker := fun _ => Ok (JStr name);
  problem_viewFile := fun _ _ _ => Ok "int main() {}";
  problem_info := fun _ => Ok ∅;
  problem_updateWorkingCopy := fun _ => Ok JNull;
  problem_solutions := fun _ => Ok [];
  problem_viewSolution := fun _ _ => Raise HTTPRequestError;
|}.

End ViewData.

Module Rows.
Import PyStr Py Runtime PolygonAPI ViewData.

(** [str.isspace] for a character below 256. *)
Definition is_space (c : ascii) : bool :=
  let n := nat_of_ascii c in
  ((9 <=? n) && (n <=? 13) || (28 <=? n) && (n <=? 32)
   || (n =? 133) || (n =? 160))%nat.

(** [s.lstrip()], [s.rstrip()] and [s.strip()]. *)
Fixpoint lstrip (s : string) : string :=
  match s with
  | EmptyString => EmptyString
  | String c s' => if is_space c then lstrip s' else s
  end.

Definition rstrip (s : string) : string := rev (lstrip (rev s)).

Definition strip (s : string) : string := lstrip (rstrip s).





(** ** Vocabulary *)






End Rows.

Module Tags.
Import PyStr Py Runtime Rows.

(** The tag tables as the view uses them: the names in [ProblemTag], which
    are unique, and the names of the tags attached to the problem. *)
Record tag_tables : Type := TagTables {
  tags : gset string;
  extra_tags : gset string;
}.

(** [tag, created = ProblemTag.objects.get_or_create(tag_name=name)]
    followed by [problem_obj.extra_tags.add(tag)]. *)
Definition add_tag (name : string) (t : tag_tables) : tag_tables :=
  {| tags := tags t ∪ {[name]}; extra_tags := extra_tags t ∪ {[name]} |}.

(** The tag handling of the database migration: [new_tag] as posted. *)
Definition process_tags
    (selected_tags : list string) (new_tag : string) (t : tag_tables)
  : tag_tables :=
  let new_tag := strip new_tag in
  let t := {| tags := tags t; extra_tags := ∅ |} in
  let t :=
    foldl (fun t tag_name =>
             if nonempty (strip tag_name) then add_tag (strip tag_name) t
             else t)
          t selected_tags in
  if nonempty new_tag then add_tag new_tag t else t.

(** The names the request asks for. *)
Definition requested (selected_tags : list string) (new_tag : string)
  : list string :=
  List.filter nonempty (map strip (selected_tags ++ [new_tag])).

End Tags.

Module Packages.
Import PyStr Py Runtime.

(** [a > b] on values of a JSON document: numbers with numbers (a Boolean
    is a number), texts with texts; anything else is a type error. *)
Definition as_number (v : jv) : option Z :=
  match v with
  | JInt z => Some z
  | JBool b => Some (if b then 1 else 0)
  | _ => None
  end.

Definition py_gt (a b : jv) : result bool :=
  match as_number a, as_number b with
  | Some x, Some y => Ok (y <? x)
  | _, _ =>
      match a, b with
      | JStr x, JStr y => Ok (String.ltb y x)
      | _, _ => Raise (TypeError ">")
      end
  end.

(** [package.get('type') == package_type]. *)
Definition has_type (package_type : string) (package : gmap string jv) : bool :=
  match package !! "type" with
  | Some (JStr t) => String.eqb t package_type
  | _ => false
  end.

Definition revision (package : gmap string jv) : jv :=
  dict_get package "revision" (JInt 0).

(** Truth value of a dictionary or [None]. *)
Definition dict_truthy (d : option (gmap string jv)) : bool :=
  match d with
  | Some d => negb (bool_decide (d = ∅))
  | None => false
  end.

(** The loop of [download_and_extract_package] that looks for the latest
    package of a type. *)
Fixpoint find_latest_package
    (package_type : string) (packages : list (gmap string jv))
    (latest_package : option (gmap string jv))
  : result (option (gmap string jv)) :=
  match packages with
  | [] => Ok latest_package
  | package :: packages' =>
      if has_type package_type package then
        if negb (dict_truthy latest_package) then
          find_latest_package package_type packages' (Some package)
        else
          match py_gt (revision package)
                      (revision (default ∅ latest_package)) with
          | Raise x => Raise x
          | Ok true => find_latest_package package_type packages' (Some package)
          | Ok false => find_latest_package package_type packages' latest_package
          end
      else find_latest_package package_type packages' latest_package
  end.

(** The revision of a package as a number. *)
Definition revision_number (package : gmap string jv) : option Z :=
  as_number (revision package).

Definition numbered (package : gmap string jv) : bool :=
  match revision_number package with Some _ => true | None => false end.

Definition revision_of (package : gmap string jv) : Z :=
  default 0 (revision_number package).

End Packages.

Module Quoting.
Import PyStr Py Runtime PolygonAPI.

(** What [quote_plus] writes for one character. *)
Definition quote_char (c : ascii) : string :=
  quote_plus (String c EmptyString).

(** All characters. *)
Definition all_chars : list ascii := map ascii_of_nat (seq 0 256).

(** No character is written as the beginning of what another one is
    written as. *)
Definition prefix_free_at (c : ascii) : bool :=
  forallb (fun d =>
             Ascii.eqb c d
             || negb (String.prefix (quote_char c) (quote_char d)))
          all_chars.

(** A character that [quote_plus] can write. *)
Definition quoted_char (c : ascii) : bool :=
  always_safe c || Ascii.eqb c "+" || Ascii.eqb c "%".

End Quoting.

Module Outage.
Import PyStr Py Runtime PolygonAPI Scenario.

(** The remote problem "123" with its three tests listed, at a moment when
    the requests for the texts fail. *)
Definition remote_texts_down : polygon_remote := {|
  problem_tests := fun _ _ => Ok [listed 1; listed 2; listed 3];
  problem_testInput := fun _ _ _ => Raise HTTPRequestError;
  problem_testAnswer := fun _ _ _ => Raise HTTPRequestError;
  problem_checker := fun _ => Ok (JStr "std::ncmp.cpp");
  problem_viewFile := fun _ _ _ => Raise HTTPRequestError;
  problem_info := fun _ => Ok ∅;
  problem_updateWorkingCopy := fun _ => Ok JNull;
  problem_solutions := fun _ => Ok [];
  problem_viewSolution := fun _ _ => Raise HTTPRequestError;
|}.

(** Storage as an earlier migration of the problem left it. *)
Definition world_after_earlier_run : world :=
  {| redis := ∅;
     storage :=
       <[("bucket", "test_cases/7/01.a") := "10"]>
         (<[("bucket", "test_cases/7/01") := "5"]> ∅);
     trace := []; log := [] |}.

End Outage.

(* ===================================================================== *)
(** * The Google Drive manager ([storage_manager.py])                     *)
(* ===================================================================== *)

Module Drive.
Import PyStr Py.

(** A file or folder of the drive that is not in the trash; identifiers
    are numbers here. *)
Record drive_file : Type := DriveFile {
  file_id : nat;
  name : string;
  parent : option nat;
  is_folder : bool;
  body : string;
}.

(** The drive: its files in the order in which [files().list] returns
    them, which is taken to be the order of their creation, and the next
    identifier the service gives out. *)
Record drive : Type := DriveState {
  files : list drive_file;
  next_id : nat;
}.

(** A call of the service either returns or raises; the drive it leaves
    is kept. Calls that fail on the network are left out. *)
Definition D (A : Type) : Type := drive → result A * drive.

Definition dret {A} (a : A) : D A := fun d => (Ok a, d).

Definition dbind {A B} (m : D A) (k : A → D B) : D B :=
  fun d =>
    match m d with
    | (Ok a, d') => k a d'
    | (Raise x, d') => (Raise x, d')
    end.

Definition draise {A} (x : exn) : D A := fun d => (Raise x, d).

(** [try: m except Exception as e: logger.error(...); raise]. *)
Definition reraising {A} (m : D A) : D A := m.

Definition has_parent (p : nat) (f : drive_file) : bool :=
  match parent f with
  | Some q => Nat.eqb q p
  | None => false
  end.

(** [files().list(q=...)] for the two queries of the manager: by name,
    among folders only or among all files, in a parent if one is given. *)
Definition list_files (folder_name : string) (folders_only : bool)
    (in_parent : option nat) (d : drive) : list drive_file :=
  List.filter
    (fun f =>
       String.eqb (name f) folder_name
       && implb folders_only (is_folder f)
       && match in_parent with
          | Some p => has_parent p f
          | None => true
          end)
    (files d).

(** [files().create(body=..., media_body=...)]: a new file, whatever the
    names already there. *)
Definition create (file_name : string) (parent_id : nat) (folder : bool)
    (data : string) : D nat :=
  fun d =>
    (Ok (next_id d),
     {| files :=
          files d ++
          [{| file_id := next_id d; name := file_name;
              parent := Some parent_id; is_folder := folder; body := data |}];
        next_id := S (next_id d) |}).

(** [_get_or_create_folder(folder_name, parent_id)] of a manager with
    the given [root_folder_id]. *)
Definition _get_or_create_folder (root_folder_id : option nat)
    (folder_name : string) (parent_id : option nat) : D nat :=
  let effective_parent :=
    match parent_id with
    | Some p => Some p
    | None => root_folder_id
    end in
  fun d =>
    match list_files folder_name true effective_parent d with
    | f :: _ => (Ok (file_id f), d)
    | [] =>
        match effective_parent with
        | None =>
            (Raise (OtherException
                      "Google Drive: root_folder_id required for service accounts"),
             d)
        | Some p => create folder_name p true "" d
        end
    end.

(** [data.encode('utf-8')]. *)
Definition encode (data : jv) : D string :=
  match data with
  | JStr s => dret s
  | _ => draise (AttributeError "encode")
  end.

Definition upload_test_case (root_folder_id : option nat)
    (container_name db_problem_id : string) (test_number : Z)
    (input_data output_data : jv) : D unit :=
  reraising
    (dbind (_get_or_create_folder root_folder_id container_name None)
       (fun container_folder =>
     dbind (_get_or_create_folder root_folder_id "test_cases"
              (Some container_folder))
       (fun test_cases_folder =>
     dbind (_get_or_create_folder root_folder_id db_problem_id
              (Some test_cases_folder))
       (fun problem_folder =>
     dbind (encode input_data) (fun input_media =>
     dbind (create (format_02d test_number) problem_folder false input_media)
       (fun _ =>
     dbind (encode output_data) (fun output_media =>
     dbind (create (format_02d test_number +:+ ".a") problem_folder false
              output_media)
       (fun _ => dret tt)))))))).

(** [files().delete(fileId=...)]: the file goes, and with a folder all
    that is in it; a file that is not there is an error. *)
Fixpoint remove_tree (fuel : nat) (ids : list nat) (fs : list drive_file)
  : list drive_file :=
  let fs' :=
    List.filter (fun f => negb (existsb (Nat.eqb (file_id f)) ids)) fs in
  match fuel with
  | O => fs'
  | S fuel' =>
      let inside :=
        List.filter (fun f => existsb (fun p => has_parent p f) ids) fs' in
      match inside with
      | [] => fs'
      | _ :: _ => remove_tree fuel' (map file_id inside) fs'
      end
  end.

Definition delete (fileId : nat) : D unit :=
  fun d =>
    if existsb (fun f => Nat.eqb (file_id f) fileId) (files d)
    then (Ok tt,
          {| files := remove_tree (length (files d)) [fileId] (files d);
             next_id := next_id d |})
    else (Raise (OtherException "File not found"), d).

Fixpoint delete_all (found : list drive_file) : D unit :=
  match found with
  | [] => dret tt
  | file :: found' => dbind (delete (file_id file)) (fun _ => delete_all found')
  end.

Definition empty_blob (root_folder_id : option nat)
    (container_name problem_id : string) : D unit :=
  reraising
    (dbind (_get_or_create_folder root_folder_id container_name None)
       (fun container_folder =>
     dbind (_get_or_create_folder root_folder_id "test_cases"
              (Some container_folder))
       (fun test_cases_folder =>
     fun d =>
       delete_all
         (list_files problem_id false (Some test_cases_folder) d) d))).

(** ** Vocabulary *)

(** The files, not folders, of a name, and the files in a folder. *)
Definition files_named (file_name : string) (d : drive) : list drive_file :=
  List.filter (fun f => negb (is_folder f) && String.eqb (name f) file_name)
              (files d).

Definition files_in (folder : nat) (d : drive) : list drive_file :=
  List.filter (has_parent folder) (files d).

(** A folder is older than what is in it. *)
Definition after_parent (f : drive_file) : Prop :=
  match parent f with
  | Some p => (p < file_id f)%nat
  | None => True
  end.

(** Every identifier is used once and is below the next one, and every
    file was created after the folder it is in. *)
Definition well_formed (d : drive) : Prop :=
  Forall (fun f => (file_id f < next_id d)%nat ∧ after_parent f) (files d)
  ∧ NoDup (map file_id (files d)).

(** What a folder holds: names and contents, in order. *)
Definition listing (folder : nat) (d : drive) : list (string * string) :=
  map (fun f => (name f, body f)) (files_in folder d).

(** An empty drive with a root folder 0 shared with the service
    account. *)
Definition empty_drive : drive :=
  {| files := [{| file_id := 0; name := "root"; parent := None;
                  is_folder := true; body := "" |}];
     next_id := 1 |}.

(** A drive that has gained files. *)
Definition extends (d d' : drive) : Prop :=
  ∃ more, files d' = files d ++ more.

End Drive.

(* ===================================================================== *)
(** * Properties                                                          *)
(* ===================================================================== *)

Module PyStrFacts.
Import PyStr.

Lemma append_assoc (a b c : string) : (a +:+ b) +:+ c = a +:+ (b +:+ c).
Proof. induction a as [|x a IH]; simpl; [reflexivity | now rewrite IH]. Qed.

Lemma append_nil_r (a : string) : a +:+ "" = a.
Proof. induction a as [|x a IH]; simpl; [reflexivity | now rewrite IH]. Qed.

Lemma rev_append (a b : string) : rev (a +:+ b) = rev b +:+ rev a.
Proof.
  induction a as [|x a IH]; simpl.
  - now rewrite append_nil_r.
  - rewrite IH. apply append_assoc.
Qed.

Lemma contains_append c (a b : string) :
  contains c (a +:+ b) = contains c a || contains c b.
Proof.
  induction a as [|x a IH]; simpl; [reflexivity|].
  now rewrite IH, orb_assoc.
Qed.

Lemma contains_rev c (a : string) : contains c (rev a) = contains c a.
Proof.
  induction a as [|x a IH]; simpl; [reflexivity|].
  rewrite contains_append, IH. simpl. rewrite orb_false_r. apply orb_comm.
Qed.

Lemma nonempty_rev (a : string) : nonempty (rev a) = nonempty a.
Proof.
  destruct a as [|x a]; simpl; [reflexivity|].
  destruct (rev a); reflexivity.
Qed.

Lemma nonempty_append_r (a b : string) :
  nonempty b = true → nonempty (a +:+ b) = true.
Proof. destruct a; simpl; auto. Qed.

(** A string without the character cannot start with it. *)
Lemma startswith_char_contains c (s : string) :
  contains c s = false → startswith (String c "") s = false.
Proof.
  destruct s as [|d s]; simpl; [reflexivity|].
  intros H. apply orb_false_iff in H as [H _].
  destruct (ascii_dec c d) as [->|Hne]; [|reflexivity].
  now rewrite Ascii.eqb_refl in H.
Qed.

Lemma startswith_char_append c (a b : string) :
  nonempty a = true →
  startswith (String c "") (a +:+ b) = startswith (String c "") a.
Proof.
  destruct a as [|d a]; simpl; [discriminate|]. intros _.
  unfold startswith; simpl. destruct (ascii_dec c d); [|reflexivity].
  destruct (a +:+ b); destruct a; reflexivity.
Qed.

(** Only the last component decides whether a path ends in a slash. *)
Lemma endswith_char_append c (a b : string) :
  nonempty b = true →
  endswith (String c "") (a +:+ b) = endswith (String c "") b.
Proof.
  intros Hb. unfold endswith. rewrite rev_append. simpl.
  apply startswith_char_append. now rewrite nonempty_rev.
Qed.

Lemma endswith_char_contains c (s : string) :
  contains c s = false → endswith (String c "") s = false.
Proof.
  intros H. unfold endswith. simpl.
  apply startswith_char_contains. now rewrite contains_rev.
Qed.

Lemma split_not_nil sep (s : string) : split sep s ≠ [].
Proof.
  destruct s as [|c s]; simpl; [discriminate|].
  destruct (Ascii.eqb c sep); [discriminate|].
  destruct (split sep s); discriminate.
Qed.

Lemma split_no_sep sep (s : string) :
  contains sep s = false → split sep s = [s].
Proof.
  induction s as [|c s IH]; simpl; [reflexivity|].
  intros H. apply orb_false_iff in H as [Hc Hs].
  rewrite Hc, (IH Hs). reflexivity.
Qed.

(** Splitting distributes over a separator in the middle. *)
Lemma split_append_sep sep (a b : string) :
  split sep (a +:+ String sep b) = split sep a ++ split sep b.
Proof.
  induction a as [|c a IH]; simpl.
  - now rewrite Ascii.eqb_refl.
  - rewrite IH. destruct (Ascii.eqb c sep); [reflexivity|].
    destruct (split sep a) as [|h t] eqn:E; [|reflexivity].
    now apply split_not_nil in E.
Qed.

(** Joining a relative component appends it, with a slash unless the
    directory is empty or already ends in one. *)
Lemma path_join2_relative (path b : string) :
  startswith "/" b = false →
  path_join2 path b =
    path +:+ (if negb (nonempty path) || endswith "/" path then "" else "/")
         +:+ b.
Proof.
  intros H. unfold path_join2. rewrite H.
  now destruct (negb (nonempty path) || endswith "/" path).
Qed.

Lemma path_join2_component (path b : string) :
  startswith "/" b = false → nonempty path = true →
  endswith "/" path = false →
  path_join2 path b = path +:+ "/" +:+ b.
Proof.
  intros H1 H2 H3. rewrite path_join2_relative by assumption.
  now rewrite H2, H3.
Qed.

End PyStrFacts.

Module NamingFacts.
Import PyStr PyStrFacts Naming.

(** A Boolean property checked on 1..99 holds for every test number in
    that range. *)
Lemma range_1_99 (P : Z → bool) :
  forallb (fun k => P (Z.of_nat k)) (seq 1 99) = true →
  ∀ n, 1 ≤ n ≤ 99 → P n = true.
Proof.
  intros H n Hn. rewrite forallb_forall in H.
  specialize (H (Z.to_nat n)). rewrite Z2Nat.id in H by lia.
  apply H, in_seq. lia.
Qed.

Lemma format_02d_two_digits (n : Z) :
  1 ≤ n ≤ 99 → format_02d n = two_digits n.
Proof.
  intros Hn. apply String.eqb_eq.
  apply (range_1_99 (fun k => String.eqb (format_02d k) (two_digits k)));
    [vm_compute; reflexivity | exact Hn].
Qed.

Lemma two_digits_no_slash (n : Z) :
  1 ≤ n ≤ 99 → contains "/" (two_digits n) = false.
Proof.
  intros Hn. apply negb_true_iff.
  apply (range_1_99 (fun k => negb (contains "/" (two_digits k))));
    [vm_compute; reflexivity | exact Hn].
Qed.

Example format_02d_1 : format_02d 1 = "01".
Proof. reflexivity. Qed.

Example format_02d_9 : format_02d 9 = "09".
Proof. reflexivity. Qed.

Example format_02d_42 : format_02d 42 = "42".
Proof. reflexivity. Qed.

(** Beyond 99 the number is printed with all its digits. *)
Example format_02d_100 : format_02d 100 = "100".
Proof. reflexivity. Qed.

(** The key-space back ends need no assumption on the problem key. *)
Lemma blob_keys (b : backend) (container pk : string) (n : Z) :
  b = S3 ∨ b = R2 ∨ b = AzureBlob → 1 ≤ n ≤ 99 →
  upload_test_case_locations b container pk n =
    (BlobKey container (spec_input_key pk n),
     BlobKey container (spec_input_key pk n +:+ ".a")).
Proof.
  intros Hb Hn.
  unfold upload_test_case_locations, input_key, output_key, spec_input_key.
  rewrite (format_02d_two_digits n Hn).
  assert (E : "test_cases/" +:+ pk +:+ "/" +:+ two_digits n +:+ ".a"
              = ("test_cases/" +:+ pk +:+ "/" +:+ two_digits n) +:+ ".a").
  { now rewrite !append_assoc. }
  destruct Hb as [-> | [-> | ->]]; now rewrite E.
Qed.

Section LocalPaths.
Variables (dir pk : string) (n : Z).
Hypothesis Hn : 1 ≤ n ≤ 99.
Hypothesis Hpk : plain_component pk.

Let tail (suffix : string) : string :=
  "test_cases/" +:+ pk +:+ "/" +:+ two_digits n +:+ suffix.

(** Joining the three components one at a time gives the same path as
    joining the whole key at once. *)
Lemma local_join_key (suffix : string) :
  contains "/" suffix = false →
  path_join2
    (path_join2 (path_join2 dir "test_cases") pk)
    (two_digits n +:+ suffix)
  = path_join2 dir (tail suffix).
Proof using Hn Hpk.
  intros Hsuf. destruct Hpk as [Hne Hns].
  assert (Hnn : contains "/" (two_digits n +:+ suffix) = false).
  { now rewrite contains_append, two_digits_no_slash, Hsuf. }
  rewrite (path_join2_relative dir "test_cases") by reflexivity.
  set (sep := if negb (nonempty dir) || endswith "/" dir then "" else "/").
  rewrite (path_join2_component _ pk).
  - rewrite (path_join2_component _ (two_digits n +:+ suffix)).
    + rewrite (path_join2_relative dir (tail suffix)) by reflexivity.
      fold sep. unfold tail. now rewrite !append_assoc.
    + now apply startswith_char_contains.
    + apply nonempty_append_r, nonempty_append_r. exact Hne.
    + rewrite <- (append_assoc _ "/" pk).
      rewrite endswith_char_append by exact Hne.
      now apply endswith_char_contains.
  - now apply startswith_char_contains.
  - apply nonempty_append_r, nonempty_append_r. reflexivity.
  - rewrite endswith_char_append by (apply nonempty_append_r; reflexivity).
    rewrite endswith_char_append by reflexivity. reflexivity.
Qed.

Lemma local_join_key_input :
  path_join2 (path_join2 (path_join2 dir "test_cases") pk) (two_digits n)
  = path_join2 dir ("test_cases/" +:+ pk +:+ "/" +:+ two_digits n).
Proof using Hn Hpk.
  generalize (local_join_key "" eq_refl). unfold tail.
  now rewrite !append_nil_r.
Qed.
End LocalPaths.

Section DriveFolders.
Variables (pk : string) (n : Z).
Hypothesis Hn : 1 ≤ n ≤ 99.
Hypothesis Hpk : plain_component pk.

(** A key splits into the two folder names and the file name. *)
Lemma split_key (suffix : string) :
  contains "/" suffix = false →
  split "/" ("test_cases/" +:+ pk +:+ "/" +:+ two_digits n +:+ suffix)
  = ["test_cases"; pk; two_digits n +:+ suffix].
Proof using Hn Hpk.
  intros Hsuf. destruct Hpk as [_ Hns].
  change ("test_cases/" +:+ pk +:+ "/" +:+ two_digits n +:+ suffix)
    with ("test_cases" +:+ String "/" (pk +:+ String "/" (two_digits n +:+ suffix))).
  rewrite !split_append_sep.
  rewrite (split_no_sep "/" pk Hns).
  rewrite (split_no_sep "/" (two_digits n +:+ suffix)).
  - reflexivity.
  - now rewrite contains_append, two_digits_no_slash, Hsuf.
Qed.

Lemma split_key_input :
  split "/" ("test_cases/" +:+ pk +:+ "/" +:+ two_digits n)
  = ["test_cases"; pk; two_digits n].
Proof using Hn Hpk.
  generalize (split_key "" eq_refl). now rewrite !append_nil_r.
Qed.
End DriveFolders.

(** ** C4 *)

(** C4. For each of the five back ends and each test number [n] between 1
    and 99, [upload_test_case] places the input object where the same back
    end's [upload_file] places the key [test_cases/{problemKey}/{NN}],
    with [NN] the two-digit form of [n], and the output object where it
    places that key followed by [.a]. The problem key is a single path
    component, as the decimal text of a database identifier is. *)
Theorem upload_test_case_key_derivation
    (b : backend) (container pk : string) (n : Z) :
  1 ≤ n ≤ 99 → plain_component pk →
  upload_test_case_locations b container pk n =
    (upload_file_location b container (spec_input_key pk n),
     upload_file_location b container (spec_output_key pk n)).
Proof.
  intros Hn Hpk. unfold spec_output_key.
  assert (E : ∀ suffix,
    ("test_cases/" +:+ pk +:+ "/" +:+ two_digits n) +:+ suffix =
    "test_cases/" +:+ pk +:+ "/" +:+ two_digits n +:+ suffix).
  { intros suffix. now rewrite !append_assoc. }
  destruct b as [| | |base|];
    try (apply blob_keys; [tauto | exact Hn]).
  - (* Google Drive *)
    unfold upload_test_case_locations, upload_file_location, spec_input_key.
    rewrite (format_02d_two_digits n Hn), E.
    rewrite (split_key pk n Hn Hpk ".a") by reflexivity.
    rewrite (split_key_input pk n Hn Hpk).
    reflexivity.
  - (* local directory tree *)
    unfold upload_test_case_locations, upload_file_location, spec_input_key.
    rewrite (format_02d_two_digits n Hn), E.
    unfold os_path_join. cbn [fold_left].
    rewrite (local_join_key _ pk n Hn Hpk ".a") by reflexivity.
    rewrite (local_join_key_input _ pk n Hn Hpk).
    reflexivity.
Qed.

Lemma upload_test_case_key_derivation_witness :
  upload_test_case_locations (Local "/srv/storage") "judge" "7" 3 =
    (FilePath "/srv/storage/judge/test_cases/7/03",
     FilePath "/srv/storage/judge/test_cases/7/03.a").
Proof.
  exact (upload_test_case_key_derivation (Local "/srv/storage") "judge" "7" 3
           ltac:(lia) (conj eq_refl eq_refl)).
Defined.

End NamingFacts.

Module RuntimeFacts.
Import PyStr Py Runtime.
Local Open Scope py_scope.

Lemma bind_ok {A B} (m : M A) (k : A → M B) e w a w' :
  m e w = (Ok a, w') → bind m k e w = k a e w'.
Proof. intros H. unfold bind. now rewrite H. Qed.

Lemma bind_raise {A B} (m : M A) (k : A → M B) e w x w' :
  m e w = (Raise x, w') → bind m k e w = (Raise x, w').
Proof. intros H. unfold bind. now rewrite H. Qed.

Lemma try_except_ok {A} (m : M A) h e w a w' :
  m e w = (Ok a, w') → try_except m h e w = (Ok a, w').
Proof. intros H. unfold try_except. now rewrite H. Qed.

Lemma try_except_raise {A} (m : M A) h e w x w' :
  m e w = (Raise x, w') → try_except m h e w = h x e w'.
Proof. intros H. unfold try_except. now rewrite H. Qed.

Lemma world_eta (w : world) :
  {| redis := redis w; storage := storage w; trace := trace w; log := log w |}
  = w.
Proof. now destruct w. Qed.

Lemma ok_eta {A} (default : A) (r : result A * world) :
  is_ok r.1 = true → r = (Ok (value_or default r.1), r.2).
Proof. destruct r as [[a|x] w]; cbn; [reflexivity | discriminate]. Qed.


Lemma bind_inv_ok {A B} (m : M A) (k : A → M B) e w b w' :
  bind m k e w = (Ok b, w') →
  ∃ a w1, m e w = (Ok a, w1) ∧ k a e w1 = (Ok b, w').
Proof.
  unfold bind. destruct (m e w) as [[a|x] w1]; [|discriminate].
  intros H. now exists a, w1.
Qed.

Lemma Forall_of_forallb {A} (f : A → bool) (l : list A) :
  forallb f l = true → Forall (fun x => f x = true) l.
Proof. intros H. apply List.Forall_forall. now apply forallb_forall. Qed.

(** [str] of an integer determines the integer. *)
Lemma str_of_int_inj (a b : Z) : str_of_int a = str_of_int b → a = b.
Proof.
  assert (Hnn : ∀ z, Z.to_int z ≠ Decimal.Pos Decimal.Nil
                     ∧ Z.to_int z ≠ Decimal.Neg Decimal.Nil).
  { intros [|p|p]; simpl; split; try discriminate; intros H; injection H as H;
      now apply (DecimalPos.Unsigned.to_uint_nonnil p). }
  unfold str_of_int. intros H.
  apply DecimalZ.to_int_inj.
  destruct (Hnn a) as [Ha1 Ha2], (Hnn b) as [Hb1 Hb2].
  pose proof (NilZero.isi _ Ha1 Ha2) as Ea.
  pose proof (NilZero.isi _ Hb1 Hb2) as Eb.
  rewrite H in Ea. rewrite Ea in Eb. now injection Eb.
Qed.

End RuntimeFacts.

Module UploadFacts.
Import PyStr Py Runtime StorageManager PolygonAPI Describe RuntimeFacts.
Local Open Scope py_scope.

(** A successful upload of one test case writes its two objects. *)
Lemma upload_test_case_ok container pk n (i o : string) e w :
  writes_succeed e container →
  upload_test_case container pk n (JStr i) (JStr o) e w =
    (Ok tt,
     {| redis := redis w;
        storage :=
          <[(container, Naming.output_key pk n) := o]>
            (<[(container, Naming.input_key pk n) := i]> (storage w));
        trace := trace w ++ [EvUploadTestCase container pk n];
        log := log w |}).
Proof.
  intros Hw.
  unfold upload_test_case, bind, emit, try_except, encode, ret, put_object.
  cbn [redis storage trace log set_storage].
  now rewrite !Hw.
Qed.

Lemma kept_cons_complete start t tcs :
  complete t = true →
  kept start (t :: tcs) = (start, t) :: kept (start + 1) tcs.
Proof. intros H. unfold kept. cbn. now rewrite H. Qed.

Lemma kept_cons_incomplete start t tcs :
  complete t = false → kept start (t :: tcs) = kept (start + 1) tcs.
Proof. intros H. unfold kept. cbn. now rewrite H. Qed.

Lemma skipped_cons_complete start t tcs :
  complete t = true → skipped start (t :: tcs) = skipped (start + 1) tcs.
Proof. intros H. unfold skipped. cbn. now rewrite H. Qed.

Lemma skipped_cons_incomplete start t tcs :
  complete t = false →
  skipped start (t :: tcs) = (start, t) :: skipped (start + 1) tcs.
Proof. intros H. unfold skipped. cbn. now rewrite H. Qed.

(** One step of the loop on a record with text sides. *)
Lemma upload_step_text container pk idx t e w :
  writes_succeed e container → text_case t = true →
  upload_step container pk idx t e w =
    (Ok tt, after_uploads container pk idx [t] w).
Proof.
  intros Hw Ht. destruct t as [z|d]; [discriminate|].
  unfold text_case in Ht. apply andb_true_iff in Ht as [Hi Ho].
  unfold after_uploads, upload_step, as_dict, bind, ret.
  destruct (complete (PDict d)) eqn:Hc.
  - rewrite kept_cons_complete, skipped_cons_complete by exact Hc.
    unfold kept, skipped, put_case, complete in *.
    cbn [enumerate List.filter foldl map fst snd input_of output_of] in *.
    rewrite Hc.
    destruct (dict_get d "input" (JStr "")) as [| | |i]; try discriminate.
    destruct (dict_get d "output" (JStr "")) as [| | |o]; try discriminate.
    rewrite upload_test_case_ok by exact Hw.
    cbn [text_of]. now rewrite app_nil_r.
  - rewrite kept_cons_incomplete, skipped_cons_incomplete by exact Hc.
    unfold kept, skipped, skip_record, logger, complete in *.
    cbn [enumerate List.filter foldl map fst snd input_of output_of] in *.
    rewrite Hc. now rewrite app_nil_r.
Qed.

Lemma after_uploads_cons container pk start t tcs w :
  after_uploads container pk start (t :: tcs) w =
  after_uploads container pk (start + 1) tcs
    (after_uploads container pk start [t] w).
Proof.
  unfold after_uploads. cbn [redis storage trace log].
  destruct (complete t) eqn:Hc.
  - rewrite !kept_cons_complete, !skipped_cons_complete by exact Hc.
    cbn. f_equal.
    + rewrite <- app_assoc. reflexivity.
    + now rewrite app_nil_r.
  - rewrite !kept_cons_incomplete, !skipped_cons_incomplete by exact Hc.
    cbn. f_equal.
    + now rewrite app_nil_r.
    + rewrite <- app_assoc. reflexivity.
Qed.

Lemma after_uploads_nil container pk start w :
  after_uploads container pk start [] w = w.
Proof.
  unfold after_uploads. cbn. rewrite !app_nil_r. apply world_eta.
Qed.

(** The upload loop runs to the end when no write fails; it uploads the
    complete test cases under their position, in order, and logs one
    warning for each of the others. *)
Lemma upload_loop_run container pk e (tcs : list pyobj) :
  writes_succeed e container →
  Forall (fun t => text_case t = true) tcs →
  ∀ start w,
    for_enumerate start tcs (upload_step container pk) e w =
      (Ok tt, after_uploads container pk start tcs w).
Proof.
  intros Hw Hall. induction Hall as [|t tcs Ht _ IH]; intros start w.
  - cbn. unfold ret. now rewrite after_uploads_nil.
  - cbn [for_enumerate].
    rewrite (bind_ok _ _ _ _ _ _ (upload_step_text _ _ _ _ _ _ Hw Ht)).
    rewrite IH. now rewrite <- after_uploads_cons.
Qed.

End UploadFacts.

Module MigrationFacts.
Import PyStr Py Runtime StorageManager PolygonAPI Describe Scenario.
Import RuntimeFacts UploadFacts.
Local Open Scope py_scope.

Lemma empty_blob_ok container pk e w :
  purge_fails e = false →
  empty_blob container pk e w = (Ok tt, after_purge container pk w).
Proof.
  intros Hp. unfold empty_blob, bind, emit, try_except, after_purge.
  cbn [redis storage trace log]. rewrite Hp. reflexivity.
Qed.

Lemma get_storage_manager_ok e w :
  storage_configured e = true → get_storage_manager e w = (Ok tt, w).
Proof. intros H. unfold get_storage_manager. now rewrite H. Qed.

(** With a working storage back end, a migration purges the prefix, goes
    through the whole resolved list and reaches checker handling. *)
Lemma migrate_run pid container db testset e w tcs w1 :
  resolve_test_cases pid testset e w = (Ok tcs, w1) →
  Forall (fun t => text_case t = true) tcs →
  storage_configured e = true → purge_fails e = false →
  writes_succeed e container →
  migrate_to_cloud_storage pid container db testset e w =
    upload_custom_checker_to_storage pid container db e
      (after_uploads container (problem_id_for_naming pid db) 1 tcs
         (after_purge container (problem_id_for_naming pid db) w1)).
Proof.
  intros Hres Htext Hcfg Hpurge Hput. unfold migrate_to_cloud_storage.
  rewrite (bind_ok _ _ _ _ _ _ Hres).
  rewrite (bind_ok _ _ _ _ _ _ (get_storage_manager_ok _ _ Hcfg)).
  rewrite (bind_ok _ _ _ _ _ _ (empty_blob_ok _ _ _ _ Hpurge)).
  rewrite (bind_ok _ _ _ _ _ _ (upload_loop_run _ _ _ _ Hput Htext _ _)).
  reflexivity.
Qed.

(** ** C5 *)

(** C5. When the storage back end works, [migrate_to_cloud_storage]
    uploads, from the list it resolved, exactly the test cases whose input
    and output are both non-empty: storage after the loop is the purged
    storage plus the two objects of each such test case, each of the
    others leaves one warning in the log, and the run goes on to checker
    handling. For the three test cases (1, "5\n", "10\n"), (2, "", "3\n"),
    (3, "6\n", "12\n") the run ends normally with the objects 01, 01.a,
    03 and 03.a in storage, listed in the enumeration order of the
    map, and a warning for test case 2. *)
Theorem migrate_uploads_complete_test_cases :
  (∀ pid container db testset e w tcs w1,
     resolve_test_cases pid testset e w = (Ok tcs, w1) →
     Forall (fun t => text_case t = true) tcs →
     storage_configured e = true → purge_fails e = false →
     writes_succeed e container →
     let pk := problem_id_for_naming pid db in
     let w2 := after_uploads container pk 1 tcs (after_purge container pk w1) in
     migrate_to_cloud_storage pid container db testset e w =
       upload_custom_checker_to_storage pid container db e w2
     ∧ storage w2 =
         foldl (put_case container pk) (storage (after_purge container pk w1))
           (List.filter (fun it => complete it.2) (enumerate 1 tcs))
     ∧ log w2 =
         log w1 ++
         map skip_record
           (List.filter (fun it => negb (complete it.2)) (enumerate 1 tcs)))
  ∧ (let run :=
       migrate_to_cloud_storage "123" "bucket" (Some 7) "tests"
         env_three empty_world in
     run.1 = Ok tt
     ∧ map_to_list (storage run.2) =
         [(("bucket", "test_cases/7/03.a"), "12" +:+ nl);
          (("bucket", "test_cases/7/03"), "6" +:+ nl);
          (("bucket", "test_cases/7/01.a"), "10" +:+ nl);
          (("bucket", "test_cases/7/01"), "5" +:+ nl)]
     ∧ In (Warning, "Skipping test case #2: missing input or output")
          (log run.2)).
Proof.
  split.
  - intros pid container db testset e w tcs w1 Hres Htext Hcfg Hpurge Hput.
    cbn zeta. split; [|split].
    + now apply migrate_run.
    + reflexivity.
    + reflexivity.
  - cbn zeta. split; [|split].
    + vm_compute. reflexivity.
    + vm_compute. reflexivity.
    + vm_compute. tauto.
Qed.

Lemma migrate_uploads_complete_test_cases_witness :
  migrate_to_cloud_storage "123" "bucket" (Some 7) "tests" env_three empty_world
  = upload_custom_checker_to_storage "123" "bucket" (Some 7) env_three
      (after_uploads "bucket" "7" 1
         (value_or [] (resolve_test_cases "123" "tests" env_three empty_world).1)
         (after_purge "bucket" "7"
            (resolve_test_cases "123" "tests" env_three empty_world).2)).
Proof.
  refine (proj1
    (proj1 migrate_uploads_complete_test_cases
       "123" "bucket" (Some 7) "tests" env_three empty_world
       (value_or [] (resolve_test_cases "123" "tests" env_three empty_world).1)
       (resolve_test_cases "123" "tests" env_three empty_world).2
       _ _ _ _ _)).
  - apply ok_eta. vm_compute. reflexivity.
  - apply Forall_of_forallb. vm_compute. reflexivity.
  - reflexivity.
  - reflexivity.
  - intros key. reflexivity.
Defined.

(** ** C8 *)

Lemma enumerate_position {A} (xs : list A) (start i : Z) (x : A) :
  In (i, x) (enumerate start xs) →
  start ≤ i ∧ xs !! Z.to_nat (i - start) = Some x.
Proof.
  revert start. induction xs as [|y xs IH]; intros start; cbn; [tauto|].
  intros [E | Hin].
  - injection E as -> ->. split; [lia|]. now rewrite Z.sub_diag.
  - destruct (IH _ Hin) as [Hle Hl]. split; [lia|].
    replace (Z.to_nat (i - start)) with (S (Z.to_nat (i - (start + 1)))) by lia.
    exact Hl.
Qed.

Lemma kept_position (tcs : list pyobj) (start i : Z) (t : pyobj) :
  In (i, t) (kept start tcs) →
  start ≤ i ∧ tcs !! Z.to_nat (i - start) = Some t.
Proof.
  unfold kept. rewrite filter_In. intros [Hin _].
  now apply enumerate_position.
Qed.

(** The record's own [index] entry plays no part in an upload. *)
Lemma upload_step_ignores_index container pk idx (d : gmap string jv) v e w :
  upload_step container pk idx (PDict (<["index" := v]> d)) e w =
  upload_step container pk idx (PDict d) e w.
Proof.
  unfold upload_step, as_dict, bind, ret, dict_get.
  now rewrite !lookup_insert_ne by discriminate.
Qed.

(** C8. [migrate_to_cloud_storage] numbers the objects by the 1-based
    position of each test case in the list it resolved: the upload loop
    calls [upload_test_case] with the position of every complete test case,
    in order, and changing a record's own [index] entry changes nothing.
    When the cache has lost the second of three records, the fetch returns
    the records with index 1 and 3, and the data of the test case with
    index 3 is stored under the number 02. *)
Theorem upload_numbers_are_positions :
  (∀ container pk e (tcs : list pyobj) w,
     writes_succeed e container →
     Forall (fun t => text_case t = true) tcs →
     ∃ w',
       for_enumerate 1 tcs (upload_step container pk) e w = (Ok tt, w')
       ∧ trace w' =
           trace w ++
           map (fun it => EvUploadTestCase container pk it.1) (kept 1 tcs)
       ∧ ∀ i t, In (i, t) (kept 1 tcs) →
                1 ≤ i ∧ tcs !! Z.to_nat (i - 1) = Some t)
  ∧ (∀ container pk idx (d : gmap string jv) v e w,
       upload_step container pk idx (PDict (<["index" := v]> d)) e w =
       upload_step container pk idx (PDict d) e w)
  ∧ (let w := world_with_cache cache_without_second in
     let fetched := get_test_cases_from_redis "123" env_three w in
     let run :=
       migrate_to_cloud_storage "123" "bucket" (Some 7) "tests" env_three w in
     option_map (map index_of) (value_or None fetched.1)
       = Some [JInt 1; JInt 3]
     ∧ run.1 = Ok tt
     ∧ map_to_list (storage run.2) =
         [(("bucket", "test_cases/7/01.a"), "10" +:+ nl);
          (("bucket", "test_cases/7/01"), "5" +:+ nl);
          (("bucket", "test_cases/7/02.a"), "12" +:+ nl);
          (("bucket", "test_cases/7/02"), "6" +:+ nl)]).
Proof.
  split; [|split].
  - intros container pk e tcs w Hput Htext.
    exists (after_uploads container pk 1 tcs w). split; [|split].
    + now apply upload_loop_run.
    + reflexivity.
    + intros i t Hin. now apply kept_position.
  - intros. apply upload_step_ignores_index.
  - cbn zeta. split; [|split]; vm_compute; reflexivity.
Qed.

Lemma upload_numbers_are_positions_witness :
  ∃ w',
    for_enumerate 1
      [fetched_case 1 "a" "b"; fetched_case 2 "" "c"; fetched_case 7 "d" "e"]
      (upload_step "bucket" "7") env_three empty_world = (Ok tt, w')
    ∧ trace w' =
        [EvUploadTestCase "bucket" "7" 1; EvUploadTestCase "bucket" "7" 3].
Proof.
  destruct (proj1 upload_numbers_are_positions "bucket" "7" env_three
              [fetched_case 1 "a" "b"; fetched_case 2 "" "c";
               fetched_case 7 "d" "e"]
              empty_world)
    as (w' & Hrun & Htrace & _).
  - intros key. reflexivity.
  - apply Forall_of_forallb. vm_compute. reflexivity.
  - exists w'. split; [exact Hrun|]. rewrite Htrace. vm_compute. reflexivity.
Defined.

End MigrationFacts.

Module CacheFacts.
Import PyStr Py Runtime PolygonAPI Describe Scenario RuntimeFacts PyStrFacts.
Local Open Scope py_scope.

(** ** Keys *)

Lemma test_key_inj pid (i j : Z) : test_key pid i = test_key pid j → i = j.
Proof.
  unfold test_key. intros H.
  apply String.app_inj in H. apply String.app_inj in H.
  now apply str_of_int_inj.
Qed.

Lemma count_key_not_test_key pid (i : Z) : count_key pid ≠ test_key pid i.
Proof.
  unfold count_key, test_key. intros H.
  apply String.app_inj in H. discriminate H.
Qed.

(** ** Writing *)

Lemma setex_ok key seconds v e w :
  redis_up e = true → 0 < seconds →
  setex key seconds v e w =
    (Ok tt, set_redis (<[key := (v, Some (now e + seconds))]> (redis w)) w).
Proof.
  intros Hup Hpos. unfold setex, command. rewrite Hup.
  destruct (Z.leb_spec seconds 0); [lia | reflexivity].
Qed.

Lemma set_redis_id w : set_redis (redis w) w = w.
Proof. now destruct w. Qed.

(** The loop of [store_test_cases_in_redis] writes one record per test
    case. *)
Lemma store_loop pid ttl e (ds : list (gmap string jv)) :
  redis_up e = true → 0 < ttl →
  ∀ start w,
    for_enumerate start (map PDict ds)
      (fun idx test_case =>
         let* d := as_dict test_case in
         setex (test_key pid idx) ttl (RJson (test_case_data idx d))) e w
    = (Ok tt,
       set_redis
         (with_records pid (now e + ttl) (enumerate start ds) (redis w)) w).
Proof.
  intros Hup Hpos. induction ds as [|d ds IH]; intros start w.
  - cbn. unfold ret. now rewrite set_redis_id.
  - cbn [map for_enumerate enumerate].
    unfold bind at 1. unfold bind at 1. cbn [as_dict]. unfold ret at 1.
    rewrite setex_ok by assumption.
    rewrite IH. reflexivity.
Qed.

Lemma store_run pid ttl e (ds : list (gmap string jv)) w :
  redis_up e = true → 0 < ttl →
  store_test_cases_in_redis pid (map PDict ds) ttl e w =
    (Ok tt, set_redis (with_cache_entry pid (now e + ttl) ds (redis w)) w).
Proof.
  intros Hup Hpos. unfold store_test_cases_in_redis.
  apply try_except_ok.
  assert (Hping : ping e w = (Ok tt, w)).
  { unfold ping, command, ret. now rewrite Hup. }
  rewrite (bind_ok _ _ _ _ _ _ Hping).
  rewrite (bind_ok _ _ _ _ _ _ (setex_ok _ _ _ _ _ Hup Hpos)).
  rewrite store_loop by assumption.
  rewrite length_map. reflexivity.
Qed.

(** ** Reading what was written *)

Lemma with_records_cons pid deadline it items r :
  with_records pid deadline (it :: items) r =
  with_records pid deadline items
    (<[test_key pid it.1 :=
         (RJson (test_case_data it.1 it.2), Some deadline)]> r).
Proof. reflexivity. Qed.

Lemma lookup_with_records_other pid deadline items r key :
  (∀ i d, In (i, d) items → test_key pid i ≠ key) →
  with_records pid deadline items r !! key = r !! key.
Proof.
  revert r. induction items as [|[i d] items IH]; intros r Hne; [reflexivity|].
  rewrite with_records_cons, IH.
  - apply lookup_insert_ne. apply (Hne i d). now left.
  - intros i' d' Hin. apply (Hne i' d'). now right.
Qed.

Lemma lookup_with_records_hit pid deadline (ds : list (gmap string jv)) :
  ∀ start r (j : nat) d,
    ds !! j = Some d →
    with_records pid deadline (enumerate start ds) r
      !! test_key pid (start + Z.of_nat j)
    = Some (RJson (test_case_data (start + Z.of_nat j) d), Some deadline).
Proof.
  induction ds as [|d0 ds IH]; intros start r j d Hj; [discriminate|].
  destruct j as [|j]; cbn in Hj.
  - injection Hj as ->. cbn [enumerate]. rewrite with_records_cons.
    cbn [fst snd]. rewrite Z.add_0_r. rewrite lookup_with_records_other.
    + apply lookup_insert_eq.
    + intros i d' Hin Heq. apply test_key_inj in Heq.
      apply MigrationFacts.enumerate_position in Hin. lia.
  - cbn [enumerate]. rewrite with_records_cons.
    replace (start + Z.of_nat (S j)) with ((start + 1) + Z.of_nat j) by lia.
    now apply IH.
Qed.

Lemma lookup_count_after_store pid deadline ds r :
  with_cache_entry pid deadline ds r !! count_key pid
  = Some (RInt (Z.of_nat (length ds)), Some deadline).
Proof.
  unfold with_cache_entry. rewrite lookup_with_records_other.
  - apply lookup_insert_eq.
  - intros i d _ H. symmetry in H. now apply count_key_not_test_key in H.
Qed.

Lemma get_value key e w :
  redis_up e = true →
  get key e w = (Ok (lookup_live (now e) (redis w) key), w).
Proof. intros Hup. unfold get, command. now rewrite Hup. Qed.

(** The reading loop returns the records it finds, in order. *)
Lemma collect_hits pid e w (ds : list (gmap string jv)) :
  redis_up e = true →
  ∀ (s : nat) acc,
    (∀ (j : nat) d, ds !! j = Some d →
       lookup_live (now e) (redis w) (test_key pid (Z.of_nat s + Z.of_nat j))
       = Some (RJson (test_case_data (Z.of_nat s + Z.of_nat j) d))) →
    collect_test_cases pid (seq s (length ds)) acc e w
    = (Ok (acc ++ as_cached (Z.of_nat s) ds), w).
Proof.
  intros Hup. induction ds as [|d ds IH]; intros s acc Hhit.
  - cbn. unfold ret, as_cached. cbn. now rewrite app_nil_r.
  - cbn [length seq collect_test_cases].
    rewrite (bind_ok _ _ _ _ _ _ (get_value _ _ _ Hup)).
    specialize (Hhit 0%nat d eq_refl) as H0. rewrite Z.add_0_r in H0.
    rewrite H0. cbn [bytes_truthy json_loads].
    unfold bind at 1. unfold ret at 1.
    rewrite IH.
    + unfold as_cached. cbn [enumerate map fst snd].
      rewrite <- app_assoc. cbn [app].
      replace (Z.of_nat (S s)) with (Z.of_nat s + 1) by lia. reflexivity.
    + intros j d' Hj. specialize (Hhit (S j) d' Hj).
      replace (Z.of_nat (S s) + Z.of_nat j)
        with (Z.of_nat s + Z.of_nat (S j)) by lia.
      exact Hhit.
Qed.

(** A fetch before the deadline returns the stored records. *)
Lemma fetch_hit pid deadline (ds : list (gmap string jv)) r e w :
  redis_up e = true → now e < deadline →
  redis w = with_cache_entry pid deadline ds r →
  get_test_cases_from_redis pid e w = (Ok (Some (as_cached 1 ds)), w).
Proof.
  intros Hup Hlive Hr. unfold get_test_cases_from_redis.
  apply try_except_ok.
  assert (Hfresh : (now e <? deadline) = true) by now apply Z.ltb_lt.
  rewrite (bind_ok _ _ _ _ _ _ (get_value _ _ _ Hup)).
  unfold lookup_live at 1. rewrite Hr, lookup_count_after_store.
  unfold live. cbn [fst snd]. rewrite Hfresh.
  cbn [int_of_bytes]. unfold bind at 1. unfold ret at 1.
  rewrite Nat2Z.id.
  assert (Hhit : ∀ (j : nat) d, ds !! j = Some d →
            lookup_live (now e) (redis w)
              (test_key pid (Z.of_nat 1 + Z.of_nat j))
            = Some (RJson (test_case_data (Z.of_nat 1 + Z.of_nat j) d))).
  { intros j d Hj. unfold lookup_live. rewrite Hr. unfold with_cache_entry.
    change (Z.of_nat 1) with 1.
    rewrite (lookup_with_records_hit _ _ _ _ _ _ _ Hj).
    unfold live. cbn [fst snd]. now rewrite Hfresh. }
  rewrite (bind_ok _ _ _ _ _ _ (collect_hits pid e w ds Hup 1%nat [] Hhit)).
  reflexivity.
Qed.

(** A fetch at or after the deadline is a miss. *)
Lemma fetch_expired pid deadline (ds : list (gmap string jv)) r e w :
  redis_up e = true → deadline ≤ now e →
  redis w = with_cache_entry pid deadline ds r →
  get_test_cases_from_redis pid e w = (Ok None, w).
Proof.
  intros Hup Hdead Hr. unfold get_test_cases_from_redis.
  apply try_except_ok.
  rewrite (bind_ok _ _ _ _ _ _ (get_value _ _ _ Hup)).
  unfold lookup_live. rewrite Hr, lookup_count_after_store.
  unfold live. cbn [fst snd].
  destruct (Z.ltb_spec (now e) deadline); [lia | reflexivity].
Qed.

(** ** The stored record *)

Lemma test_case_data_lookup (idx : Z) (d : gmap string jv) :
  test_case_data idx d !! "index" = Some (dict_get d "index" (JInt idx))
  ∧ test_case_data idx d !! "input" = Some (dict_get d "input" (JStr ""))
  ∧ test_case_data idx d !! "output" = Some (dict_get d "output" (JStr ""))
  ∧ test_case_data idx d !! "description"
      = Some (dict_get d "description" (JStr ""))
  ∧ test_case_data idx d !! "is_sample"
      = Some (dict_get d "is_sample" (JBool false)).
Proof.
  unfold test_case_data. repeat split;
    repeat (rewrite lookup_insert_ne by discriminate);
    apply lookup_insert_eq.
Qed.

Lemma test_case_data_other (idx : Z) (d : gmap string jv) (f : string) :
  ¬ In f cached_fields → test_case_data idx d !! f = None.
Proof.
  intros Hf. unfold test_case_data.
  repeat (rewrite lookup_insert_ne
            by (intros <-; apply Hf; cbn; tauto)).
  apply lookup_empty.
Qed.

Lemma test_case_data_agrees (idx : Z) (d : gmap string jv) :
  has_cached_fields d = true →
  agree_on_cached_fields (PDict d) (PDict (test_case_data idx d)).
Proof.
  intros H f Hf.
  destruct (test_case_data_lookup idx d) as (H1 & H2 & H3 & H4 & H5).
  unfold has_cached_fields in H. cbn in H. unfold dict_get in *.
  destruct (d !! "index") eqn:E1; [|discriminate].
  destruct (d !! "input") eqn:E2; [|discriminate].
  destruct (d !! "output") eqn:E3; [|discriminate].
  destruct (d !! "description") eqn:E4; [|discriminate].
  destruct (d !! "is_sample") eqn:E5; [|discriminate].
  cbn in Hf.
  destruct Hf as [<- | [<- | [<- | [<- | [<- | []]]]]];
    [rewrite E1; exact H1 | rewrite E2; exact H2 | rewrite E3; exact H3
    | rewrite E4; exact H4 | rewrite E5; exact H5].
Qed.

Lemma as_cached_agrees (ds : list (gmap string jv)) :
  Forall (fun d => has_cached_fields d = true) ds →
  ∀ start, Forall2 agree_on_cached_fields (map PDict ds) (as_cached start ds).
Proof.
  induction 1 as [|d ds Hd _ IH]; intros start; cbn; constructor.
  - now apply test_case_data_agrees.
  - apply IH.
Qed.

Lemma as_cached_lacks_manual (ds : list (gmap string jv)) start :
  Forall lacks_manual (as_cached start ds).
Proof.
  revert start. induction ds as [|d ds IH]; intros start; cbn; constructor.
  - cbn. apply test_case_data_other. cbn. intros H.
    repeat (destruct H as [H | H]; [discriminate H|]). exact H.
  - apply IH.
Qed.

(** ** C6 *)

(** C6. With Redis reachable and a positive time to live, storing a list of
    test-case records under a problem reference and fetching it from the
    unchanged store before the time to live has elapsed returns a list of
    the same length whose records carry the stored values of [index],
    [input], [output], [description] and [is_sample]; once the time to live
    has elapsed the fetch is a miss. The stored records have these five
    entries, as the API client builds them. *)
Theorem cache_round_trip
    (pid : string) (ds : list (gmap string jv)) (ttl : Z) (e e' : env) (w : world) :
  redis_up e = true → redis_up e' = true → 0 < ttl →
  Forall (fun d => has_cached_fields d = true) ds →
  let w1 := (store_test_cases_in_redis pid (map PDict ds) ttl e w).2 in
  (now e' < now e + ttl →
     ∃ fetched,
       (get_test_cases_from_redis pid e' w1).1 = Ok (Some fetched)
       ∧ Forall2 agree_on_cached_fields (map PDict ds) fetched)
  ∧ (now e + ttl ≤ now e' →
       (get_test_cases_from_redis pid e' w1).1 = Ok None).
Proof.
  intros Hup Hup' Hpos Hfields. cbn zeta.
  rewrite store_run by assumption. cbn [snd]. split.
  - intros Hlive. exists (as_cached 1 ds). split.
    + erewrite fetch_hit; [reflexivity | assumption | eassumption | reflexivity].
    + now apply as_cached_agrees.
  - intros Hdead.
    erewrite fetch_expired; [reflexivity | assumption | eassumption | reflexivity].
Qed.

Lemma cache_round_trip_witness :
  let w1 :=
    (store_test_cases_in_redis "123"
       (map PDict [cached_case 1 "5" "10"; cached_case 2 "6" "12"]) 1800
       env_three empty_world).2 in
  (∃ fetched,
     (get_test_cases_from_redis "123" (at_time 2799 env_three) w1).1
       = Ok (Some fetched)
     ∧ Forall2 agree_on_cached_fields
         (map PDict [cached_case 1 "5" "10"; cached_case 2 "6" "12"]) fetched)
  ∧ (get_test_cases_from_redis "123" (at_time 2800 env_three) w1).1 = Ok None.
Proof.
  cbn zeta.
  pose proof (cache_round_trip "123"
                [cached_case 1 "5" "10"; cached_case 2 "6" "12"] 1800
                env_three (at_time 2799 env_three) empty_world
                eq_refl eq_refl ltac:(lia)
                ltac:(apply Forall_of_forallb; vm_compute; reflexivity)) as H1.
  pose proof (cache_round_trip "123"
                [cached_case 1 "5" "10"; cached_case 2 "6" "12"] 1800
                env_three (at_time 2800 env_three) empty_world
                eq_refl eq_refl ltac:(lia)
                ltac:(apply Forall_of_forallb; vm_compute; reflexivity)) as H2.
  cbn zeta in H1, H2. split.
  - apply (proj1 H1). cbn. lia.
  - apply (proj2 H2). cbn. lia.
Defined.

End CacheFacts.

Module RecordFacts.
Import PyStr Py Runtime PolygonAPI Describe Scenario RuntimeFacts CacheFacts.
Local Open Scope py_scope.

(** A record built by the API client has a [manual] entry. *)
Lemma fetch_test_case_has_manual pid testset test e w t w' :
  fetch_test_case pid testset test e w = (Ok t, w') → has_manual t.
Proof.
  cbv [fetch_test_case bind try_except request emit ret raise logger
       redis storage trace log].
  destruct (test !! "index") as [index|]; [|discriminate].
  destruct (problem_testInput (remote e) pid testset index) as [input|x];
    [destruct (problem_testAnswer (remote e) pid testset index) as [output|x]|];
    intros H; injection H as <- _; cbn;
    repeat (rewrite lookup_insert_ne by discriminate);
    rewrite lookup_insert_eq; eexists; reflexivity.
Qed.

Lemma fetch_test_cases_have_manual pid testset e tests :
  ∀ acc w l w',
    Forall has_manual acc →
    fetch_test_cases pid testset tests acc e w = (Ok l, w') →
    Forall has_manual l.
Proof.
  induction tests as [|test tests IH]; intros acc w l w' Hacc Hrun.
  - cbn in Hrun. injection Hrun as <- _. exact Hacc.
  - cbn [fetch_test_cases] in Hrun. unfold bind at 1 in Hrun.
    destruct (fetch_test_case pid testset test e w) as [[t|x] w1] eqn:Ht;
      [|discriminate].
    apply (IH _ _ _ _ (Forall_app_2 _ _ _ Hacc
             (Forall_cons_2 _ _ _ (fetch_test_case_has_manual _ _ _ _ _ _ _ Ht)
                (Forall_nil_2 _))) Hrun).
Qed.

Lemma get_all_test_cases_have_manual pid testset e w l w' :
  get_all_test_cases pid testset e w = (Ok l, w') → Forall has_manual l.
Proof.
  unfold get_all_test_cases. unfold bind at 1.
  destruct (request "problem.tests" _ e w) as [[tests|x] w1]; [|discriminate].
  apply fetch_test_cases_have_manual. constructor.
Qed.

(** ** C9 *)

(** C9. The record that [store_test_cases_in_redis] writes for a test case
    has exactly the entries [index], [input], [output], [description] and
    [is_sample]; in particular it has no [manual] entry. So every record of
    a list fetched from an entry that the store wrote lacks [manual], while
    every record that [get_all_test_cases] returns has it. *)
Theorem cache_drops_manual_flag :
  (∀ (idx : Z) (d : gmap string jv) (f : string),
     is_Some (test_case_data idx d !! f) ↔ In f cached_fields)
  ∧ (∀ (idx : Z) (d : gmap string jv), test_case_data idx d !! "manual" = None)
  ∧ (∀ pid (ds : list (gmap string jv)) ttl e e' w,
       redis_up e = true → redis_up e' = true → 0 < ttl →
       now e' < now e + ttl →
       let w1 := (store_test_cases_in_redis pid (map PDict ds) ttl e w).2 in
       ∃ fetched,
         (get_test_cases_from_redis pid e' w1).1 = Ok (Some fetched)
         ∧ length fetched = length ds
         ∧ Forall lacks_manual fetched)
  ∧ (∀ pid testset e w l w',
       get_all_test_cases pid testset e w = (Ok l, w') → Forall has_manual l).
Proof.
  assert (Hmanual : ¬ In "manual" cached_fields).
  { cbn. intros H. repeat (destruct H as [H | H]; [discriminate H|]). exact H. }
  split; [|split; [|split]].
  - intros idx d f. split.
    + intros Hsome. destruct (in_dec string_dec f cached_fields) as [|Hn];
        [assumption|].
      rewrite (test_case_data_other idx d f Hn) in Hsome.
      now destruct Hsome.
    + intros Hf.
      destruct (test_case_data_lookup idx d) as (H1 & H2 & H3 & H4 & H5).
      cbn in Hf. destruct Hf as [<- | [<- | [<- | [<- | [<- | []]]]]]; eauto.
  - intros idx d. now apply test_case_data_other.
  - intros pid ds ttl e e' w Hup Hup' Hpos Hlive. cbn zeta.
    rewrite store_run by assumption. cbn [snd].
    exists (as_cached 1 ds). split; [|split].
    + erewrite fetch_hit; [reflexivity | assumption | eassumption | reflexivity].
    + unfold as_cached. rewrite length_map.
      generalize 1. induction ds as [|d ds IH]; intros s; cbn; [reflexivity|].
      now rewrite IH.
    + apply as_cached_lacks_manual.
  - apply get_all_test_cases_have_manual.
Qed.

Lemma cache_drops_manual_flag_witness :
  ∃ fetched,
    (get_test_cases_from_redis "123" (at_time 1500 env_three)
       (store_test_cases_in_redis "123"
          (map PDict [listed 1; listed 2]) 1800 env_three empty_world).2).1
      = Ok (Some fetched)
    ∧ length fetched = 2%nat
    ∧ Forall lacks_manual fetched.
Proof.
  exact (proj1 (proj2 (proj2 cache_drops_manual_flag))
           "123" [listed 1; listed 2] 1800 env_three
           (at_time 1500 env_three) empty_world
           eq_refl eq_refl eq_refl eq_refl).
Defined.

End RecordFacts.

Module InvalidationFacts.
Import PyStr Py Runtime PolygonAPI Views Describe Scenario RuntimeFacts.
Local Open Scope py_scope.





Lemma bind_get {B} key (k : option rvalue → M B) e w :
  bind (get key) k e w =
    if redis_up e then k (lookup_live (now e) (redis w) key) e w
    else (Raise (RedisError "connection refused"), w).
Proof. unfold bind, get, command. now destruct (redis_up e). Qed.



(** ** C2 *)




End InvalidationFacts.

Module FrameFacts.
Import PyStr Py Runtime StorageManager PolygonAPI Describe RuntimeFacts.
Local Open Scope py_scope.

Create HintDb frame discriminated.

Lemma keeps_ret {A} (a : A) : keeps_storage (ret a).
Proof. intros e w. reflexivity. Qed.

Lemma keeps_raise {A} x : keeps_storage (@raise A x).
Proof. intros e w. reflexivity. Qed.

Lemma keeps_ask : keeps_storage ask.
Proof. intros e w. reflexivity. Qed.

Lemma keeps_emit ev : keeps_storage (emit ev).
Proof. intros e w. reflexivity. Qed.

Lemma keeps_logger lv msg : keeps_storage (logger lv msg).
Proof. intros e w. reflexivity. Qed.

Lemma keeps_bind {A B} (m : M A) (k : A → M B) :
  keeps_storage m → (∀ a, keeps_storage (k a)) → keeps_storage (bind m k).
Proof.
  intros Hm Hk e w. unfold bind. specialize (Hm e w).
  destruct (m e w) as [[a|x] w1]; cbn in *; [|exact Hm].
  now rewrite Hk.
Qed.

Lemma keeps_try_except {A} (m : M A) h :
  keeps_storage m → (∀ x, keeps_storage (h x)) → keeps_storage (try_except m h).
Proof.
  intros Hm Hh e w. unfold try_except. specialize (Hm e w).
  destruct (m e w) as [[a|x] w1]; cbn in *; [exact Hm|].
  now rewrite Hh.
Qed.

Lemma keeps_if {A} (b : bool) (m1 m2 : M A) :
  keeps_storage m1 → keeps_storage m2 → keeps_storage (if b then m1 else m2).
Proof. now destruct b. Qed.

Lemma keeps_request {A} method (answer : polygon_remote → result A) :
  keeps_storage (request method answer).
Proof. intros e w. reflexivity. Qed.

Lemma keeps_command {A} (run : M A) :
  keeps_storage run → keeps_storage (command run).
Proof. intros H e w. unfold command. destruct (redis_up e); [apply H | reflexivity]. Qed.

Lemma keeps_setex key seconds v : keeps_storage (setex key seconds v).
Proof.
  apply keeps_command. intros e w. now destruct (seconds <=? 0).
Qed.

Lemma keeps_get key : keeps_storage (get key).
Proof. apply keeps_command. intros e w. reflexivity. Qed.

Lemma keeps_scan_delete pattern : keeps_storage (scan_delete pattern).
Proof.
  apply keeps_bind; [apply keeps_emit | intros _].
  apply keeps_command. intros e w. reflexivity.
Qed.

Lemma keeps_get_storage_manager : keeps_storage get_storage_manager.
Proof. intros e w. unfold get_storage_manager. now destruct (storage_configured e). Qed.

#[local] Hint Resolve keeps_ret keeps_raise keeps_ask keeps_emit keeps_logger
  keeps_request keeps_setex keeps_get keeps_scan_delete
  keeps_get_storage_manager : frame.
#[local] Hint Extern 2 (keeps_storage (bind _ _)) =>
  apply keeps_bind; [|intros ?] : frame.
#[local] Hint Extern 2 (keeps_storage (try_except _ _)) =>
  apply keeps_try_except; [|intros ?] : frame.
#[local] Hint Extern 3 (keeps_storage (if _ then _ else _)) =>
  apply keeps_if : frame.
#[local] Hint Extern 3 (keeps_storage (match ?x with _ => _ end)) =>
  destruct x : frame.

Lemma keeps_as_dict t : keeps_storage (as_dict t).
Proof. destruct t; auto with frame. Qed.

#[local] Hint Resolve keeps_as_dict : frame.

Lemma keeps_for_enumerate {A} (xs : list A) (body : Z → A → M unit) :
  (∀ i x, keeps_storage (body i x)) →
  ∀ start, keeps_storage (for_enumerate start xs body).
Proof.
  intros Hb. induction xs as [|x xs IH]; intros start; cbn; auto with frame.
Qed.

Lemma keeps_store pid tcs ttl :
  keeps_storage (store_test_cases_in_redis pid tcs ttl).
Proof.
  unfold store_test_cases_in_redis, ping.
  apply keeps_try_except; [|auto with frame].
  apply keeps_bind; [apply keeps_command; auto with frame | intros _].
  apply keeps_bind; [auto with frame | intros _].
  apply keeps_for_enumerate. intros i x. auto with frame.
Qed.

Lemma keeps_collect pid indices :
  ∀ acc, keeps_storage (collect_test_cases pid indices acc).
Proof.
  induction indices as [|i indices IH]; intros acc; cbn [collect_test_cases];
    [auto with frame|].
  apply keeps_bind; [auto with frame | intros v].
  apply keeps_if.
  - apply keeps_bind; [|intros ?; apply IH].
    destruct v as [[]|]; cbn; auto with frame.
  - apply keeps_bind; [auto with frame | intros _; apply IH].
Qed.

Lemma keeps_fetch_cache pid : keeps_storage (get_test_cases_from_redis pid).
Proof.
  unfold get_test_cases_from_redis.
  apply keeps_try_except; [|auto with frame].
  apply keeps_bind; [auto with frame | intros [c|]]; [|auto with frame].
  apply keeps_bind; [destruct c; cbn; auto with frame | intros n].
  apply keeps_bind; [apply keeps_collect | auto with frame].
Qed.

Lemma keeps_fetch_test_case pid testset test :
  keeps_storage (fetch_test_case pid testset test).
Proof. unfold fetch_test_case. auto 20 with frame. Qed.

Lemma keeps_fetch_test_cases pid testset tests :
  ∀ acc, keeps_storage (fetch_test_cases pid testset tests acc).
Proof.
  induction tests as [|t tests IH]; intros acc; cbn; [auto with frame|].
  apply keeps_bind; [apply keeps_fetch_test_case | intros ?; apply IH].
Qed.

Lemma keeps_get_all pid testset : keeps_storage (get_all_test_cases pid testset).
Proof.
  unfold get_all_test_cases.
  apply keeps_bind; [auto with frame | intros ?; apply keeps_fetch_test_cases].
Qed.

Lemma keeps_resolve pid testset : keeps_storage (resolve_test_cases pid testset).
Proof.
  unfold resolve_test_cases.
  apply keeps_bind; [apply keeps_fetch_cache | intros [tcs|]]; [auto with frame|].
  apply keeps_bind; [auto with frame | intros _].
  apply keeps_bind; [apply keeps_get_all | intros tcs].
  apply keeps_bind; [apply keeps_store | auto with frame].
Qed.

Lemma keeps_checker_info pid : keeps_storage (get_custom_checker_info pid).
Proof. unfold get_custom_checker_info. auto 20 with frame. Qed.

Lemma keeps_fetch_checker pid name :
  keeps_storage (fetch_custom_checker_file pid name).
Proof. unfold fetch_custom_checker_file. auto 30 with frame. Qed.

Lemma keeps_compile source dir : keeps_storage (compile_custom_checker source dir).
Proof.
  intros e w. unfold compile_custom_checker, bind, ask, ret, raise, logger.
  destruct (negb (text_truthy (which_gpp e))); [reflexivity|].
  destruct (source_write_fails e); [reflexivity|].
  destruct (run_gpp e source) as [rc [bytes|]| | |];
    try destruct (rc =? 0); reflexivity.
Qed.

End FrameFacts.

Module CheckerFacts.
Import PyStr Py Runtime StorageManager PolygonAPI Describe Scenario.
Import RuntimeFacts FrameFacts.
Local Open Scope py_scope.

(** The outcome of the checker lookup when the remote call raises. *)
Lemma checker_info_on_failure pid x e w :
  problem_checker (remote e) pid = Raise x →
  get_custom_checker_info pid e w =
    (Ok None,
     {| redis := redis w; storage := storage w;
        trace := trace w ++ [EvRequest "problem.checker"];
        log := log w ++ [(Error, "Error fetching custom checker info")] |}).
Proof.
  intros H.
  cbv [get_custom_checker_info try_except bind request emit ret raise logger
       redis storage trace log].
  now rewrite H.
Qed.

(** The outcome of the checker lookup for a standard checker. *)
Lemma checker_info_on_standard pid name e w :
  problem_checker (remote e) pid = Ok (JStr name) →
  startswith "std::" name = true →
  get_custom_checker_info pid e w =
    (Ok None,
     {| redis := redis w; storage := storage w;
        trace := trace w ++ [EvRequest "problem.checker"];
        log := log w |}).
Proof.
  intros H Hstd.
  cbv [get_custom_checker_info try_except bind request emit ret raise logger
       redis storage trace log].
  rewrite H. destruct name as [|c name]; [discriminate Hstd|].
  cbn [truthy nonempty]. now rewrite Hstd.
Qed.

(** ** C10 *)

(** C10. [get_custom_checker_info] returns [None] when the checker name
    begins with [std::] and also when the remote call raises, whatever the
    exception. In both cases [upload_custom_checker_to_storage] returns
    normally after that one request: it writes nothing to storage and calls
    no storage operation, so the run is not aborted. *)
Theorem checker_lookup_failure_is_silent
    (pid container : string) (db : option Z) (e : env) (w : world) :
  (∃ x, problem_checker (remote e) pid = Raise x)
  ∨ (∃ name, problem_checker (remote e) pid = Ok (JStr name)
             ∧ startswith "std::" name = true) →
  (get_custom_checker_info pid e w).1 = Ok None
  ∧ (let run := upload_custom_checker_to_storage pid container db e w in
     run.1 = Ok tt
     ∧ storage run.2 = storage w
     ∧ trace run.2 = trace w ++ [EvRequest "problem.checker"]).
Proof.
  intros [[x H] | [name [H Hstd]]]; cbn zeta;
    unfold upload_custom_checker_to_storage.
  - rewrite (bind_ok _ _ _ _ _ _ (checker_info_on_failure _ _ _ _ H)).
    rewrite (checker_info_on_failure _ _ _ _ H). now cbn.
  - rewrite (bind_ok _ _ _ _ _ _ (checker_info_on_standard _ _ _ _ H Hstd)).
    rewrite (checker_info_on_standard _ _ _ _ H Hstd). now cbn.
Qed.

Lemma checker_lookup_failure_is_silent_witness :
  let e := with_remote remote_checker_down env_three in
  (get_custom_checker_info "123" e empty_world).1 = Ok None
  ∧ (let run :=
       upload_custom_checker_to_storage "123" "bucket" (Some 7) e empty_world in
     run.1 = Ok tt
     ∧ storage run.2 = storage empty_world
     ∧ trace run.2 = trace empty_world ++ [EvRequest "problem.checker"]).
Proof.
  exact (checker_lookup_failure_is_silent "123" "bucket" (Some 7)
           (with_remote remote_checker_down env_three) empty_world
           (or_introl (ex_intro _ HTTPRequestError eq_refl))).
Defined.

End CheckerFacts.

Module CheckerStorageFacts.
Import PyStr Py Runtime StorageManager PolygonAPI Describe Scenario.
Import RuntimeFacts PyStrFacts FrameFacts MigrationFacts.
Local Open Scope py_scope.

(** ** Object names *)

(** A formatted test number starts with a digit or a minus sign. *)
Lemma format_02d_head (n : Z) :
  ∃ h t, format_02d n = String h t ∧ h ≠ "c"%char.
Proof.
  unfold format_02d. destruct (n <? 0).
  - eexists _, _. split; [reflexivity | discriminate].
  - destruct (String.length (str_of_int n) <? 2)%nat.
    + eexists _, _. split; [reflexivity | discriminate].
    + unfold str_of_int. destruct n as [|p|p]; cbn.
      * eexists _, _. split; [reflexivity | discriminate].
      * pose proof (DecimalPos.Unsigned.to_uint_nonnil p) as Hnn.
        destruct (Pos.to_uint p); try (now contradiction Hnn);
          cbn; eexists _, _; (split; [reflexivity | discriminate]).
      * eexists _, _. split; [reflexivity | discriminate].
Qed.

Lemma key_tail_inj (pk a b : string) :
  "test_cases/" +:+ pk +:+ "/" +:+ a = "test_cases/" +:+ pk +:+ "/" +:+ b →
  a = b.
Proof.
  intros H. apply (String.app_inj "test_cases/") in H.
  apply String.app_inj in H. now apply (String.app_inj "/") in H.
Qed.

Lemma checker_source_path_tail pk :
  checker_source_path pk
  = "test_cases/" +:+ pk +:+ "/" +:+ "custom_checker.cpp".
Proof. reflexivity. Qed.

Lemma test_keys_not_checker_source pk n :
  Naming.input_key pk n ≠ checker_source_path pk
  ∧ Naming.output_key pk n ≠ checker_source_path pk.
Proof.
  destruct (format_02d_head n) as (h & t & E & Hh).
  rewrite checker_source_path_tail. unfold Naming.input_key, Naming.output_key.
  split; intros H; apply key_tail_inj in H; rewrite E in H;
    injection H as H _; now apply Hh.
Qed.

Lemma test_keys_not_checker_binary e pk n :
  Naming.input_key pk n ≠ checker_binary_path e pk
  ∧ Naming.output_key pk n ≠ checker_binary_path e pk.
Proof.
  destruct (format_02d_head n) as (h & t & E & Hh).
  unfold checker_binary_path, binary_filename, Naming.input_key,
    Naming.output_key.
  split; intros H; apply key_tail_inj in H; rewrite E in H;
    destruct (platform_win e); injection H as H _; now apply Hh.
Qed.


Lemma startswith_append (p s : string) : startswith p (p +:+ s) = true.
Proof.
  unfold startswith. induction p as [|c p IH]; cbn; [now destruct s|].
  destruct (ascii_dec c c); [exact IH | contradiction].
Qed.

Lemma checker_paths_under_prefix container e pk :
  under_prefix container ("test_cases/" +:+ pk +:+ "/")
    (container, checker_source_path pk) = true
  ∧ under_prefix container ("test_cases/" +:+ pk +:+ "/")
      (container, checker_binary_path e pk) = true.
Proof.
  unfold under_prefix. cbn [fst snd]. rewrite String.eqb_refl. cbn [andb].
  rewrite checker_source_path_tail. unfold checker_binary_path.
  rewrite <- !(append_assoc "test_cases/"), <- !append_assoc.
  split; apply startswith_append.
Qed.

(** ** Storage operations *)


Lemma purged_lookup container pk w key :
  under_prefix container ("test_cases/" +:+ pk +:+ "/") (container, key) = true →
  storage (after_purge container pk w) !! (container, key) = None.
Proof.
  intros H. cbn [after_purge storage].
  apply map_lookup_filter_None_2. right. intros v _. cbn [fst]. now rewrite H.
Qed.




Lemma upload_file_outcome container path data e w :
  storage (upload_file container path data e w).2 = storage w
  ∨ storage (upload_file container path data e w).2
    = <[(container, path) := data]> (storage w).
Proof.
  cbv [upload_file bind emit try_except put_object logger raise redis storage
       trace log set_storage].
  destruct (put_fails e container path); cbn; auto.
Qed.


(** ** Checker handling *)

Lemma compile_and_upload_outcome pid container db source dir e w :
  checker_write container (problem_id_for_naming pid db) e (storage w)
    (storage (compile_and_upload pid container db source dir e w).2).
Proof.
  remember (compile_and_upload pid container db source dir e w) as r eqn:Hr.
  unfold compile_and_upload in Hr. unfold bind at 1 in Hr.
  pose proof (keeps_compile source dir e w) as Hc.
  unfold checker_write. rewrite <- Hc.
  destruct (compile_custom_checker source dir e w) as [[[[path bytes]|]|x] w1];
    cbn [snd] in *.
  - unfold bind, ask in Hr.
    destruct (read_binary_fails e); [left; now subst r|].
    unfold try_except in Hr.
    pose proof (upload_file_outcome container
                  (checker_binary_path e (problem_id_for_naming pid db))
                  bytes e w1) as Hu.
    destruct (upload_file _ _ _ e w1) as [[[]|y] w2]; cbn [snd] in *; subst r;
      (destruct Hu as [Hu | Hu];
       [left; exact Hu | right; right; exists bytes; exact Hu]).
  - unfold try_except in Hr.
    pose proof (upload_file_outcome container
                  (checker_source_path (problem_id_for_naming pid db))
                  source e w1) as Hu.
    destruct (upload_file _ _ _ e w1) as [[[]|y] w2]; cbn [snd] in *; subst r;
      (destruct Hu as [Hu | Hu];
       [left; exact Hu | right; left; exists source; exact Hu]).
  - left. now subst r.
Qed.

Lemma checker_write_frame container pk e st st1 st2 :
  st1 = st → checker_write container pk e st1 st2 →
  checker_write container pk e st st2.
Proof. now intros ->. Qed.

(** Checker handling writes at most one object. *)
Lemma upload_custom_checker_outcome pid container db e w :
  checker_write container (problem_id_for_naming pid db) e (storage w)
    (storage (upload_custom_checker_to_storage pid container db e w).2).
Proof.
  remember (upload_custom_checker_to_storage pid container db e w) as r eqn:Hr.
  unfold upload_custom_checker_to_storage in Hr. unfold bind at 1 in Hr.
  pose proof (keeps_checker_info pid e w) as H1.
  destruct (get_custom_checker_info pid e w) as [[[name|]|x] w1];
    cbn [snd] in H1; try (left; subst r; exact H1).
  unfold bind at 1 in Hr.
  pose proof (keeps_fetch_checker pid name e w1) as H2.
  destruct (fetch_custom_checker_file pid name e w1) as [[[source|]|x] w2];
    cbn [snd] in H2; try (left; subst r; cbn; congruence).
  destruct (nonempty source); [|left; subst r; cbn; congruence].
  unfold bind at 1 in Hr.
  pose proof (keeps_get_storage_manager e w2) as H3.
  destruct (get_storage_manager e w2) as [[[]|x] w3];
    cbn [snd] in H3; [|left; subst r; cbn; congruence].
  unfold bind at 1, ask in Hr.
  apply (checker_write_frame _ _ _ _ (storage w3)); [congruence|].
  subst r.
  destruct (custom_checker_dir e) as [dir|]; [destruct (nonempty dir)|];
    apply compile_and_upload_outcome.
Qed.






(** ** C3 *)




End CheckerStorageFacts.

Module SigningFacts.
Import PyStr Py Runtime PolygonAPI Describe Scenario.








Lemma rand_prefix_length e : String.length (rand_prefix e) = 6%nat.
Proof. reflexivity. Qed.

(** ** C7 *)



(** The text that is hashed for a request with two parameters, with the
    identity in place of the hash. *)
Example signature_text :
  (_generate_api_sig (fun text => text) env_three "problem.tests"
     (<["testset" := JStr "tests"]> {["problemId" := JInt 5]})).1
  = "abcdef" +:+
    "abcdef/problem.tests?apiKey=key&problemId=5&testset=tests&time=1000#secret".
Proof. vm_compute. reflexivity. Qed.

(** Reserved characters are percent-encoded and a space becomes a plus sign. *)
Example quote_plus_reserved : quote_plus "a b/c&d=~" = "a+b%2Fc%26d%3D~".
Proof. reflexivity. Qed.

End SigningFacts.

Module ViewFacts.
Import PyStr Py Runtime StorageManager PolygonAPI Views Describe Scenario.
Import RuntimeFacts.
Local Open Scope py_scope.

(** When the flags ask for a purge, the handler raises on the missing method
    before it reaches the cache; it never calls [empty_blob]. *)
Lemma failure_handler_with_purge pid f e w :
  purge_requested f = true →
  failure_handler pid f e w =
    (Raise (AttributeError "delete_azure_blob"),
     {| redis := redis w; storage := storage w; trace := trace w;
        log := log w ++ [(Error, "Exception in index view")] |}).
Proof.
  intros H. unfold failure_handler. unfold bind at 1. unfold logger at 1.
  rewrite H. reflexivity.
Qed.

(** Otherwise the handler clears the cache of the problem and leaves
    storage alone. *)
Lemma failure_handler_without_purge pid f e w :
  purge_requested f = false →
  let after := failure_handler pid f e w in
  is_ok after.1 = true
  ∧ storage after.2 = storage w
  ∧ trace after.2 = trace w ++ [EvScanDelete (cache_prefix pid +:+ "*")].
Proof.
  intros H. cbn zeta.
  cbv [failure_handler bind logger ret clear_test_cases_from_redis try_except
       scan_delete emit command redis storage trace log set_redis].
  rewrite H. destruct (redis_up e); cbn; auto.
Qed.

(** ** C1 *)

(** C1, evaluated on the two ways a migration can fail after storage writes.
    (a) The write for test number 3 fails after the objects of test number 1
    were uploaded: the view ends with its error context, the only
    [empty_blob] call of the run is the one that precedes the uploads, the
    objects 01 and 01.a stay in storage, and the cache is cleared.
    (b) The migration completes and a later statement of the view raises:
    the handler raises [AttributeError] on [delete_azure_blob], the objects
    stay in storage, no [empty_blob] call follows the uploads and the cache
    is not cleared. *)
Theorem failed_migration_leaves_uploaded_objects :
  (let e := with_put_fails third_write_fails env_three in
   let run := index "123" true (ret tt) e empty_world in
   is_ok run.1 = true
   ∧ trace run.2 =
       [EvRequest "problem.updateWorkingCopy";
        EvRequest "problem.solutions";
        EvScanDelete "oj_dev_with_redis_storage_test_cases_7*";
        EvRequest "problem.checker";
        EvRequest "problem.tests";
        EvRequest "problem.testInput"; EvRequest "problem.testAnswer";
        EvRequest "problem.testInput"; EvRequest "problem.testAnswer";
        EvRequest "problem.testInput"; EvRequest "problem.testAnswer";
        EvEmptyBlob "bucket" "7";
        EvUploadTestCase "bucket" "7" 1;
        EvUploadTestCase "bucket" "7" 3;
        EvScanDelete "polygon_migration_test_cases_123*"]
   ∧ map_to_list (storage run.2) =
       [(("bucket", "test_cases/7/01.a"), "10" +:+ nl);
        (("bucket", "test_cases/7/01"), "5" +:+ nl)])
  ∧ (let run :=
       index "123" true (raise (OtherException "problem.info failed"))
         env_three empty_world in
     run.1 = Raise (AttributeError "delete_azure_blob")
     ∧ List.filter is_purge (trace run.2) = [EvEmptyBlob "bucket" "7"]
     ∧ List.last (trace run.2) (EvRequest "") = EvRequest "problem.checker"
     ∧ List.filter is_cache_clear (trace run.2) = []
     ∧ map_to_list (storage run.2) =
         [(("bucket", "test_cases/7/03.a"), "12" +:+ nl);
          (("bucket", "test_cases/7/03"), "6" +:+ nl);
          (("bucket", "test_cases/7/01.a"), "10" +:+ nl);
          (("bucket", "test_cases/7/01"), "5" +:+ nl)]).
Proof. cbn zeta. repeat split; vm_compute; reflexivity. Qed.

End ViewFacts.

Module KeyFacts.
Import PyStr Py Runtime StorageManager PolygonAPI Describe Reading Scenario.
Import RuntimeFacts PyStrFacts NamingFacts.

Lemma length_append (a b : string) :
  String.length (a +:+ b) = (String.length a + String.length b)%nat.
Proof. induction a as [|c a IH]; cbn; [reflexivity | now rewrite IH]. Qed.

Lemma uint_text_parses (d : Decimal.uint) :
  NilEmpty.uint_of_string (NilEmpty.string_of_uint d) = Some d.
Proof. apply NilEmpty.usu. Qed.

Lemma to_int_text (z : Z) :
  NilZero.int_of_string (str_of_int z) = Some (Z.to_int z).
Proof.
  unfold str_of_int. apply NilZero.isi; destruct z as [|p|p]; cbn;
    try discriminate; intros H; injection H as H;
    now apply (DecimalPos.Unsigned.to_uint_nonnil p).
Qed.

Lemma parse_str_of_int (z : Z) : parse_int (str_of_int z) = Some z.
Proof.
  unfold parse_int. rewrite to_int_text. cbn. now rewrite DecimalZ.of_to.
Qed.

(** A leading zero does not change the number read. *)
Lemma parse_leading_zero (z : Z) :
  0 ≤ z → parse_int ("0" +:+ str_of_int z) = Some z.
Proof.
  intros Hz. unfold parse_int, str_of_int.
  destruct z as [|p|p]; [reflexivity | | lia].
  cbn [Z.to_int NilZero.string_of_int].
  pose proof (DecimalPos.Unsigned.to_uint_nonnil p) as Hnn.
  assert (E : NilZero.string_of_uint (Pos.to_uint p)
              = NilEmpty.string_of_uint (Pos.to_uint p)).
  { now destruct (Pos.to_uint p). }
  rewrite E. cbn [String.append NilZero.int_of_string].
  change (Ascii.eqb "0" "-") with false. cbn [NilZero.uint_of_string].
  cbn [NilEmpty.uint_of_string]. rewrite uint_text_parses. cbn.
  f_equal. change (Z.of_N (Pos.of_uint (Pos.to_uint p)) = Z.pos p).
  now rewrite DecimalPos.Unsigned.of_to.
Qed.

Lemma parse_format_02d (n : Z) : parse_int (format_02d n) = Some n.
Proof.
  unfold format_02d. destruct (Z.ltb_spec n 0) as [Hneg | Hpos].
  - destruct n as [|p|p]; try lia.
    change ("-" +:+ str_of_int (- Z.neg p)) with (str_of_int (Z.neg p)).
    apply parse_str_of_int.
  - destruct (String.length (str_of_int n) <? 2)%nat.
    + now apply parse_leading_zero.
    + apply parse_str_of_int.
Qed.

Lemma format_02d_inj (m n : Z) : format_02d m = format_02d n → m = n.
Proof.
  intros H. pose proof (parse_format_02d m) as Hm.
  rewrite H, parse_format_02d in Hm. now injection Hm.
Qed.

(** The text of a number has no dot in it. *)
Lemma uint_text_no_dot (d : Decimal.uint) :
  contains "." (NilEmpty.string_of_uint d) = false.
Proof. induction d; cbn; auto. Qed.

Lemma str_of_int_no_dot (z : Z) : contains "." (str_of_int z) = false.
Proof.
  unfold str_of_int. destruct z as [|p|p]; cbn; [reflexivity| |];
    destruct (Pos.to_uint p); cbn; auto using uint_text_no_dot.
Qed.

Lemma format_02d_no_dot (n : Z) : contains "." (format_02d n) = false.
Proof.
  unfold format_02d. destruct (n <? 0); [apply str_of_int_no_dot|].
  destruct (String.length (str_of_int n) <? 2)%nat; cbn;
    apply str_of_int_no_dot.
Qed.

Lemma output_key_append pk n :
  Naming.output_key pk n = Naming.input_key pk n +:+ ".a".
Proof. unfold Naming.output_key, Naming.input_key. now rewrite !append_assoc. Qed.

Lemma input_key_inj pk m n : Naming.input_key pk m = Naming.input_key pk n → m = n.
Proof.
  unfold Naming.input_key. intros H.
  apply (String.app_inj "test_cases/") in H. apply String.app_inj in H.
  apply (String.app_inj "/") in H. now apply format_02d_inj.
Qed.

Lemma append_inj_r (a b s : string) : a +:+ s = b +:+ s → a = b.
Proof.
  intros H. assert (Hr : rev (a +:+ s) = rev (b +:+ s)) by now rewrite H.
  rewrite !rev_append in Hr. apply String.app_inj in Hr.
  assert (Hrr : ∀ x, rev (rev x) = x).
  { induction x as [|c x IH]; cbn; [reflexivity|].
    now rewrite rev_append, IH. }
  rewrite <- (Hrr a), <- (Hrr b). now rewrite Hr.
Qed.

Lemma output_key_inj pk m n :
  Naming.output_key pk m = Naming.output_key pk n → m = n.
Proof.
  rewrite !output_key_append. intros H. apply append_inj_r in H.
  exact (input_key_inj pk m n H).
Qed.

Lemma input_key_not_output_key pk m n :
  Naming.input_key pk m ≠ Naming.output_key pk n.
Proof.
  unfold Naming.input_key, Naming.output_key. intros H.
  apply (String.app_inj "test_cases/") in H. apply String.app_inj in H.
  apply (String.app_inj "/") in H.
  pose proof (format_02d_no_dot m) as Hm. rewrite H in Hm.
  rewrite contains_append in Hm. cbn in Hm.
  now rewrite orb_true_r in Hm.
Qed.

(** X1. The test number can be read back from its two-digit form, so two
    test numbers never share an object, and no input object is the output
    object of any test number. *)
Theorem test_objects_are_distinct :
  (∀ n, parse_int (format_02d n) = Some n)
  ∧ (∀ pk m n, Naming.input_key pk m = Naming.input_key pk n → m = n)
  ∧ (∀ pk m n, Naming.output_key pk m = Naming.output_key pk n → m = n)
  ∧ (∀ pk m n, Naming.input_key pk m ≠ Naming.output_key pk n).
Proof.
  split; [|split; [|split]].
  - apply parse_format_02d.
  - intros pk m n. apply input_key_inj.
  - intros pk m n. apply output_key_inj.
  - intros pk m n. apply input_key_not_output_key.
Qed.

(** Comparison of two keys with a common beginning. *)
Lemma ltb_append (p a b : string) :
  String.ltb (p +:+ a) (p +:+ b) = String.ltb a b.
Proof.
  unfold String.ltb. induction p as [|c p IH]; cbn; [reflexivity|].
  assert (E : Ascii.compare c c = Eq).
  { unfold Ascii.compare. apply N.compare_refl. }
  now rewrite E.
Qed.

Lemma ordered_up_to_99 (m n : Z) :
  1 ≤ m → m < n → n ≤ 99 → String.ltb (format_02d m) (format_02d n) = true.
Proof.
  intros H1 Hlt H99.
  assert (Hall : ordered_below n = true).
  { apply (range_1_99 ordered_below); [vm_compute; reflexivity | lia]. }
  unfold ordered_below in Hall. rewrite forallb_forall in Hall.
  specialize (Hall (Z.to_nat m)). rewrite Z2Nat.id in Hall by lia.
  apply Hall, in_seq. lia.
Qed.

Lemma three_digits_sort_first (n : Z) :
  100 ≤ n → n ≤ 989 → String.ltb (format_02d n) (format_02d 99) = true.
Proof.
  intros Hlo Hhi.
  assert (Hall : forallb (fun k => String.ltb (format_02d (Z.of_nat k))
                                     (format_02d 99))
                         (seq 100 890) = true) by (vm_compute; reflexivity).
  rewrite forallb_forall in Hall.
  specialize (Hall (Z.to_nat n)). rewrite Z2Nat.id in Hall by lia.
  apply Hall, in_seq. lia.
Qed.

(** X2. Among the test numbers 1 to 99 the order of the object keys, as
    texts, is the order of the numbers. From 100 on the numbers are printed
    with three digits and the keys of 100 to 989 sort before the key of
    99. *)
Theorem key_order_follows_test_number (pk : string) (m n : Z) :
  (1 ≤ m → m < n → n ≤ 99 →
   String.ltb (Naming.input_key pk m) (Naming.input_key pk n) = true
   ∧ String.ltb (Naming.output_key pk m) (Naming.output_key pk n) = true)
  ∧ (100 ≤ n → n ≤ 989 →
     String.ltb (Naming.input_key pk n) (Naming.input_key pk 99) = true).
Proof.
  split.
  - intros H1 Hlt H99.
    pose proof (ordered_up_to_99 m n H1 Hlt H99) as Hord.
    unfold Naming.input_key, Naming.output_key.
    rewrite !ltb_append.
    split; [exact Hord|].
    rewrite (format_02d_two_digits m), (format_02d_two_digits n) in * by lia.
    unfold Naming.two_digits in *. cbn [String.append].
    unfold String.ltb in *. cbn [String.compare] in *.
    exact Hord.
  - intros Hlo Hhi. unfold Naming.input_key.
    rewrite !ltb_append.
    now apply three_digits_sort_first.
Qed.

Lemma key_order_follows_test_number_witness :
  String.ltb (Naming.input_key "7" 9) (Naming.input_key "7" 10) = true
  ∧ String.ltb (Naming.output_key "7" 9) (Naming.output_key "7" 10) = true.
Proof.
  exact (proj1 (key_order_follows_test_number "7" 9 10)
           ltac:(lia) ltac:(lia) ltac:(lia)).
Defined.

End KeyFacts.

Module StorageFacts.
Import PyStr Py Runtime StorageManager PolygonAPI Describe Reading Cases Scenario.
Import RuntimeFacts PyStrFacts NamingFacts UploadFacts MigrationFacts.
Import FrameFacts CheckerStorageFacts KeyFacts.
Local Open Scope py_scope.

Lemma case_keys_differ (c pk : string) (n : Z) :
  (c, Naming.input_key pk n) ≠ (c, Naming.output_key pk n).
Proof.
  intros E. apply (f_equal snd) in E. cbn [snd] in E.
  now apply input_key_not_output_key in E.
Qed.

(** X3. Uploading a test number again replaces its two objects: after two
    uploads of the same number storage is what the second upload alone
    would have left, with the second input and output under the two
    keys. *)
Theorem second_upload_replaces_first
    (c pk : string) (n : Z) (i o i' o' : string) (e : env) (w : world) :
  writes_succeed e c →
  let once := upload_test_case c pk n (JStr i') (JStr o') e w in
  let twice :=
    upload_test_case c pk n (JStr i') (JStr o') e
      (upload_test_case c pk n (JStr i) (JStr o) e w).2 in
  twice.1 = Ok tt
  ∧ storage twice.2 = storage once.2
  ∧ storage twice.2 !! (c, Naming.input_key pk n) = Some i'
  ∧ storage twice.2 !! (c, Naming.output_key pk n) = Some o'.
Proof.
  intros Hw. cbn zeta. rewrite !upload_test_case_ok by exact Hw.
  cbn [fst snd storage]. pose proof (case_keys_differ c pk n) as Hne.
  split; [reflexivity|]. split; [|split].
  - rewrite (insert_insert_ne _ (c, Naming.input_key pk n)
               (c, Naming.output_key pk n)) by exact Hne.
    now rewrite !insert_insert_eq.
  - rewrite lookup_insert_ne by (intros E; now apply Hne).
    now rewrite lookup_insert_eq.
  - now rewrite lookup_insert_eq.
Qed.

Lemma second_upload_replaces_first_witness :
  let twice :=
    upload_test_case "bucket" "7" 1 (JStr "new") (JStr "new out") env_three
      (upload_test_case "bucket" "7" 1 (JStr "old") (JStr "old out")
         env_three empty_world).2 in
  storage twice.2 !! ("bucket", "test_cases/7/01") = Some "new"
  ∧ storage twice.2 !! ("bucket", "test_cases/7/01.a") = Some "new out".
Proof.
  exact (proj2 (proj2
    (second_upload_replaces_first "bucket" "7" 1 "old" "old out" "new"
       "new out" env_three empty_world (fun key => eq_refl)))).
Defined.

(** ** What the loop has written *)

Lemma kept_index_bound start tcs i t :
  In (i, t) (kept start tcs) →
  start ≤ i ∧ i < start + Z.of_nat (length tcs).
Proof.
  unfold kept. intros H. apply List.filter_In in H as [H _].
  revert start H. induction tcs as [|x tcs IH]; intros start H; [destruct H|].
  cbn [enumerate length] in *. destruct H as [[= <- <-] | H]; [lia|].
  apply IH in H. lia.
Qed.

Lemma kept_indices_NoDup start tcs : List.NoDup (map fst (kept start tcs)).
Proof.
  revert start. induction tcs as [|t tcs IH]; intros start;
    [constructor|].
  destruct (complete t) eqn:Hc.
  - rewrite kept_cons_complete by exact Hc. cbn [map fst]. constructor.
    + intros Hin. apply List.in_map_iff in Hin as [[i x] [E Hin]].
      cbn in E. subst i. apply kept_index_bound in Hin. lia.
    + apply IH.
  - rewrite kept_cons_incomplete by exact Hc. apply IH.
Qed.

Lemma lookup_put_case_other (c pk : string) st it (k : object_id) :
  k ≠ (c, Naming.input_key pk it.1) → k ≠ (c, Naming.output_key pk it.1) →
  put_case c pk st it !! k = st !! k.
Proof.
  intros Hi Ho. unfold put_case.
  rewrite lookup_insert_ne by (intros E; now apply Ho).
  now rewrite lookup_insert_ne by (intros E; now apply Hi).
Qed.

Lemma lookup_put_cases_other c pk items st (k : object_id) :
  (∀ it, In it items →
         k ≠ (c, Naming.input_key pk it.1)
         ∧ k ≠ (c, Naming.output_key pk it.1)) →
  foldl (put_case c pk) st items !! k = st !! k.
Proof.
  revert st. induction items as [|it items IH]; intros st H; [reflexivity|].
  cbn [foldl]. rewrite IH by (intros it' Hin; apply H; now right).
  apply lookup_put_case_other; apply H; now left.
Qed.

Lemma case_key_other_index (c pk : string) (i j : Z) :
  i ≠ j →
  (c, Naming.input_key pk i) ≠ (c, Naming.input_key pk j)
  ∧ (c, Naming.input_key pk i) ≠ (c, Naming.output_key pk j)
  ∧ (c, Naming.output_key pk i) ≠ (c, Naming.input_key pk j)
  ∧ (c, Naming.output_key pk i) ≠ (c, Naming.output_key pk j).
Proof.
  intros Hij. repeat split; intros E; apply (f_equal snd) in E;
    cbn [snd] in E.
  - now apply input_key_inj in E.
  - now apply input_key_not_output_key in E.
  - symmetry in E. now apply input_key_not_output_key in E.
  - now apply output_key_inj in E.
Qed.

Lemma lookup_put_cases_hit c pk items st i t :
  List.NoDup (map fst items) → In (i, t) items →
  foldl (put_case c pk) st items !! (c, Naming.input_key pk i)
    = Some (text_of (input_of t))
  ∧ foldl (put_case c pk) st items !! (c, Naming.output_key pk i)
    = Some (text_of (output_of t)).
Proof.
  revert st. induction items as [|it items IH]; intros st Hnd Hin;
    [destruct Hin|].
  cbn [map] in Hnd. apply List.NoDup_cons_iff in Hnd as [Hnotin Hnd].
  cbn [foldl]. destruct Hin as [-> | Hin]; [|now apply IH].
  assert (Hother : ∀ it', In it' items → it'.1 ≠ i).
  { intros it' Hin' E. apply Hnotin. cbn [fst]. rewrite <- E.
    now apply List.in_map. }
  split.
  - rewrite lookup_put_cases_other.
    + unfold put_case. cbn [fst snd].
      rewrite lookup_insert_ne by (intros E; now apply (case_keys_differ c pk i)).
      now rewrite lookup_insert_eq.
    + intros it' Hin'. specialize (Hother it' Hin').
      destruct (case_key_other_index c pk i it'.1) as (H1 & H2 & _);
        [congruence | now split].
  - rewrite lookup_put_cases_other.
    + unfold put_case. cbn [fst snd]. now rewrite lookup_insert_eq.
    + intros it' Hin'. specialize (Hother it' Hin').
      destruct (case_key_other_index c pk i it'.1) as (_ & _ & H3 & H4);
        [congruence | now split].
Qed.

Lemma startswith_longer (p a b : string) :
  startswith p a = true → startswith p (a +:+ b) = true.
Proof.
  unfold startswith. revert a. induction p as [|x p IH]; intros a H.
  - now destruct (a +:+ b).
  - destruct a as [|y a]; [discriminate|]. cbn in *.
    destruct (ascii_dec x y); [now apply IH | discriminate].
Qed.

Lemma case_keys_under_prefix c pk n :
  under_prefix c (problem_prefix pk) (c, Naming.input_key pk n) = true
  ∧ under_prefix c (problem_prefix pk) (c, Naming.output_key pk n) = true.
Proof.
  assert (Hi : startswith (problem_prefix pk) (Naming.input_key pk n) = true).
  { unfold problem_prefix, Naming.input_key.
    rewrite <- !(append_assoc "test_cases/"), <- !append_assoc.
    apply startswith_append. }
  unfold under_prefix. cbn [fst snd]. rewrite String.eqb_refl. cbn [andb].
  split; [exact Hi|]. rewrite output_key_append.
  now apply startswith_longer.
Qed.

Lemma in_case_keys pk items key :
  In key (case_keys pk items) ↔
  ∃ it, In it items
        ∧ (key = Naming.input_key pk it.1 ∨ key = Naming.output_key pk it.1).
Proof.
  unfold case_keys. rewrite List.in_flat_map. split.
  - intros (it & Hin & Hk). exists it. split; [exact Hin|].
    cbn in Hk. destruct Hk as [<- | [<- | []]]; auto.
  - intros (it & Hin & Hk). exists it. split; [exact Hin|].
    cbn. destruct Hk as [-> | ->]; auto.
Qed.

Lemma lookup_outside_case_keys c pk items st key :
  ¬ In key (case_keys pk items) →
  foldl (put_case c pk) st items !! (c, key) = st !! (c, key).
Proof.
  intros Hnot. apply lookup_put_cases_other. intros it Hin.
  split; intros E; apply (f_equal snd) in E; cbn [snd] in E;
    apply Hnot, in_case_keys; exists it; auto.
Qed.

Lemma purged_lookup_outside c pk w (k : object_id) :
  under_prefix c (problem_prefix pk) k = false →
  storage (after_purge c pk w) !! k = storage w !! k.
Proof.
  intros H. cbn [after_purge storage].
  destruct (storage w !! k) as [v|] eqn:E.
  - apply map_lookup_filter_Some_2; [exact E | exact H].
  - apply map_lookup_filter_None_2. now left.
Qed.

Lemma checker_write_lookup c pk e st st' (k : object_id) :
  checker_write c pk e st st' →
  k ≠ (c, checker_source_path pk) → k ≠ (c, checker_binary_path e pk) →
  st' !! k = st !! k.
Proof.
  intros [-> | [[data ->] | [data ->]]] Hs Hb; [reflexivity| |];
    now rewrite lookup_insert_ne by (intros E; congruence).
Qed.

(** X4. After a migration whose purge and writes succeed, the objects under
    the problem's prefix are exactly those of the run: every complete test
    case of the resolved list is there with its input and output, any other
    object under the prefix is a checker object, and an object outside the
    prefix (another problem, another container) is as it was before. *)
Theorem migration_replaces_problem_objects
    (pid c : string) (db : option Z) (testset : string)
    (e : env) (w w1 : world) (tcs : list pyobj) :
  resolve_test_cases pid testset e w = (Ok tcs, w1) →
  Forall (fun t => text_case t = true) tcs →
  storage_configured e = true → purge_fails e = false →
  writes_succeed e c →
  let pk := problem_id_for_naming pid db in
  let st' := storage (migrate_to_cloud_storage pid c db testset e w).2 in
  (∀ i t, In (i, t) (kept 1 tcs) →
     st' !! (c, Naming.input_key pk i) = Some (text_of (input_of t))
     ∧ st' !! (c, Naming.output_key pk i) = Some (text_of (output_of t)))
  ∧ (∀ key, startswith (problem_prefix pk) key = true →
       is_Some (st' !! (c, key)) →
       In key (case_keys pk (kept 1 tcs))
       ∨ key = checker_source_path pk ∨ key = checker_binary_path e pk)
  ∧ (∀ k, under_prefix c (problem_prefix pk) k = false →
       st' !! k = storage w !! k).
Proof.
  intros Hres Htext Hcfg Hpurge Hput. cbn zeta.
  rewrite (migrate_run _ _ _ _ _ _ _ _ Hres Htext Hcfg Hpurge Hput).
  set (pk := problem_id_for_naming pid db).
  set (w2 := after_uploads c pk 1 tcs (after_purge c pk w1)).
  pose proof (upload_custom_checker_outcome pid c db e w2) as Hck.
  fold pk in Hck.
  set (st' := storage (upload_custom_checker_to_storage pid c db e w2).2) in *.
  assert (Hw1 : storage w1 = storage w).
  { pose proof (keeps_resolve pid testset e w) as H.
    now rewrite Hres in H. }
  split; [|split].
  - intros i t Hin.
    destruct (lookup_put_cases_hit c pk (kept 1 tcs)
                (storage (after_purge c pk w1)) i t
                (kept_indices_NoDup 1 tcs) Hin) as [Hi Ho].
    destruct (test_keys_not_checker_source pk i) as [Hs1 Hs2].
    destruct (test_keys_not_checker_binary e pk i) as [Hb1 Hb2].
    split; rewrite (checker_write_lookup _ _ _ _ _ _ Hck);
      try (intros E; apply (f_equal snd) in E; cbn [snd] in E; congruence).
    + exact Hi.
    + exact Ho.
  - intros key Hpre Hsome.
    destruct (string_dec key (checker_source_path pk)) as [->|Hs]; [auto|].
    destruct (string_dec key (checker_binary_path e pk)) as [->|Hb]; [auto|].
    left. rewrite (checker_write_lookup _ _ _ _ _ _ Hck) in Hsome
      by (intros E; apply (f_equal snd) in E; cbn [snd] in E; congruence).
    destruct (in_dec string_dec key (case_keys pk (kept 1 tcs)))
      as [Hin | Hnot]; [exact Hin | exfalso].
    unfold w2 in Hsome. cbn [after_uploads storage] in Hsome.
    rewrite lookup_outside_case_keys in Hsome by exact Hnot.
    change (is_Some (storage (after_purge c pk w1) !! (c, key))) in Hsome.
    rewrite purged_lookup in Hsome.
    + now destruct Hsome.
    + unfold under_prefix. cbn [fst snd]. rewrite String.eqb_refl. exact Hpre.
  - intros k Hout.
    destruct (checker_paths_under_prefix c e pk) as [Hs Hb].
    rewrite (checker_write_lookup _ _ _ _ _ _ Hck)
      by (intros ->; unfold problem_prefix in Hout; congruence).
    unfold w2. cbn [after_uploads storage].
    rewrite lookup_put_cases_other.
    + change (storage (after_purge c pk w1) !! k = storage w !! k).
      rewrite purged_lookup_outside by exact Hout. now rewrite Hw1.
    + intros it _. destruct (case_keys_under_prefix c pk it.1) as [Hi Ho].
      split; intros ->; congruence.
Qed.

Lemma migration_replaces_problem_objects_witness :
  let st' :=
    storage (migrate_to_cloud_storage "123" "bucket" (Some 7) "tests"
               env_three empty_world).2 in
  st' !! ("bucket", "test_cases/7/03") = Some ("6" +:+ nl)
  ∧ st' !! ("bucket", "test_cases/7/03.a") = Some ("12" +:+ nl).
Proof.
  refine (proj1
    (migration_replaces_problem_objects
       "123" "bucket" (Some 7) "tests" env_three empty_world
       (resolve_test_cases "123" "tests" env_three empty_world).2
       (value_or [] (resolve_test_cases "123" "tests" env_three empty_world).1)
       _ _ _ _ _) 3 (fetched_case 3 ("6" +:+ nl) ("12" +:+ nl)) _).
  - apply ok_eta. vm_compute. reflexivity.
  - apply Forall_of_forallb. vm_compute. reflexivity.
  - reflexivity.
  - reflexivity.
  - intros key. reflexivity.
  - vm_compute. right. left. reflexivity.
Defined.

End StorageFacts.

Module PartialUploadFacts.
Import PyStr Py Runtime StorageManager PolygonAPI Describe Reading Cases Scenario.
Import RuntimeFacts PyStrFacts NamingFacts UploadFacts MigrationFacts.
Import FrameFacts CheckerStorageFacts KeyFacts StorageFacts.
Local Open Scope py_scope.

Lemma upload_test_case_at c pk n (i o : string) e w :
  put_fails e c (Naming.input_key pk n) = false →
  put_fails e c (Naming.output_key pk n) = false →
  upload_test_case c pk n (JStr i) (JStr o) e w =
    (Ok tt,
     {| redis := redis w;
        storage :=
          <[(c, Naming.output_key pk n) := o]>
            (<[(c, Naming.input_key pk n) := i]> (storage w));
        trace := trace w ++ [EvUploadTestCase c pk n];
        log := log w |}).
Proof.
  intros Hi Ho.
  unfold upload_test_case, bind, emit, try_except, encode, ret, put_object.
  cbn [redis storage trace log set_storage].
  now rewrite Hi, Ho.
Qed.

Lemma upload_step_at c pk idx t e w :
  put_fails e c (Naming.input_key pk idx) = false →
  put_fails e c (Naming.output_key pk idx) = false →
  text_case t = true →
  upload_step c pk idx t e w = (Ok tt, after_uploads c pk idx [t] w).
Proof.
  intros Hpi Hpo Ht. destruct t as [z|d]; [discriminate|].
  unfold text_case in Ht. apply andb_true_iff in Ht as [Hi Ho].
  unfold after_uploads, upload_step, as_dict, bind, ret.
  destruct (complete (PDict d)) eqn:Hc.
  - rewrite kept_cons_complete, skipped_cons_complete by exact Hc.
    unfold kept, skipped, put_case, complete in *.
    cbn [enumerate List.filter foldl map fst snd input_of output_of] in *.
    rewrite Hc.
    destruct (dict_get d "input" (JStr "")) as [| | |i]; try discriminate.
    destruct (dict_get d "output" (JStr "")) as [| | |o]; try discriminate.
    rewrite upload_test_case_at by assumption.
    cbn [text_of]. now rewrite app_nil_r.
  - rewrite kept_cons_incomplete, skipped_cons_incomplete by exact Hc.
    unfold kept, skipped, skip_record, logger, complete in *.
    cbn [enumerate List.filter foldl map fst snd input_of output_of] in *.
    rewrite Hc. now rewrite app_nil_r.
Qed.

Lemma upload_loop_run_at c pk e (tcs : list pyobj) :
  Forall (fun t => text_case t = true) tcs →
  ∀ start w,
    (∀ j, start ≤ j → j < start + Z.of_nat (length tcs) →
          put_fails e c (Naming.input_key pk j) = false
          ∧ put_fails e c (Naming.output_key pk j) = false) →
    for_enumerate start tcs (upload_step c pk) e w =
      (Ok tt, after_uploads c pk start tcs w).
Proof.
  intros Hall. induction Hall as [|t tcs Ht _ IH]; intros start w Hput.
  - cbn. unfold ret. now rewrite after_uploads_nil.
  - cbn [for_enumerate length] in *.
    destruct (Hput start) as [Hi Ho]; [lia | lia |].
    rewrite (bind_ok _ _ _ _ _ _ (upload_step_at _ _ _ _ _ _ Hi Ho Ht)).
    rewrite IH by (intros j H1 H2; apply Hput; lia).
    now rewrite <- after_uploads_cons.
Qed.

Lemma for_enumerate_app {A} (xs ys : list A) (body : Z → A → M unit) :
  ∀ start e w,
    for_enumerate start (xs ++ ys) body e w =
    (for_enumerate start xs body >>
     for_enumerate (start + Z.of_nat (length xs)) ys body) e w.
Proof.
  induction xs as [|x xs IH]; intros start e w.
  - cbn [app for_enumerate length]. unfold bind, ret.
    now replace (start + Z.of_nat 0) with start by lia.
  - cbn [app for_enumerate length].
    replace (start + Z.of_nat (S (length xs)))
      with (start + 1 + Z.of_nat (length xs)) by lia.
    specialize (IH (start + 1) e). unfold bind in *.
    destruct (body start x e w) as [[[]|ex] w1]; [|reflexivity].
    apply IH.
Qed.

(** The upload of a complete test case whose output object is rejected. *)
Lemma upload_step_output_rejected c pk idx t e w :
  text_case t = true → complete t = true →
  put_fails e c (Naming.input_key pk idx) = false →
  put_fails e c (Naming.output_key pk idx) = true →
  upload_step c pk idx t e w =
    (Raise (StorageError (Naming.output_key pk idx)),
     {| redis := redis w;
        storage :=
          <[(c, Naming.input_key pk idx) := text_of (input_of t)]> (storage w);
        trace := trace w ++ [EvUploadTestCase c pk idx];
        log := log w ++
               [(Error, "failed to upload test case " +:+ str_of_int idx)] |}).
Proof.
  intros Ht Hc Hi Ho. destruct t as [z|d]; [discriminate|].
  unfold text_case in Ht. apply andb_true_iff in Ht as [Hti Hto].
  unfold complete in Hc. cbn [input_of output_of] in *.
  unfold upload_step, as_dict, bind at 1, ret at 1.
  rewrite Hc.
  destruct (dict_get d "input" (JStr "")) as [| | |i]; try discriminate.
  destruct (dict_get d "output" (JStr "")) as [| | |o]; try discriminate.
  cbv [upload_test_case bind emit try_except encode put_object ret raise
       logger redis storage trace log set_storage].
  rewrite Hi, Ho. reflexivity.
Qed.

(** X5. The upload loop is not all-or-nothing. When the storage back end
    rejects the output object of one complete test case, and no other
    write, the loop raises the storage error at that test case: the
    objects of the complete test cases before it are written, its own
    input object is written without its output, and no object of a later
    test number is touched. *)
Theorem rejected_write_stops_the_uploads
    (c pk : string) (e : env) (pre post : list pyobj) (t : pyobj) (w : world) :
  Forall (fun t => text_case t = true) pre →
  text_case t = true → complete t = true →
  let k := 1 + Z.of_nat (length pre) in
  (∀ key, put_fails e c key = String.eqb key (Naming.output_key pk k)) →
  let run := for_enumerate 1 (pre ++ t :: post) (upload_step c pk) e w in
  run.1 = Raise (StorageError (Naming.output_key pk k))
  ∧ storage run.2 =
      <[(c, Naming.input_key pk k) := text_of (input_of t)]>
        (foldl (put_case c pk) (storage w) (kept 1 pre))
  ∧ storage run.2 !! (c, Naming.output_key pk k)
      = storage w !! (c, Naming.output_key pk k)
  ∧ (∀ j, k < j →
       storage run.2 !! (c, Naming.input_key pk j)
         = storage w !! (c, Naming.input_key pk j)
       ∧ storage run.2 !! (c, Naming.output_key pk j)
         = storage w !! (c, Naming.output_key pk j)).
Proof.
  intros Hpre Ht Hc k Hput. cbn zeta.
  assert (Hok : ∀ key, key ≠ Naming.output_key pk k →
                       put_fails e c key = false).
  { intros key Hne. rewrite Hput. now apply String.eqb_neq. }
  assert (Hbad : put_fails e c (Naming.output_key pk k) = true).
  { rewrite Hput. apply String.eqb_refl. }
  assert (Hloop : for_enumerate 1 pre (upload_step c pk) e w
                  = (Ok tt, after_uploads c pk 1 pre w)).
  { apply upload_loop_run_at; [exact Hpre|]. intros j H1 H2. split; apply Hok.
    - apply input_key_not_output_key.
    - intros E. apply output_key_inj in E. lia. }
  rewrite for_enumerate_app. rewrite (bind_ok _ _ _ _ _ _ Hloop).
  fold k. cbn [for_enumerate]. unfold bind.
  rewrite (upload_step_output_rejected c pk k t e
             (after_uploads c pk 1 pre w) Ht Hc
             (Hok _ (input_key_not_output_key pk k k)) Hbad).
  cbn [fst snd storage after_uploads].
  assert (Hbefore : ∀ key,
            (∀ j, 1 ≤ j → j < k →
               key ≠ Naming.input_key pk j ∧ key ≠ Naming.output_key pk j) →
            foldl (put_case c pk) (storage w) (kept 1 pre) !! (c, key)
            = storage w !! (c, key)).
  { intros key Hkey. apply lookup_put_cases_other. intros [j x] Hin.
    apply kept_index_bound in Hin. cbn [fst].
    destruct (Hkey j) as [H1 H2]; [lia | unfold k; lia |].
    split; intros E; apply (f_equal snd) in E; cbn [snd] in E; congruence. }
  split; [reflexivity|]. split; [reflexivity|]. split.
  - rewrite lookup_insert_ne by apply case_keys_differ.
    apply Hbefore. intros j H1 H2. split.
    + intros E. symmetry in E. now apply input_key_not_output_key in E.
    + intros E. apply output_key_inj in E. lia.
  - intros j Hj. split.
    + rewrite lookup_insert_ne
        by (intros E; apply (f_equal snd) in E; cbn [snd] in E;
            apply input_key_inj in E; lia).
      apply Hbefore. intros j' H1 H2. split.
      * intros E. apply input_key_inj in E. lia.
      * apply input_key_not_output_key.
    + rewrite lookup_insert_ne
        by (intros E; apply (f_equal snd) in E; cbn [snd] in E;
            now apply input_key_not_output_key in E).
      apply Hbefore. intros j' H1 H2. split.
      * intros E. symmetry in E. now apply input_key_not_output_key in E.
      * intros E. apply output_key_inj in E. lia.
Qed.

Lemma rejected_write_stops_the_uploads_witness :
  let e := one_write_fails "test_cases/7/02.a" env_three in
  let run :=
    for_enumerate 1
      ([fetched_case 1 "a" "b"]
         ++ fetched_case 2 "c" "d" :: [fetched_case 3 "e" "f"])
      (upload_step "bucket" "7") e empty_world in
  run.1 = Raise (StorageError "test_cases/7/02.a")
  ∧ storage run.2 =
      <[("bucket", "test_cases/7/02") := "c"]>
        (<[("bucket", "test_cases/7/01.a") := "b"]>
           (<[("bucket", "test_cases/7/01") := "a"]> ∅)).
Proof.
  pose proof (rejected_write_stops_the_uploads "bucket" "7"
      (one_write_fails "test_cases/7/02.a" env_three)
      [fetched_case 1 "a" "b"] [fetched_case 3 "e" "f"]
      (fetched_case 2 "c" "d") empty_world
      ltac:(apply Forall_of_forallb; vm_compute; reflexivity)
      ltac:(vm_compute; reflexivity) ltac:(vm_compute; reflexivity)
      (fun key => eq_refl)) as H.
  cbn zeta in H. destruct H as (H1 & H2 & _). split; [exact H1 | exact H2].
Defined.

(** ** The purge *)

Lemma startswith_common (p a b : string) :
  startswith (p +:+ a) (p +:+ b) = startswith a b.
Proof.
  unfold startswith. induction p as [|x p IH]; cbn; [reflexivity|].
  destruct (ascii_dec x x); [exact IH | contradiction].
Qed.

Lemma folder_name_inj (a b rest : string) :
  contains "/" a = false → contains "/" b = false →
  startswith (a +:+ "/") (b +:+ "/" +:+ rest) = true → a = b.
Proof.
  unfold startswith. revert b. induction a as [|x a IH]; intros b Ha Hb H.
  - destruct b as [|y b]; [reflexivity|].
    cbn [String.append String.prefix] in H. cbn [contains] in Hb.
    destruct (ascii_dec "/" y) as [<-|]; [|discriminate H].
    cbn in Hb. discriminate Hb.
  - destruct b as [|y b]; cbn [String.append String.prefix] in H;
      cbn [contains] in Ha, Hb.
    + destruct (ascii_dec x "/") as [->|]; [|discriminate H].
      cbn in Ha. discriminate Ha.
    + destruct (ascii_dec x y) as [->|]; [|discriminate H].
      apply orb_false_iff in Ha as [_ Ha]. apply orb_false_iff in Hb as [_ Hb].
      f_equal. now apply IH.
Qed.

Lemma other_problem_outside_prefix (c c' a b rest : string) :
  contains "/" a = false → contains "/" b = false → a ≠ b →
  under_prefix c (problem_prefix a) (c', problem_prefix b +:+ rest) = false.
Proof.
  intros Ha Hb Hne. unfold under_prefix, problem_prefix. cbn [fst snd].
  apply andb_false_iff. right.
  rewrite !append_assoc, startswith_common.
  destruct (startswith (a +:+ "/") (b +:+ "/" +:+ rest)) eqn:E;
    [|reflexivity].
  now apply folder_name_inj in E.
Qed.

Lemma empty_blob_storage c pk e w :
  storage (empty_blob c pk e w).2 = storage w
  ∨ storage (empty_blob c pk e w).2 = storage (after_purge c pk w).
Proof.
  cbv [empty_blob bind emit try_except logger raise redis storage trace log
       set_storage after_purge].
  destruct (purge_fails e); cbn; auto.
Qed.

(** X6. Whether it succeeds or fails, the purge of one problem leaves the
    objects of every other problem of the same container, and every object
    of another container, as they were; the slash that ends the prefix
    keeps the problem 1 apart from the problem 10. *)
Theorem purge_spares_other_problems
    (c a : string) (e : env) (w : world) :
  let st' := storage (empty_blob c a e w).2 in
  (∀ b rest,
     contains "/" a = false → contains "/" b = false → a ≠ b →
     st' !! (c, problem_prefix b +:+ rest)
       = storage w !! (c, problem_prefix b +:+ rest))
  ∧ (∀ c' key, c' ≠ c → st' !! (c', key) = storage w !! (c', key))
  ∧ (∀ key, purge_fails e = false →
       startswith (problem_prefix a) key = true → st' !! (c, key) = None).
Proof.
  cbn zeta. split; [|split].
  - intros b rest Ha Hb Hne.
    destruct (empty_blob_storage c a e w) as [-> | ->]; [reflexivity|].
    apply purged_lookup_outside.
    now apply other_problem_outside_prefix.
  - intros c' key Hne.
    destruct (empty_blob_storage c a e w) as [-> | ->]; [reflexivity|].
    apply purged_lookup_outside. unfold under_prefix. cbn [fst snd].
    apply andb_false_iff. left. now apply String.eqb_neq.
  - intros key Hp Hpre.
    rewrite empty_blob_ok by exact Hp. cbn [snd].
    apply purged_lookup. unfold under_prefix. cbn [fst snd].
    rewrite String.eqb_refl. exact Hpre.
Qed.

Lemma purge_spares_other_problems_witness :
  let w :=
    {| redis := ∅;
       storage := <[("bucket", "test_cases/10/01") := "kept"]> ∅;
       trace := []; log := [] |} in
  storage (empty_blob "bucket" "1" env_three w).2
    !! ("bucket", "test_cases/10/01")
  = storage w !! ("bucket", "test_cases/10/01").
Proof.
  apply (proj1 (purge_spares_other_problems "bucket" "1" env_three
                  {| redis := ∅;
                     storage := <[("bucket", "test_cases/10/01") := "kept"]> ∅;
                     trace := []; log := [] |})
           "10" "01"); [reflexivity | reflexivity | discriminate].
Defined.

End PartialUploadFacts.

Module CacheUseFacts.
Import PyStr Py Runtime StorageManager PolygonAPI Describe Reading Cases.
Import CacheReading Scenario.
Import RuntimeFacts PyStrFacts CacheFacts InvalidationFacts FrameFacts.
Local Open Scope py_scope.

(** X7. The four cache operations handle every error themselves: none of
    them raises, whatever the server holds or does and whatever the list
    to store contains, and none of them touches object storage. When the
    server cannot be reached the fetch returns [None]. *)
Theorem cache_operations_never_raise
    (pid : string) (db : Z) (tcs : list pyobj) (ttl : Z) (e : env) (w : world) :
  (store_test_cases_in_redis pid tcs ttl e w).1 = Ok tt
  ∧ (clear_test_cases_from_redis pid e w).1 = Ok tt
  ∧ (delete_problem_test_case_cache db e w).1 = Ok tt
  ∧ is_ok (get_test_cases_from_redis pid e w).1 = true
  ∧ (redis_up e = false → (get_test_cases_from_redis pid e w).1 = Ok None)
  ∧ storage (store_test_cases_in_redis pid tcs ttl e w).2 = storage w
  ∧ storage (get_test_cases_from_redis pid e w).2 = storage w.
Proof.
  repeat match goal with |- _ ∧ _ => split end.
  - unfold store_test_cases_in_redis, try_except.
    match goal with |- (match ?m with _ => _ end).1 = _ =>
      now destruct m as [[[]|x] w'] end.
  - unfold clear_test_cases_from_redis, try_except.
    match goal with |- (match ?m with _ => _ end).1 = _ =>
      now destruct m as [[[]|x] w'] end.
  - unfold delete_problem_test_case_cache, try_except.
    match goal with |- (match ?m with _ => _ end).1 = _ =>
      now destruct m as [[[]|x] w'] end.
  - unfold get_test_cases_from_redis, try_except.
    match goal with |- is_ok (match ?m with _ => _ end).1 = _ =>
      now destruct m as [[r|x] w'] end.
  - intros Hdown. unfold get_test_cases_from_redis, try_except.
    rewrite bind_get, Hdown. reflexivity.
  - apply keeps_store.
  - apply keeps_fetch_cache.
Qed.

(** ** Clearing *)










(** ** Reading *)

Lemma cached_records_cons now r pid i indices :
  cached_records now r pid (i :: indices) =
    match decoded (lookup_live now r (test_key pid (Z.of_nat i))) with
    | Some t => t :: cached_records now r pid indices
    | None => cached_records now r pid indices
    end.
Proof. reflexivity. Qed.

Lemma collect_readable pid e (indices : list nat) :
  redis_up e = true →
  ∀ acc w,
    (∀ i, In i indices →
          readable (lookup_live (now e) (redis w) (test_key pid (Z.of_nat i)))
          = true) →
    ∃ w',
      collect_test_cases pid indices acc e w =
        (Ok (acc ++ cached_records (now e) (redis w) pid indices), w')
      ∧ redis w' = redis w ∧ trace w' = trace w.
Proof.
  intros Hup. induction indices as [|i indices IH]; intros acc w Hr.
  - exists w. cbn. unfold ret. now rewrite app_nil_r.
  - cbn [collect_test_cases]. rewrite cached_records_cons, bind_get, Hup.
    pose proof (Hr i ltac:(now left)) as Hi.
    destruct (lookup_live (now e) (redis w) (test_key pid (Z.of_nat i)))
      as [[z|d|raw]|] eqn:El; cbn [bytes_truthy json_loads decoded readable] in *.
    + destruct (IH (acc ++ [PInt z]) w) as (w' & Hc & Hrw);
        [intros j Hj; apply Hr; now right|].
      exists w'. cbv [bind ret]. rewrite Hc.
      now rewrite <- app_assoc.
    + destruct (IH (acc ++ [PDict d]) w) as (w' & Hc & Hrw);
        [intros j Hj; apply Hr; now right|].
      exists w'. cbv [bind ret]. rewrite Hc.
      now rewrite <- app_assoc.
    + apply negb_true_iff in Hi. rewrite Hi.
      cbv [bind logger].
      match goal with
      | |- ∃ w', collect_test_cases _ _ _ _ ?w1 = _ ∧ _ =>
          destruct (IH acc w1) as (w' & Hc & Hrw1 & Htr1);
            [intros j Hj; apply Hr; now right|]
      end.
      exists w'. rewrite Hc. cbn [redis trace] in *. auto.
    + cbv [bind logger].
      match goal with
      | |- ∃ w', collect_test_cases _ _ _ _ ?w1 = _ ∧ _ =>
          destruct (IH acc w1) as (w' & Hc & Hrw1 & Htr1);
            [intros j Hj; apply Hr; now right|]
      end.
      exists w'. rewrite Hc. cbn [redis trace] in *. auto.
Qed.

Lemma collect_unreadable pid e (indices : list nat) i :
  redis_up e = true → In i indices →
  ∀ acc w,
    readable (lookup_live (now e) (redis w) (test_key pid (Z.of_nat i)))
    = false →
    ∃ x w', collect_test_cases pid indices acc e w = (Raise x, w').
Proof.
  intros Hup Hin. induction indices as [|j indices IH]; [destruct Hin|].
  intros acc w Hbad. cbn [collect_test_cases]. rewrite bind_get, Hup.
  destruct Hin as [-> | Hin].
  - destruct (lookup_live (now e) (redis w) (test_key pid (Z.of_nat i)))
      as [[z|d|raw]|]; cbn [readable] in Hbad; try discriminate.
    apply negb_false_iff in Hbad. cbn [bytes_truthy json_loads].
    rewrite Hbad. cbv [bind raise]. do 2 eexists. reflexivity.
  - destruct (lookup_live (now e) (redis w) (test_key pid (Z.of_nat j)))
      as [[z|d|raw]|]; cbn [bytes_truthy json_loads];
      try destruct (nonempty raw); cbv [bind ret raise logger];
      try (do 2 eexists; reflexivity); apply (IH Hin); exact Hbad.
Qed.

Lemma cached_records_length now r pid indices :
  (length (cached_records now r pid indices) ≤ length indices)%nat.
Proof.
  induction indices as [|i indices IH]; [cbn; lia|].
  rewrite cached_records_cons. destruct (decoded _); cbn [length]; lia.
Qed.

(** X9. A fetch from the cache goes by the stored count [n] and reads the
    test records 1 to [n]. It returns the records that are there, in index
    order, and leaves out those that are missing or have expired, so the
    list can be shorter than the count and a record after a gap moves up.
    One record that does not parse makes the whole fetch return [None]. *)
Theorem cache_fetch_skips_missing_records
    (pid : string) (n : Z) (e : env) (w : world) :
  redis_up e = true →
  lookup_live (now e) (redis w) (count_key pid) = Some (RInt n) →
  let value i := lookup_live (now e) (redis w) (test_key pid (Z.of_nat i)) in
  let found := cached_records (now e) (redis w) pid (seq 1 (Z.to_nat n)) in
  ((∀ i, (1 ≤ i ≤ Z.to_nat n)%nat → readable (value i) = true) →
   (get_test_cases_from_redis pid e w).1 = Ok (Some found)
   ∧ (length found ≤ Z.to_nat n)%nat)
  ∧ (∀ i, (1 ≤ i ≤ Z.to_nat n)%nat → readable (value i) = false →
     (get_test_cases_from_redis pid e w).1 = Ok None).
Proof.
  intros Hup Hcount. cbn zeta. split.
  - intros Hread. split.
    + unfold get_test_cases_from_redis, try_except.
      rewrite bind_get, Hup, Hcount. cbn [int_of_bytes].
      destruct (collect_readable pid e (seq 1 (Z.to_nat n)) Hup [] w)
        as (w' & Hc & _).
      { intros i Hi. apply Hread. apply in_seq in Hi. lia. }
      cbv [bind ret]. rewrite Hc. reflexivity.
    + etransitivity; [apply cached_records_length|]. now rewrite length_seq.
  - intros i Hi Hbad.
    unfold get_test_cases_from_redis, try_except.
    rewrite bind_get, Hup, Hcount. cbn [int_of_bytes].
    destruct (collect_unreadable pid e (seq 1 (Z.to_nat n)) i Hup) with
      (acc := @nil pyobj) (w := w) as (x & w' & Hc); [|exact Hbad|].
    { apply in_seq. lia. }
    cbv [bind ret logger]. rewrite Hc. reflexivity.
Qed.

Lemma cache_fetch_skips_missing_records_witness :
  (get_test_cases_from_redis "123" env_three
     (world_with_cache cache_without_second)).1
  = Ok (Some [PDict (cached_case 1 ("5" +:+ nl) ("10" +:+ nl));
              PDict (cached_case 3 ("6" +:+ nl) ("12" +:+ nl))]).
Proof.
  refine (proj1 (proj1
    (cache_fetch_skips_missing_records "123" 3 env_three
       (world_with_cache cache_without_second) eq_refl _) _)).
  - vm_compute. reflexivity.
  - intros i Hi.
    destruct i as [|[|[|[|i]]]]; try lia; vm_compute; reflexivity.
Defined.

End CacheUseFacts.

Module ClientFacts.
Import PyStr Py Runtime StorageManager PolygonAPI Describe Reading Cases.
Import CacheReading RemoteReading Scenario.
Import RuntimeFacts PyStrFacts CacheFacts InvalidationFacts FrameFacts.
Import CacheUseFacts.
Local Open Scope py_scope.

Lemma cache_operations_never_raise_aux pid (tcs : list pyobj) ttl e w :
  (store_test_cases_in_redis pid tcs ttl e w).1 = Ok tt
  ∧ is_ok (get_test_cases_from_redis pid e w).1 = true.
Proof.
  split.
  - unfold store_test_cases_in_redis, try_except.
    match goal with |- (match ?m with _ => _ end).1 = _ =>
      now destruct m as [[[]|x] w'] end.
  - unfold get_test_cases_from_redis, try_except.
    match goal with |- is_ok (match ?m with _ => _ end).1 = _ =>
      now destruct m as [[r|x] w'] end.
Qed.

(** ** The test cases of a problem *)

Lemma fetch_test_case_run pid testset test idx e w :
  test !! "index" = Some idx →
  ∃ t w',
    fetch_test_case pid testset test e w = (Ok t, w')
    ∧ text_case t = true
    ∧ index_of t = idx
    ∧ complete t = fetched_both (remote e) pid testset idx
    ∧ storage w' = storage w ∧ redis w' = redis w.
Proof.
  intros Hidx.
  cbv [fetch_test_case bind try_except request emit ret raise logger
       redis storage trace log fetched_both or_empty].
  rewrite Hidx.
  destruct (problem_testInput (remote e) pid testset idx) as [input|x];
    [destruct (problem_testAnswer (remote e) pid testset idx) as [output|x]|];
    do 2 eexists; (split; [reflexivity|]);
    unfold text_case, complete, index_of, input_of, output_of, dict_get;
    repeat (rewrite ?lookup_insert_eq;
            rewrite ?(lookup_insert_ne _ _ _ _) by discriminate);
    cbn [is_text truthy nonempty andb]; auto.
Qed.

Lemma fetch_test_cases_run pid testset e (tests : list (gmap string jv)) :
  Forall (fun test => is_Some (test !! "index")) tests →
  ∀ acc w,
    ∃ l w',
      fetch_test_cases pid testset tests acc e w = (Ok (acc ++ l), w')
      ∧ Forall2 (fun test t =>
                   text_case t = true
                   ∧ test !! "index" = Some (index_of t)
                   ∧ complete t
                     = fetched_both (remote e) pid testset (index_of t))
                tests l
      ∧ storage w' = storage w ∧ redis w' = redis w.
Proof.
  intros Hall. induction Hall as [|test tests [idx Hidx] _ IH]; intros acc w.
  - exists [], w. cbn. unfold ret. rewrite app_nil_r. auto.
  - destruct (fetch_test_case_run pid testset test idx e w Hidx)
      as (t & w1 & Ht & Htext & Hi & Hc & Hs & Hr).
    destruct (IH (acc ++ [t]) w1) as (l & w' & Hl & Hf & Hs' & Hr').
    exists (t :: l), w'. cbn [fetch_test_cases].
    rewrite (bind_ok _ _ _ _ _ _ Ht), Hl, <- app_assoc.
    split; [reflexivity|]. split; [|split; congruence].
    constructor; [|exact Hf]. subst idx. auto.
Qed.

Lemma fetch_test_cases_missing_index pid testset e
    (tests : list (gmap string jv)) :
  Exists (fun test => test !! "index" = None) tests →
  ∀ acc w, (fetch_test_cases pid testset tests acc e w).1
           = Raise (KeyError "index").
Proof.
  intros Hex. induction tests as [|test tests IH]; intros acc w.
  - inversion Hex.
  - cbn [fetch_test_cases]. destruct (test !! "index") as [idx|] eqn:Hidx.
    + destruct (fetch_test_case_run pid testset test idx e w Hidx)
        as (t & w1 & Ht & _).
      rewrite (bind_ok _ _ _ _ _ _ Ht). apply IH.
      inversion Hex as [? ? H | ? ? H]; subst; [congruence | exact H].
    + cbv [bind fetch_test_case raise]. now rewrite Hidx.
Qed.

(** X10. [get_all_test_cases] returns one record for every test that
    [problem.tests] lists, in the same order, whatever the requests for the
    texts do. Every record carries the index of its test and has a text on
    both sides; both sides are non-empty exactly when both texts were
    fetched and are non-empty, so a test whose answer cannot be fetched
    loses its input too. A listed test without an index makes the call
    raise [KeyError]. *)
Theorem get_all_test_cases_one_record_per_test
    (pid testset : string) (tests : list (gmap string jv)) (e : env) (w : world) :
  problem_tests (remote e) pid testset = Ok tests →
  (Forall (fun test => is_Some (test !! "index")) tests →
   ∃ l w',
     get_all_test_cases pid testset e w = (Ok l, w')
     ∧ length l = length tests
     ∧ Forall2 (fun test t =>
                  text_case t = true
                  ∧ test !! "index" = Some (index_of t)
                  ∧ complete t
                    = fetched_both (remote e) pid testset (index_of t))
               tests l
     ∧ storage w' = storage w ∧ redis w' = redis w)
  ∧ (Exists (fun test => test !! "index" = None) tests →
     (get_all_test_cases pid testset e w).1 = Raise (KeyError "index")).
Proof.
  intros Htests.
  assert (Hreq : ∃ w1,
            request "problem.tests"
              (fun r => problem_tests r pid testset) e w = (Ok tests, w1)
            ∧ storage w1 = storage w ∧ redis w1 = redis w).
  { cbv [request bind emit]. rewrite Htests. eexists.
    split; [reflexivity | split; reflexivity]. }
  destruct Hreq as (w1 & Hreq & Hs1 & Hr1). split.
  - intros Hall.
    destruct (fetch_test_cases_run pid testset e tests Hall [] w1)
      as (l & w' & Hl & Hf & Hs & Hr).
    exists l, w'. unfold get_all_test_cases.
    rewrite (bind_ok _ _ _ _ _ _ Hreq), Hl.
    split; [reflexivity|]. split; [|split; [exact Hf | split; congruence]].
    symmetry. exact (Forall2_length _ _ _ Hf).
  - intros Hex. unfold get_all_test_cases.
    rewrite (bind_ok _ _ _ _ _ _ Hreq).
    now apply fetch_test_cases_missing_index.
Qed.

Lemma get_all_test_cases_one_record_per_test_witness :
  ∃ l w',
    get_all_test_cases "123" "tests" env_three empty_world = (Ok l, w')
    ∧ length l = 3%nat.
Proof.
  destruct (proj1 (get_all_test_cases_one_record_per_test "123" "tests"
                     [listed 1; listed 2; listed 3] env_three empty_world
                     eq_refl)
              ltac:(repeat (constructor;
                              [eexists; vm_compute; reflexivity|]);
                    constructor))
    as (l & w' & H1 & H2 & _).
  exists l, w'. split; [exact H1 | exact H2].
Defined.

(** ** The cache in front of the API *)

Lemma collect_frame pid e (indices : list nat) :
  ∀ acc w,
    let w' := (collect_test_cases pid indices acc e w).2 in
    trace w' = trace w ∧ redis w' = redis w.
Proof.
  induction indices as [|i indices IH]; intros acc w; [split; reflexivity|].
  cbn zeta. cbn [collect_test_cases]. rewrite bind_get.
  destruct (redis_up e); [|split; reflexivity].
  destruct (lookup_live (now e) (redis w) (test_key pid (Z.of_nat i)))
    as [[z|d|raw]|]; cbn [bytes_truthy json_loads];
    try destruct (nonempty raw); cbv [bind ret raise logger];
    try (split; reflexivity); try apply IH.
  - match goal with
    | |- context [collect_test_cases _ _ _ _ ?w1] =>
        destruct (IH acc w1) as [H1 H2]
    end. cbn zeta in H1, H2. cbn [trace redis] in *. auto.
  - match goal with
    | |- context [collect_test_cases _ _ _ _ ?w1] =>
        destruct (IH acc w1) as [H1 H2]
    end. cbn zeta in H1, H2. cbn [trace redis] in *. auto.
Qed.

Lemma fetch_frame pid e w :
  let w' := (get_test_cases_from_redis pid e w).2 in
  trace w' = trace w ∧ redis w' = redis w.
Proof.
  cbn zeta. unfold get_test_cases_from_redis, try_except.
  rewrite bind_get. destruct (redis_up e);
    [|cbv [bind logger ret]; split; reflexivity].
  destruct (lookup_live (now e) (redis w) (count_key pid))
    as [[z|d|raw]|]; cbv [int_of_bytes bind ret raise logger];
    try (split; reflexivity).
  pose proof (collect_frame pid e (seq 1 (Z.to_nat z)) [] w) as H.
  cbn zeta in H.
  destruct (collect_test_cases pid (seq 1 (Z.to_nat z)) [] e w)
    as [[l|x] w1]; cbn [snd trace redis] in *; exact H.
Qed.

Lemma fetch_test_case_indep pid testset test e w1 w2 :
  (fetch_test_case pid testset test e w1).1
  = (fetch_test_case pid testset test e w2).1.
Proof.
  cbv [fetch_test_case bind try_except request emit ret raise logger
       redis storage trace log or_empty].
  destruct (test !! "index") as [idx|]; [|reflexivity].
  destruct (problem_testInput (remote e) pid testset idx) as [input|x];
    [destruct (problem_testAnswer (remote e) pid testset idx) as [output|x]|];
    reflexivity.
Qed.

Lemma fetch_test_cases_indep pid testset e (tests : list (gmap string jv)) :
  ∀ acc w1 w2,
    (fetch_test_cases pid testset tests acc e w1).1
    = (fetch_test_cases pid testset tests acc e w2).1.
Proof.
  induction tests as [|test tests IH]; intros acc w1 w2; [reflexivity|].
  cbn [fetch_test_cases]. unfold bind.
  pose proof (fetch_test_case_indep pid testset test e w1 w2) as H.
  destruct (fetch_test_case pid testset test e w1) as [[t1|x1] u1],
           (fetch_test_case pid testset test e w2) as [[t2|x2] u2];
    cbn [fst] in H; try discriminate H.
  - injection H as ->. apply IH.
  - cbn [fst]. now injection H as ->.
Qed.

Lemma get_all_indep pid testset e w1 w2 :
  (get_all_test_cases pid testset e w1).1
  = (get_all_test_cases pid testset e w2).1.
Proof.
  cbv [get_all_test_cases request bind emit].
  destruct (problem_tests (remote e) pid testset) as [tests|x]; [|reflexivity].
  apply fetch_test_cases_indep.
Qed.

(** X11. The migration reads its test cases from the cache first. On a
    hit it returns the cached list without a request to the API and
    without writing to the cache, so the list may be older than the
    problem. When the fetch returns [None] (no entry, an expired entry, a
    record that does not parse, a server that cannot be reached) the result
    is the result of [get_all_test_cases], an exception included. *)
Theorem resolve_reads_cache_before_api
    (pid testset : string) (e : env) (w : world) :
  let run := resolve_test_cases pid testset e w in
  (∀ tcs, (get_test_cases_from_redis pid e w).1 = Ok (Some tcs) →
          run.1 = Ok tcs ∧ trace run.2 = trace w ∧ redis run.2 = redis w)
  ∧ ((get_test_cases_from_redis pid e w).1 = Ok None →
     run.1 = (get_all_test_cases pid testset e w).1)
  ∧ (redis_up e = false → run.1 = (get_all_test_cases pid testset e w).1).
Proof.
  cbn zeta.
  assert (Hmiss : (get_test_cases_from_redis pid e w).1 = Ok None →
            (resolve_test_cases pid testset e w).1
            = (get_all_test_cases pid testset e w).1).
  { intros H. unfold resolve_test_cases. unfold bind at 1.
    destruct (get_test_cases_from_redis pid e w) as [r u]. cbn [fst] in H.
    subst r. unfold bind at 1. cbv [logger]. unfold bind at 1.
    match goal with
    | |- (match get_all_test_cases _ _ _ ?w1 with _ => _ end).1 = _ =>
        rewrite <- (get_all_indep pid testset e w1 w);
        destruct (get_all_test_cases pid testset e w1) as [[l|x] u1]
    end; [|reflexivity].
    unfold bind.
    pose proof (proj1 (cache_operations_never_raise_aux pid l 1800 e u1)) as Hs.
    destruct (store_test_cases_in_redis pid l 1800 e u1) as [[[]|x] u2];
      [reflexivity | discriminate Hs]. }
  split; [|split].
  - intros tcs H. pose proof (fetch_frame pid e w) as Hf. cbn zeta in Hf.
    unfold resolve_test_cases, bind.
    destruct (get_test_cases_from_redis pid e w) as [r u]. cbn [fst snd] in *.
    subst r. cbn [fst snd]. unfold ret. cbn [fst snd]. tauto.
  - exact Hmiss.
  - intros Hdown. apply Hmiss.
    unfold get_test_cases_from_redis, try_except.
    rewrite bind_get, Hdown. reflexivity.
Qed.

Lemma resolve_reads_cache_before_api_witness :
  (resolve_test_cases "123" "tests" (redis_down env_three) empty_world).1
  = (get_all_test_cases "123" "tests" (redis_down env_three) empty_world).1.
Proof.
  exact (proj2 (proj2 (resolve_reads_cache_before_api "123" "tests"
                         (redis_down env_three) empty_world)) eq_refl).
Defined.

End ClientFacts.

Module CheckerFetchFacts.
Import PyStr Py Runtime StorageManager PolygonAPI Views Describe Reading Cases.
Import CacheReading RemoteReading Scenario.
Import RuntimeFacts PyStrFacts UploadFacts MigrationFacts FrameFacts.
Import CheckerStorageFacts ClientFacts.
Local Open Scope py_scope.

(** X12. [fetch_custom_checker_file] asks for the file as a source file,
    then as a resource file, then, when the name does not end in [.cpp], as
    a source file with [.cpp] appended. It returns the first answer it
    gets and stops asking; it returns [None] when every attempt fails, and
    it never raises. It makes at most three requests, at most two for a
    name that ends in [.cpp]. *)
Theorem checker_file_is_first_answer
    (pid name : string) (e : env) (w : world) :
  let found := first_answer (remote e) pid (checker_attempts name) in
  let run := fetch_custom_checker_file pid name e w in
  run.1 = Ok found.1
  ∧ trace run.2 = trace w ++ repeat (EvRequest "problem.viewFile") found.2
  ∧ (found.2 ≤ 3)%nat
  ∧ (endswith ".cpp" name = true → (found.2 ≤ 2)%nat)
  ∧ (found.1 = None ↔
     ∀ a, In a (checker_attempts name) →
          is_ok (problem_viewFile (remote e) pid a.1 a.2) = false).
Proof.
  cbn zeta.
  cbv [fetch_custom_checker_file bind try_except request emit ret raise logger
       redis storage trace log checker_attempts].
  cbn [app first_answer].
  destruct (problem_viewFile (remote e) pid "source" name) as [c1|x1] eqn:E1.
  { cbn. split; [reflexivity|]. split; [reflexivity|].
    split; [lia|]. split; [intros _; lia|]. split; [discriminate|].
    intros H. specialize (H ("source", name) ltac:(now left)).
    cbn in H. rewrite E1 in H. discriminate. }
  destruct (problem_viewFile (remote e) pid "resource" name) as [c2|x2] eqn:E2.
  { cbn. rewrite <- app_assoc. split; [reflexivity|]. split; [reflexivity|].
    split; [lia|]. split; [intros _; lia|]. split; [discriminate|].
    intros H. specialize (H ("resource", name) ltac:(right; now left)).
    cbn in H. rewrite E2 in H. discriminate. }
  destruct (endswith ".cpp" name); cbn [negb app first_answer].
  { cbn. rewrite <- app_assoc. split; [reflexivity|]. split; [reflexivity|].
    split; [lia|]. split; [intros _; lia|]. split; [|reflexivity].
    intros _ a [<- | [<- | []]]; cbn; [now rewrite E1 | now rewrite E2]. }
  destruct (problem_viewFile (remote e) pid "source" (name +:+ ".cpp"))
    as [c3|x3] eqn:E3.
  { cbn. rewrite <- !app_assoc. split; [reflexivity|]. split; [reflexivity|].
    split; [lia|]. split; [discriminate|]. split; [discriminate|].
    intros H. specialize (H ("source", name +:+ ".cpp")
                            ltac:(right; right; now left)).
    cbn in H. rewrite E3 in H. discriminate. }
  cbn. rewrite <- !app_assoc. split; [reflexivity|]. split; [reflexivity|].
  split; [lia|]. split; [discriminate|]. split; [|reflexivity].
  intros _ a [<- | [<- | [<- | []]]]; cbn;
    [now rewrite E1 | now rewrite E2 | now rewrite E3].
Qed.

(** ** Checker handling never fails the migration *)

Lemma checker_info_total pid e w :
  ∃ r w', get_custom_checker_info pid e w = (Ok r, w')
          ∧ storage w' = storage w.
Proof.
  pose proof (keeps_checker_info pid e w) as Hk.
  unfold get_custom_checker_info, try_except in *.
  match goal with
  | |- ∃ r w', match ?m with _ => _ end = _ ∧ _ =>
      destruct m as [[r|x] w1]
  end; [now exists r, w1|].
  cbv [bind logger ret] in *. now do 2 eexists.
Qed.

Lemma fetch_checker_total pid name e w :
  ∃ r w', fetch_custom_checker_file pid name e w = (Ok r, w')
          ∧ storage w' = storage w.
Proof.
  pose proof (keeps_fetch_checker pid name e w) as Hk.
  destruct (checker_file_is_first_answer pid name e w) as [H _].
  cbn zeta in H.
  destruct (fetch_custom_checker_file pid name e w) as [r w'].
  cbn [fst snd] in *. subst r. now do 2 eexists.
Qed.

Lemma compile_total source dir e w :
  source_write_fails e = false →
  ∃ r w', compile_custom_checker source dir e w = (Ok r, w')
          ∧ storage w' = storage w.
Proof.
  intros Hw. unfold compile_custom_checker, bind, ask, ret, raise, logger.
  rewrite Hw.
  destruct (negb (text_truthy (which_gpp e))); [now do 2 eexists|].
  destruct (run_gpp e source) as [rc [bytes|]| | |];
    try destruct (rc =? 0); now do 2 eexists.
Qed.

Lemma upload_file_rejected c path data e w :
  put_fails e c path = true →
  ∃ x w', upload_file c path data e w = (Raise x, w')
          ∧ storage w' = storage w.
Proof.
  intros H. cbv [upload_file bind emit try_except put_object logger raise
                 redis storage trace log].
  rewrite H. now do 2 eexists.
Qed.

Lemma upload_file_total c path data (handler : exn → M unit) e w :
  (∀ x e w, ∃ w', handler x e w = (Ok tt, w') ∧ storage w' = storage w) →
  ∃ w', try_except (upload_file c path data) handler e w = (Ok tt, w')
        ∧ (put_fails e c path = true → storage w' = storage w).
Proof.
  intros Hh. unfold try_except.
  destruct (put_fails e c path) eqn:Hp.
  - destruct (upload_file_rejected c path data e w Hp) as (x & w1 & -> & Hs).
    destruct (Hh x e w1) as (w' & -> & Hs'). exists w'.
    split; [reflexivity | congruence].
  - cbv [upload_file bind emit try_except put_object logger raise
         redis storage trace log]. rewrite Hp.
    eexists. split; [reflexivity | discriminate].
Qed.

Lemma logger_total lv msg (x0 : exn) e w :
  ∃ w', logger lv msg e w = (Ok tt, w') ∧ storage w' = storage w.
Proof. now eexists. Qed.

Lemma compile_and_upload_total pid c db source dir e w :
  source_write_fails e = false →
  ∃ w', compile_and_upload pid c db source dir e w = (Ok tt, w')
        ∧ ((∀ key, put_fails e c key = true) → storage w' = storage w).
Proof.
  intros Hw. unfold compile_and_upload.
  destruct (compile_total source dir e w Hw) as (r & w1 & Hc & Hs).
  rewrite (bind_ok _ _ _ _ _ _ Hc).
  destruct r as [[path bytes]|].
  - cbv [bind ask]. destruct (read_binary_fails e).
    + eexists. split; [reflexivity|]. intros _. exact Hs.
    + destruct (upload_file_total c
                  (checker_binary_path e (problem_id_for_naming pid db)) bytes
                  (fun _ => logger Error "Error uploading custom checker")
                  e w1 ltac:(intros x e0 w0; now apply logger_total))
        as (w' & Hu & Hs').
      exists w'. split; [exact Hu|]. intros Hall.
      rewrite Hs' by apply Hall. exact Hs.
  - destruct (upload_file_total c
                (checker_source_path (problem_id_for_naming pid db)) source
                (fun _ =>
                   logger Error "Error uploading custom checker source code")
                e w1 ltac:(intros x e0 w0; now apply logger_total))
      as (w' & Hu & Hs').
    exists w'. split; [exact Hu|]. intros Hall.
    rewrite Hs' by apply Hall. exact Hs.
Qed.

(** X13. Checker handling does not fail a migration over a storage error:
    when a storage manager can be built and the source file can be written
    to the working directory, [upload_custom_checker_to_storage] returns
    normally whatever the API, the compiler and the storage back end do. A
    rejected upload is logged only, and storage is then as before. *)
Theorem checker_upload_errors_are_logged_only
    (pid c : string) (db : option Z) (e : env) (w : world) :
  storage_configured e = true → source_write_fails e = false →
  let run := upload_custom_checker_to_storage pid c db e w in
  run.1 = Ok tt
  ∧ ((∀ key, put_fails e c key = true) → storage run.2 = storage w).
Proof.
  intros Hcfg Hw. cbn zeta. unfold upload_custom_checker_to_storage.
  destruct (checker_info_total pid e w) as (info & w1 & Hi & Hs1).
  rewrite (bind_ok _ _ _ _ _ _ Hi).
  destruct info as [name|]; [|cbn; auto].
  destruct (fetch_checker_total pid name e w1) as (src & w2 & Hf & Hs2).
  rewrite (bind_ok _ _ _ _ _ _ Hf).
  destruct src as [source|];
    [|cbn; split; [reflexivity | intros _; congruence]].
  destruct (nonempty source);
    [|cbn; split; [reflexivity | intros _; congruence]].
  rewrite (bind_ok _ _ _ _ _ _ (get_storage_manager_ok _ _ Hcfg)).
  cbv [bind ask].
  assert (Hgo : ∀ dir,
            (compile_and_upload pid c db source dir e w2).1 = Ok tt
            ∧ ((∀ key, put_fails e c key = true) →
               storage (compile_and_upload pid c db source dir e w2).2
               = storage w)).
  { intros dir.
    destruct (compile_and_upload_total pid c db source dir e w2 Hw)
      as (w' & -> & Hs). split; [reflexivity|]. intros Hall.
    cbn [snd]. rewrite Hs by exact Hall. congruence. }
  destruct (custom_checker_dir e) as [dir|]; [destruct (nonempty dir)|];
    apply Hgo.
Qed.

Lemma checker_upload_errors_are_logged_only_witness :
  let e := storage_read_only (with_remote remote_checker env_three) in
  let run := upload_custom_checker_to_storage "123" "bucket" (Some 7) e
               empty_world in
  run.1 = Ok tt ∧ storage run.2 = ∅.
Proof.
  destruct (checker_upload_errors_are_logged_only "123" "bucket" (Some 7)
              (storage_read_only (with_remote remote_checker env_three))
              empty_world eq_refl eq_refl) as [H1 H2].
  split; [exact H1 | exact (H2 (fun key => eq_refl))].
Defined.

End CheckerFetchFacts.

Module AbortFacts.
Import PyStr Py Runtime StorageManager PolygonAPI Views Describe Reading Cases.
Import CacheReading RemoteReading Scenario.
Import RuntimeFacts PyStrFacts UploadFacts MigrationFacts FrameFacts.
Import CheckerStorageFacts ClientFacts.
Local Open Scope py_scope.



(** ** The view *)

Ltac frame_step :=
  first [ apply keeps_ret | apply keeps_raise | apply keeps_ask
        | apply keeps_emit | apply keeps_logger | apply keeps_request
        | apply keeps_scan_delete | apply keeps_get_storage_manager
        | apply keeps_bind; [|intros ?]
        | apply keeps_try_except; [|intros ?]
        | apply keeps_if ].

Ltac frame := repeat frame_step.

Lemma keeps_main_solution_name solutions :
  keeps_storage (main_solution_name solutions).
Proof.
  induction solutions as [|sol solutions IH]; cbn [main_solution_name].
  - apply keeps_ret.
  - destruct (is_main_tag (dict_get sol "tag" JNull)); [|exact IH].
    destruct (sol !! "name"); [apply keeps_ret | apply keeps_raise].
Qed.

Lemma keeps_fetch_main_solution pid : keeps_storage (fetch_main_solution pid).
Proof.
  unfold fetch_main_solution.
  apply keeps_try_except; [|intros ?; frame].
  apply keeps_bind; [frame | intros _].
  apply keeps_bind; [frame | intros solutions].
  destruct solutions as [|first others]; [frame|].
  apply keeps_bind; [apply keeps_main_solution_name | intros name].
  apply keeps_bind.
  - destruct (truthy name); [frame|]. destruct (first !! "name"); frame.
  - intros name'. destruct (truthy name'); frame.
Qed.

Lemma keeps_clear pid : keeps_storage (clear_test_cases_from_redis pid).
Proof. unfold clear_test_cases_from_redis. frame. Qed.

Lemma keeps_failure_handler pid f : keeps_storage (failure_handler pid f).
Proof.
  unfold failure_handler.
  apply keeps_bind; [frame | intros _].
  apply keeps_bind; [destruct (purge_requested f); frame | intros _].
  apply keeps_bind; [apply keeps_clear | intros _; frame].
Qed.

Lemma keeps_continue pid (rest : M unit) (c : context) f :
  keeps_storage rest →
  keeps_storage (try_except (rest >> ret c) (fun _ => failure_handler pid f)).
Proof.
  intros Hr. apply keeps_try_except.
  - apply keeps_bind; [exact Hr | intros _; frame].
  - intros _. apply keeps_failure_handler.
Qed.

Lemma failure_handler_aux pid f e w :
  purge_requested f = true →
  (failure_handler pid f e w).1 = Raise (AttributeError "delete_azure_blob").
Proof.
  intros H. unfold failure_handler. unfold bind at 1. unfold logger at 1.
  now rewrite H.
Qed.

(** A context returned by the handler has no success message. *)
Lemma handler_context pid f e w :
  ∀ c, (failure_handler pid f e w).1 = Ok c → success c = None.
Proof.
  intros c. cbv [failure_handler bind logger ret raise
                 clear_test_cases_from_redis try_except scan_delete emit
                 command].
  destruct (purge_requested f); [discriminate|].
  destruct (redis_up e); cbn; now intros [= <-].
Qed.

Lemma storage_bind_congr {A B} (m : M A) (k1 k2 : A → M B) e w :
  (∀ a w1, storage (k1 a e w1).2 = storage (k2 a e w1).2) →
  storage (bind m k1 e w).2 = storage (bind m k2 e w).2.
Proof.
  intros H. unfold bind. destruct (m e w) as [[a|x] w1]; [apply H | reflexivity].
Qed.

(** The flags a completed storage migration sets. *)
Lemma storage_migration_flags pid e w f w' :
  storage_migration pid e w = (Ok (inr f), w') →
  ∃ id, db_problem e pid = Some id
        ∧ f = {| azure_blob_uploaded := true;
                 azure_blob_problem_id := Some id |}.
Proof.
  unfold storage_migration. unfold bind at 1, ask at 1.
  destruct (db_problem e pid) as [id|].
  - destruct (negb (text_truthy (storage_container_name e)));
      [cbv [ret]; discriminate|].
    intros H. exists id. split; [reflexivity|].
    apply bind_inv_ok in H as ([] & w1 & _ & H).
    apply bind_inv_ok in H as (info & w2 & _ & H).
    apply bind_inv_ok in H as ([] & w3 & _ & H).
    cbv [ret] in H. now injection H as <- _.
  - cbv [bind logger ret]. discriminate.
Qed.

(** X15. What follows the storage migration in the view cannot undo it.
    Whatever the remaining statements of the request do, short of writing
    to storage themselves, storage at the end of the request is what the
    migration block left: the failure handler deletes no object. And when
    the migration block completed for a problem with a non-zero database
    identifier and a later statement raises, the handler itself raises
    [AttributeError] on the missing [delete_azure_blob], so the request
    fails instead of returning the error page. *)
Theorem view_failure_keeps_uploaded_objects
    (pid : string) (migrate : bool) (rest : M unit) (e : env) (w : world) :
  keeps_storage rest →
  storage (index pid migrate rest e w).2
    = storage (index pid migrate (ret tt) e w).2
  ∧ (∀ id,
       db_problem e pid = Some id → id ≠ 0 →
       success (value_or {| error := None; success := None |}
                  (index pid true (ret tt) e w).1) ≠ None →
       (∀ e' w', is_ok (rest e' w').1 = false) →
       (index pid true rest e w).1
       = Raise (AttributeError "delete_azure_blob")).
Proof.
  intros Hrest. split.
  - unfold index. destruct (negb (nonempty pid)); [reflexivity|].
    apply storage_bind_congr. intros e0 w0.
    apply storage_bind_congr. intros [] w1.
    destruct migrate.
    + apply storage_bind_congr. intros [[early|f]|c] w2; try reflexivity.
      rewrite !keeps_continue; [reflexivity | apply keeps_ret | exact Hrest].
    + rewrite !keeps_continue; [reflexivity | apply keeps_ret | exact Hrest].
  - intros id Hdb Hid Hdone Hraise.
    unfold index in *. destruct (negb (nonempty pid)); [now cbn in Hdone|].
    rewrite (bind_ok _ _ _ _ _ _ (eq_refl : ask e w = (Ok e, w))) in Hdone.
    rewrite (bind_ok _ _ _ _ _ _ (eq_refl : ask e w = (Ok e, w))).
    rewrite Hdb in *. cbv beta iota in *.
    destruct ((fetch_main_solution pid >> ret tt) e w) as [[[]|x] w1] eqn:Hpre.
    2:{ rewrite (bind_raise _ _ _ _ _ _ Hpre) in Hdone. now cbn in Hdone. }
    rewrite (bind_ok _ _ _ _ _ _ Hpre) in Hdone.
    rewrite (bind_ok _ _ _ _ _ _ Hpre).
    destruct (storage_migration pid e w1) as [[[early|f]|x] w2] eqn:Hm.
    + exfalso. apply Hdone.
      erewrite bind_ok
        by (apply try_except_ok; erewrite bind_ok by exact Hm; reflexivity).
      cbn. revert Hm. clear.
      unfold storage_migration. unfold bind at 1, ask at 1.
      destruct (db_problem e pid) as [id|].
      * destruct (negb (text_truthy (storage_container_name e))).
        -- cbv [ret]. now intros [= <- _].
        -- intros H.
           apply bind_inv_ok in H as ([] & w1' & _ & H).
           apply bind_inv_ok in H as (info & w2' & _ & H).
           apply bind_inv_ok in H as ([] & w3' & _ & H).
           cbv [ret] in H. discriminate H.
      * cbv [bind logger ret]. now intros [= <- _].
    + erewrite bind_ok
        by (apply try_except_ok; erewrite bind_ok by exact Hm; reflexivity).
      apply storage_migration_flags in Hm as (id' & Hdb' & ->).
      assert (id' = id) by congruence. subst id'.
      specialize (Hraise e w2).
      destruct (rest e w2) as [[[]|x] w3] eqn:Hrun; [discriminate Hraise|].
      erewrite try_except_raise by (apply bind_raise; exact Hrun).
      apply failure_handler_aux. unfold purge_requested. cbn.
      apply Z.eqb_neq in Hid. now rewrite Hid.
    + exfalso. apply Hdone.
      pose proof (handler_context pid
                    {| azure_blob_uploaded := false;
                       azure_blob_problem_id := None |} e w2) as Hh.
      destruct (failure_handler pid
                  {| azure_blob_uploaded := false;
                     azure_blob_problem_id := None |} e w2)
        as [[c|x'] w3] eqn:Hfh.
      * erewrite bind_ok
          by (erewrite try_except_raise
                by (apply bind_raise; exact Hm);
              erewrite bind_ok by exact Hfh; reflexivity).
        cbn. now apply Hh.
      * erewrite bind_raise
          by (erewrite try_except_raise
                by (apply bind_raise; exact Hm);
              apply bind_raise; exact Hfh).
        reflexivity.
Qed.

Lemma view_failure_keeps_uploaded_objects_witness :
  (index "123" true (raise (OtherException "a later statement failed"))
     env_three empty_world).1
  = Raise (AttributeError "delete_azure_blob").
Proof.
  refine (proj2 (view_failure_keeps_uploaded_objects "123" true
                   (raise (OtherException "a later statement failed"))
                   env_three empty_world (keeps_raise _))
            7 eq_refl _ _ (fun _ _ => eq_refl)).
  - discriminate.
  - vm_compute. discriminate.
Defined.

(** X16. A migration request for a problem that has no row in the
    database, or on a host without a container name, ends with an error
    message and does nothing else: storage and the cache are untouched, no
    purge is attempted and the remaining statements of the view do not
    run. For a problem without a row there is no request to the API
    either. *)
Theorem migration_request_checks_preconditions
    (pid : string) (rest : M unit) (e : env) (w : world) :
  nonempty pid = true →
  let run := index pid true rest e w in
  (db_problem e pid = None →
   (∃ msg, run.1 = Ok {| error := Some msg; success := None |})
   ∧ storage run.2 = storage w ∧ redis run.2 = redis w
   ∧ trace run.2 = trace w)
  ∧ (∀ id, db_problem e pid = Some id →
       text_truthy (storage_container_name e) = false →
       (∃ msg, run.1 = Ok {| error := Some msg; success := None |})
       ∧ storage run.2 = storage w
       ∧ trace run.2 = trace (fetch_main_solution pid e w).2).
Proof.
  intros Hne. cbn zeta. unfold index. rewrite Hne. cbn [negb].
  rewrite (bind_ok _ _ _ _ _ _ (eq_refl : ask e w = (Ok e, w))).
  split.
  - intros Hdb. rewrite Hdb.
    cbv [bind ret try_except storage_migration ask logger].
    rewrite Hdb. cbn. split; [eexists; reflexivity | auto].
  - intros id Hdb Hc. rewrite Hdb.
    pose proof (keeps_fetch_main_solution pid e w) as Hk.
    assert (Hok : ∃ v w1, fetch_main_solution pid e w = (Ok v, w1)).
    { unfold fetch_main_solution, try_except.
      match goal with
      | |- ∃ v w1, match ?m with _ => _ end = _ =>
          destruct m as [[v|x] w1]
      end; [now exists v, w1|].
      cbv [bind logger ret]. now do 2 eexists. }
    destruct Hok as (v & w1 & Hsol). rewrite Hsol in *. cbn [snd] in *.
    cbv [bind ret try_except storage_migration ask logger].
    rewrite Hsol, Hdb, Hc. cbn. split; [eexists; reflexivity | auto].
Qed.

Lemma migration_request_checks_preconditions_witness :
  let run := index "999" true (raise (OtherException "not reached"))
               env_three empty_world in
  (∃ msg, run.1 = Ok {| error := Some msg; success := None |})
  ∧ storage run.2 = ∅ ∧ redis run.2 = ∅ ∧ trace run.2 = [].
Proof.
  exact (proj1 (migration_request_checks_preconditions "999"
                  (raise (OtherException "not reached"))
                  env_three empty_world eq_refl) eq_refl).
Defined.

End AbortFacts.

Module CheckerTypeFacts.
Import PyStr Py Runtime PolygonAPI Describe ViewData Scenario.
Import RuntimeFacts PyStrFacts KeyFacts CheckerFacts CheckerStorageFacts.
Local Open Scope py_scope.

Lemma prefix_split (p s : string) :
  String.prefix p s = true → s = p +:+ drop_chars (String.length p) s.
Proof.
  revert s. induction p as [|c p IH]; intros s H; [reflexivity|].
  destruct s as [|d s]; [discriminate|]. cbn in H |- *.
  destruct (ascii_dec c d) as [->|]; [|discriminate].
  f_equal. now apply IH.
Qed.

Lemma rev_involutive (s : string) : rev (rev s) = s.
Proof.
  induction s as [|c s IH]; [reflexivity|].
  cbn. now rewrite rev_append, IH.
Qed.

Lemma rev_length (s : string) : String.length (rev s) = String.length s.
Proof.
  induction s as [|c s IH]; [reflexivity|].
  cbn. rewrite length_append, IH. cbn. lia.
Qed.

Lemma take_chars_append (a b : string) :
  take_chars (String.length a) (a +:+ b) = a.
Proof. induction a as [|c a IH]; cbn; [now destruct b | now rewrite IH]. Qed.

Lemma suffix_split (p s : string) :
  endswith p s = true →
  s = take_chars (String.length s - String.length p) s +:+ p.
Proof.
  unfold endswith. intros H. apply prefix_split in H.
  assert (Hs : s = rev (drop_chars (String.length (rev p)) (rev s)) +:+ p).
  { rewrite <- (rev_involutive s) at 1. rewrite H at 1.
    now rewrite rev_append, rev_involutive. }
  set (a := rev (drop_chars (String.length (rev p)) (rev s))) in *.
  rewrite Hs at 2 3. rewrite length_append.
  replace (String.length a + String.length p - String.length p)%nat
    with (String.length a) by lia.
  now rewrite take_chars_append.
Qed.

Lemma is_valid_checker_In (s : string) :
  is_valid_checker s = true ↔ In s valid_checkers.
Proof.
  unfold is_valid_checker. rewrite existsb_exists. split.
  - intros (v & Hin & Heq). apply String.eqb_eq in Heq. now subst.
  - intros Hin. exists s. split; [exact Hin | apply String.eqb_refl].
Qed.

Lemma valid_checker_plain (v : string) :
  In v valid_checkers →
  startswith "std::" v = false ∧ endswith ".cpp" v = false
  ∧ nonempty v = true
  ∧ startswith "std::" (v +:+ ".cpp") = false
  ∧ endswith ".cpp" (v +:+ ".cpp") = true
  ∧ take_chars (String.length (v +:+ ".cpp") - 4) (v +:+ ".cpp") = v.
Proof.
  intros Hin. cbn in Hin.
  repeat (destruct Hin as [<- | Hin]; [vm_compute; auto 10|]).
  destruct Hin.
Qed.

Lemma checker_type_choice (t : string) :
  In t valid_checkers ∨ t = "custom" →
  In t CHECKER_TYPE_CHOICES ∧ (String.length t ≤ checker_type_max_length)%nat.
Proof.
  intros [Hin | ->]; [|vm_compute; auto 20].
  cbn in Hin.
  repeat (destruct Hin as [<- | Hin]; [vm_compute; auto 20|]).
  destruct Hin.
Qed.

(** What is left of the answer after the two cuts. *)
Lemma checker_type_shape (s : string) :
  ∃ s2,
    checker_type_of (JStr s)
    = Ok (if is_valid_checker s2 then s2 else "custom")
    ∧ (nonempty s = true →
       (s = s2 ∨ s = "std::" +:+ s2 ∨ s = s2 +:+ ".cpp"
        ∨ s = "std::" +:+ s2 +:+ ".cpp")).
Proof.
  unfold checker_type_of. cbn [truthy].
  destruct (nonempty s) eqn:Hn.
  - destruct (startswith "std::" s) eqn:Hp.
    + apply prefix_split in Hp. cbn [String.length] in Hp.
      set (s1 := drop_chars 5 s) in *.
      destruct (endswith ".cpp" s1) eqn:Hq.
      * apply suffix_split in Hq. cbn [String.length] in Hq.
        eexists. split; [reflexivity|]. intros _.
        right. right. right. rewrite Hp at 1. now rewrite Hq at 1.
      * eexists. split; [reflexivity|]. intros _. right. left. exact Hp.
    + destruct (endswith ".cpp" s) eqn:Hq.
      * apply suffix_split in Hq. cbn [String.length] in Hq.
        eexists. split; [reflexivity|]. intros _. right. right. left.
        exact Hq.
      * eexists. split; [reflexivity|]. intros _. now left.
  - exists "ncmp". split; [reflexivity | discriminate].
Qed.

Lemma checker_type_standard (v s : string) :
  In v valid_checkers → nonempty s = true →
  (checker_type_of (JStr s) = Ok v ↔ In s (spellings v)).
Proof.
  intros Hv Hn. split.
  - destruct (checker_type_shape s) as (s2 & Hr & Hs).
    specialize (Hs Hn). rewrite Hr.
    intros H. injection H as H.
    destruct (is_valid_checker s2) eqn:Hv2.
    + subst s2. unfold spellings. cbn [In].
      destruct Hs as [-> | [-> | [-> | ->]]]; auto.
    + subst v. cbn in Hv.
      repeat (destruct Hv as [Hv | Hv]; [discriminate Hv|]). destruct Hv.
  - intros Hin.
    destruct (valid_checker_plain v Hv) as (H1 & H2 & H3 & H4 & H5 & H6).
    apply is_valid_checker_In in Hv.
    unfold spellings in Hin. cbn [In] in Hin.
    unfold checker_type_of. cbn [truthy]. rewrite Hn.
    destruct Hin as [<- | [<- | [<- | [<- | []]]]].
    + now rewrite H1, H2, Hv.
    + change (startswith "std::" ("std::" +:+ v)) with (startswith "" v).
      replace (startswith "" v) with true by now destruct v.
      change (drop_chars 5 ("std::" +:+ v)) with v.
      now rewrite H2, Hv.
    + now rewrite H4, H5, H6, Hv.
    + change (startswith "std::" ("std::" +:+ v +:+ ".cpp"))
        with (startswith "" (v +:+ ".cpp")).
      replace (startswith "" (v +:+ ".cpp")) with true
        by now destruct (v +:+ ".cpp").
      change (drop_chars 5 ("std::" +:+ v +:+ ".cpp")) with (v +:+ ".cpp").
      now rewrite H5, H6, Hv.
Qed.

Lemma checker_type_custom (s : string) :
  nonempty s = true →
  (∀ v, In v valid_checkers → ¬ In s (spellings v)) →
  checker_type_of (JStr s) = Ok "custom".
Proof.
  intros Hn Hnot. destruct (checker_type_shape s) as (s2 & Hr & Hs).
  specialize (Hs Hn). rewrite Hr.
  destruct (is_valid_checker s2) eqn:Hv; [|reflexivity].
  exfalso. apply is_valid_checker_In in Hv. apply (Hnot s2 Hv).
  unfold spellings. cbn [In].
  destruct Hs as [-> | [-> | [-> | ->]]]; auto.
Qed.

(** X17. The checker type that the view stores is always one of the
    choices of the [Problem] model and fits its field. An answer is taken
    for the standard checker [v] exactly when it is [v], [std::v], [v.cpp]
    or [std::v.cpp] (an empty or missing answer counts as [ncmp]); every
    other text gives [custom]. An answer that is not a text and is true
    raises [AttributeError]. *)
Theorem checker_type_is_a_model_choice :
  (∀ answer t, checker_type_of answer = Ok t →
     In t CHECKER_TYPE_CHOICES
     ∧ (String.length t ≤ checker_type_max_length)%nat)
  ∧ (∀ v s, In v valid_checkers → nonempty s = true →
       (checker_type_of (JStr s) = Ok v ↔ In s (spellings v)))
  ∧ (∀ s, nonempty s = true →
       (∀ v, In v valid_checkers → ¬ In s (spellings v)) →
       checker_type_of (JStr s) = Ok "custom")
  ∧ checker_type_of JNull = Ok "ncmp"
  ∧ checker_type_of (JStr "") = Ok "ncmp"
  ∧ (∀ n, n ≠ 0 → checker_type_of (JInt n) = Raise (AttributeError "startswith")).
Proof.
  split; [|split; [|split; [|split; [|split]]]].
  - intros answer t H. apply checker_type_choice.
    assert (Hs : ∃ s, checker_type_of answer = checker_type_of (JStr s)).
    { destruct answer as [|b|n|s]; unfold checker_type_of in *; cbn [truthy] in *.
      - now exists "".
      - destruct b; [discriminate | now exists ""].
      - destruct (negb (n =? 0)); [discriminate | now exists ""].
      - now exists s. }
    destruct Hs as (s & Hs). rewrite Hs in H.
    destruct (checker_type_shape s) as (s2 & Hr & _). rewrite Hr in H.
    injection H as <-.
    destruct (is_valid_checker s2) eqn:Hv; [|now right].
    left. now apply is_valid_checker_In.
  - apply checker_type_standard.
  - apply checker_type_custom.
  - reflexivity.
  - reflexivity.
  - intros n Hn. unfold checker_type_of. cbn [truthy].
    apply Z.eqb_neq in Hn. now rewrite Hn.
Qed.

Lemma checker_type_is_a_model_choice_witness :
  checker_type_of (JStr "std::wcmp.cpp") = Ok "wcmp"
  ∧ In "wcmp" CHECKER_TYPE_CHOICES.
Proof.
  split.
  - apply (proj1 (proj2 checker_type_is_a_model_choice) "wcmp" "std::wcmp.cpp");
      [vm_compute; auto 20 | reflexivity | vm_compute; auto].
  - apply (proj1 checker_type_is_a_model_choice (JStr "std::wcmp.cpp") "wcmp").
    vm_compute. reflexivity.
Defined.

(** X18. The view and the migration classify a checker by different
    rules. For a checker file named after a standard checker ([v] or
    [v.cpp] without [std::]) the view stores the standard type [v], while
    [get_custom_checker_info] reports a custom checker, which the migration
    then compiles and uploads. For an answer [std::name] whose name is not
    in the view's list the view stores [custom], while
    [get_custom_checker_info] reports none and nothing is uploaded. *)
Theorem checker_classifications_disagree
    (pid : string) (e : env) (w : world) :
  (∀ v s, In v valid_checkers → (s = v ∨ s = v +:+ ".cpp") →
     problem_checker (remote e) pid = Ok (JStr s) →
     checker_type_of (JStr s) = Ok v
     ∧ (get_custom_checker_info pid e w).1 = Ok (Some s))
  ∧ (∀ s, startswith "std::" s = true →
       (∀ v, In v valid_checkers → ¬ In s (spellings v)) →
       problem_checker (remote e) pid = Ok (JStr s) →
       checker_type_of (JStr s) = Ok "custom"
       ∧ (get_custom_checker_info pid e w).1 = Ok None).
Proof.
  pose proof checker_type_standard as Hiff.
  pose proof checker_type_custom as Hcustom.
  split.
  - intros v s Hv Hs Hc.
    destruct (valid_checker_plain v Hv) as (H1 & H2 & H3 & H4 & H5 & H6).
    assert (Hn : nonempty s = true).
    { destruct Hs as [-> | ->]; [exact H3|]. now destruct v. }
    assert (Hp : startswith "std::" s = false).
    { destruct Hs as [-> | ->]; assumption. }
    split.
    + apply (Hiff v s Hv Hn). unfold spellings. cbn [In].
      destruct Hs as [-> | ->]; auto.
    + cbv [get_custom_checker_info try_except bind request emit ret].
      rewrite Hc. cbn [truthy]. rewrite Hn, Hp. reflexivity.
  - intros s Hp Hnot Hc.
    assert (Hn : nonempty s = true) by (destruct s; [discriminate | reflexivity]).
    split; [now apply Hcustom|].
    cbv [get_custom_checker_info try_except bind request emit ret].
    rewrite Hc. cbn [truthy]. rewrite Hn, Hp. reflexivity.
Qed.

Lemma checker_classifications_disagree_witness :
  let e := with_remote (remote_with_checker "wcmp.cpp") env_three in
  checker_type_of (JStr "wcmp.cpp") = Ok "wcmp"
  ∧ (get_custom_checker_info "123" e empty_world).1 = Ok (Some "wcmp.cpp").
Proof.
  apply (proj1 (checker_classifications_disagree "123"
                  (with_remote (remote_with_checker "wcmp.cpp") env_three)
                  empty_world) "wcmp" "wcmp.cpp");
    [vm_compute; auto 20 | now right | reflexivity].
Defined.

End CheckerTypeFacts.

Module RowFacts.
Import PyStr Py Runtime PolygonAPI Describe ViewData Rows Scenario.
Import RuntimeFacts PyStrFacts KeyFacts.










End RowFacts.

Module TagFacts.
Import PyStr Py Runtime Rows Tags.
Import RuntimeFacts PyStrFacts KeyFacts CheckerTypeFacts.

Lemma lstrip_idem (s : string) : lstrip (lstrip s) = lstrip s.
Proof.
  induction s as [|c s IH]; [reflexivity|]. cbn [lstrip].
  destruct (is_space c) eqn:Hc; [exact IH|]. cbn [lstrip]. now rewrite Hc.
Qed.

Lemma lstrip_app (a b : string) :
  lstrip (a +:+ b) = if nonempty (lstrip a) then lstrip a +:+ b else lstrip b.
Proof.
  induction a as [|c a IH]; [reflexivity|]. cbn [String.append lstrip].
  destruct (is_space c); [exact IH | reflexivity].
Qed.

Lemma rstrip_cons (c : ascii) (s : string) :
  rstrip (String c s) =
    if nonempty (rstrip s) then String c (rstrip s)
    else if is_space c then EmptyString else String c EmptyString.
Proof.
  unfold rstrip. cbn [rev]. rewrite lstrip_app, nonempty_rev.
  destruct (nonempty (lstrip (rev s))).
  - rewrite rev_append. reflexivity.
  - cbn [lstrip]. now destruct (is_space c).
Qed.

Lemma strip_commute (s : string) : lstrip (rstrip s) = rstrip (lstrip s).
Proof.
  induction s as [|c s IH]; [reflexivity|].
  rewrite rstrip_cons. cbn [lstrip].
  destruct (is_space c) eqn:Hc.
  - rewrite <- IH. destruct (nonempty (rstrip s)) eqn:Hn.
    + cbn [lstrip]. now rewrite Hc.
    + destruct (rstrip s); [reflexivity | discriminate].
  - rewrite rstrip_cons.
    destruct (nonempty (rstrip s)); cbn [lstrip]; now rewrite Hc.
Qed.

Lemma rstrip_idem (s : string) : rstrip (rstrip s) = rstrip s.
Proof.
  unfold rstrip. now rewrite rev_involutive, lstrip_idem.
Qed.

Lemma strip_idem (s : string) : strip (strip s) = strip s.
Proof.
  unfold strip.
  now rewrite <- (strip_commute (rstrip s)), rstrip_idem, lstrip_idem.
Qed.

Lemma tag_loop (selected : list string) :
  ∀ t name,
    let t' :=
      foldl (fun t tag_name =>
               if nonempty (strip tag_name) then add_tag (strip tag_name) t
               else t) t selected in
    (name ∈ extra_tags t' ↔
     name ∈ extra_tags t ∨ In name (List.filter nonempty (map strip selected)))
    ∧ (name ∈ tags t' ↔
       name ∈ tags t ∨ In name (List.filter nonempty (map strip selected))).
Proof.
  induction selected as [|s selected IH]; intros t name; cbn zeta.
  - cbn. tauto.
  - cbn [foldl map List.filter].
    destruct (nonempty (strip s)) eqn:Hs.
    + destruct (IH (add_tag (strip s) t) name) as [He Ht]. cbn zeta in He, Ht.
      rewrite He, Ht. unfold add_tag. cbn [extra_tags tags In].
      rewrite !elem_of_union, !elem_of_singleton. split; intuition congruence.
    + apply IH.
Qed.

(** X20. The tag handling of the database migration replaces the tags of
    the problem: afterwards the problem has exactly the selected tags and
    the new tag, each with the white space around it removed and the empty
    ones left out, whatever tags it had before. Every name attached is in
    the tag table, and no tag is removed from that table. *)
Theorem tags_are_replaced_by_the_request
    (selected : list string) (new_tag : string) (t : tag_tables) :
  let t' := process_tags selected new_tag t in
  (∀ name, name ∈ extra_tags t' ↔ In name (requested selected new_tag))
  ∧ (∀ name, name ∈ tags t' ↔
             name ∈ tags t ∨ In name (requested selected new_tag))
  ∧ (∀ name, name ∈ extra_tags t' →
             name ∈ tags t' ∧ nonempty name = true ∧ strip name = name)
  ∧ (∀ t0, tags t0 = tags t →
           process_tags selected new_tag t0 = t').
Proof.
  cbn zeta.
  assert (Hmem : ∀ name,
            (name ∈ extra_tags (process_tags selected new_tag t)
             ↔ In name (requested selected new_tag))
            ∧ (name ∈ tags (process_tags selected new_tag t)
               ↔ name ∈ tags t ∨ In name (requested selected new_tag))).
  { intros name. unfold process_tags, requested.
    rewrite map_app, List.filter_app. cbn [map List.filter].
    destruct (tag_loop selected {| tags := tags t; extra_tags := ∅ |} name)
      as [He Ht]. cbn zeta in He, Ht. cbn [extra_tags tags] in He, Ht.
    destruct (nonempty (strip new_tag)) eqn:Hn.
    - unfold add_tag. cbn [extra_tags tags].
      rewrite !elem_of_union, !elem_of_singleton, He, Ht, !in_app_iff.
      cbn [In]. rewrite elem_of_empty. split; split; intuition congruence.
    - rewrite He, Ht, !in_app_iff. cbn [In]. rewrite elem_of_empty.
      split; split; tauto. }
  split; [intros name; apply Hmem|]. split; [intros name; apply Hmem|].
  split.
  - intros name Hin. split; [|split].
    + apply Hmem. right. now apply Hmem.
    + apply Hmem in Hin. unfold requested in Hin.
      apply List.filter_In in Hin. tauto.
    + apply Hmem in Hin. unfold requested in Hin.
      apply List.filter_In in Hin as [Hin _].
      apply List.in_map_iff in Hin as (s & <- & _). apply strip_idem.
  - intros t0 Ht0. unfold process_tags. now rewrite Ht0.
Qed.

Lemma tags_are_replaced_by_the_request_witness :
  let t := {| tags := {["dp"; "old"]}; extra_tags := {["old"]} |} in
  "graphs" ∈ extra_tags (process_tags [" graphs "; "  "] "" t).
Proof.
  apply (proj1 (tags_are_replaced_by_the_request [" graphs "; "  "] ""
                  {| tags := {["dp"; "old"]}; extra_tags := {["old"]} |})).
  vm_compute. now left.
Defined.

End TagFacts.

Module PackageFacts.
Import PyStr Py Runtime Packages.
Import RuntimeFacts.

Lemma typed_is_truthy ty p :
  has_type ty p = true → dict_truthy (Some p) = true.
Proof.
  unfold has_type, dict_truthy. intros H.
  apply negb_true_iff, bool_decide_eq_false. intros ->.
  now rewrite lookup_empty in H.
Qed.

Lemma py_gt_numbered p q :
  numbered p = true → numbered q = true →
  py_gt (revision p) (revision q) = Ok (revision_of q <? revision_of p).
Proof.
  unfold numbered, revision_of, revision_number, py_gt.
  destruct (as_number (revision p)), (as_number (revision q));
    try discriminate. reflexivity.
Qed.

(** The loop once a package has been picked. *)
Lemma find_latest_from ty packages :
  Forall (fun p => has_type ty p = true → numbered p = true) packages →
  ∀ l, has_type ty l = true → numbered l = true →
    ∃ p,
      find_latest_package ty packages (Some l) = Ok (Some p)
      ∧ has_type ty p = true ∧ numbered p = true
      ∧ revision_of l ≤ revision_of p
      ∧ Forall (fun q => has_type ty q = true → revision_of q ≤ revision_of p)
               packages
      ∧ (p = l
         ∨ ∃ before after,
             packages = before ++ p :: after
             ∧ revision_of l < revision_of p
             ∧ Forall (fun q => has_type ty q = true →
                                revision_of q < revision_of p) before).
Proof.
  intros Hall. induction Hall as [|q packages Hq _ IH]; intros l Hl Hnl.
  - exists l. cbn. repeat split; try lia; auto.
  - cbn [find_latest_package]. destruct (has_type ty q) eqn:Hty.
    + rewrite (typed_is_truthy ty l Hl).
      change (default ∅ (Some l)) with l. cbn [negb].
      rewrite (py_gt_numbered q l (Hq eq_refl) Hnl).
      destruct (Z.ltb_spec (revision_of l) (revision_of q)) as [Hlt | Hge].
      * destruct (IH q Hty (Hq eq_refl))
          as (p & Hrun & Hp & Hnp & Hle & Hmax & Hpos).
        exists p. split; [exact Hrun|]. repeat split; try assumption; try lia.
        -- constructor; [intros _; exact Hle | exact Hmax].
        -- right. destruct Hpos as [-> | (before & after & -> & Hlt' & Hb)].
           ++ exists [], packages. cbn. repeat split; [lia | constructor].
           ++ exists (q :: before), after. cbn. repeat split; [lia|].
              constructor; [intros _; lia | exact Hb].
      * destruct (IH l Hl Hnl)
          as (p & Hrun & Hp & Hnp & Hle & Hmax & Hpos).
        exists p. split; [exact Hrun|]. repeat split; try assumption.
        -- constructor; [intros _; lia | exact Hmax].
        -- destruct Hpos as [-> | (before & after & -> & Hlt' & Hb)];
             [now left | right].
           exists (q :: before), after. cbn. repeat split; [lia|].
           constructor; [intros _; lia | exact Hb].
    + destruct (IH l Hl Hnl)
        as (p & Hrun & Hp & Hnp & Hle & Hmax & Hpos).
      exists p. split; [exact Hrun|]. repeat split; try assumption.
      * constructor; [intros H; congruence | exact Hmax].
      * destruct Hpos as [-> | (before & after & -> & Hlt' & Hb)];
          [now left | right].
        exists (q :: before), after. cbn. repeat split; [lia|].
        constructor; [intros H; congruence | exact Hb].
Qed.

(** X21. Among the packages of the requested type, the package search of
    [download_and_extract_package] picks the one with the highest
    revision, and the first of them in the list when several share it; it
    finds none exactly when the list has no package of that type. Packages
    of other types are ignored, whatever their revision. *)
Theorem latest_package_is_first_maximum
    (ty : string) (packages : list (gmap string jv)) :
  Forall (fun p => has_type ty p = true → numbered p = true) packages →
  ∃ r,
    find_latest_package ty packages None = Ok r
    ∧ (r = None ↔ Forall (fun p => has_type ty p = false) packages)
    ∧ (∀ p, r = Some p →
         has_type ty p = true
         ∧ ∃ before after,
             packages = before ++ p :: after
             ∧ Forall (fun q => has_type ty q = true →
                                revision_of q < revision_of p) before
             ∧ Forall (fun q => has_type ty q = true →
                                revision_of q ≤ revision_of p) after).
Proof.
  intros Hall. induction Hall as [|q packages Hq Hall IH].
  - exists None. cbn. split; [reflexivity|].
    split; [split; [intros _; constructor | reflexivity] | discriminate].
  - cbn [find_latest_package dict_truthy negb].
    destruct (has_type ty q) eqn:Hty.
    + destruct (find_latest_from ty packages Hall q Hty (Hq eq_refl))
        as (p & Hrun & Hp & Hnp & Hle & Hmax & Hpos).
      exists (Some p). split; [exact Hrun|]. split.
      * split; [discriminate|]. intros H. inversion H; congruence.
      * intros p' [= <-]. split; [exact Hp|].
        destruct Hpos as [-> | (before & after & -> & Hlt & Hb)].
        -- exists [], packages. cbn. repeat split; [constructor | exact Hmax].
        -- exists (q :: before), after. cbn. repeat split.
           ++ constructor; [intros _; lia | exact Hb].
           ++ apply Forall_app in Hmax as [_ Hmax]. now inversion Hmax.
    + destruct IH as (r & Hrun & Hnone & Hsome).
      exists r. split; [exact Hrun|]. split.
      * rewrite Hnone. split; [now constructor | intros H; now inversion H].
      * intros p Hr. destruct (Hsome p Hr)
          as (Hp & before & after & -> & Hb & Ha).
        split; [exact Hp|]. exists (q :: before), after. cbn.
        repeat split; [|exact Ha]. constructor; [congruence | exact Hb].
Qed.

Lemma latest_package_is_first_maximum_witness :
  let pkg (id rev : Z) (ty : string) : gmap string jv :=
    <["id" := JInt id]> (<["revision" := JInt rev]>
      (<["type" := JStr ty]> ∅)) in
  ∃ r,
    find_latest_package "standard"
      [pkg 1 3 "standard"; pkg 2 9 "linux"; pkg 3 5 "standard";
       pkg 4 5 "standard"] None = Ok r
    ∧ (r = None ↔
       Forall (fun p => has_type "standard" p = false)
         [pkg 1 3 "standard"; pkg 2 9 "linux"; pkg 3 5 "standard";
          pkg 4 5 "standard"]).
Proof.
  cbn zeta.
  match goal with
  | |- ∃ r, find_latest_package ?ty ?l None = _ ∧ _ =>
      destruct (latest_package_is_first_maximum ty l
                  ltac:(repeat constructor))
        as (r & H1 & H2 & _)
  end.
  exists r. split; [exact H1 | exact H2].
Defined.

End PackageFacts.

Module QuotingFacts.
Import PyStr Py Runtime PolygonAPI Describe Quoting Scenario.
Import RuntimeFacts PyStrFacts KeyFacts SigningFacts.

Lemma in_all_chars (c : ascii) : In c all_chars.
Proof.
  unfold all_chars. rewrite <- (ascii_nat_embedding c).
  apply List.in_map, in_seq. pose proof (nat_ascii_bounded c). lia.
Qed.

Lemma quote_plus_cons (c : ascii) (s : string) :
  quote_plus (String c s) = quote_char c +:+ quote_plus s.
Proof.
  unfold quote_char. cbn [quote_plus].
  destruct (always_safe c); [reflexivity|].
  destruct (Ascii.eqb c " "); reflexivity.
Qed.

Lemma quote_char_prefix_free (c d : ascii) :
  String.prefix (quote_char c) (quote_char d) = true → c = d.
Proof.
  assert (Hall : forallb prefix_free_at all_chars = true)
    by (vm_compute; reflexivity).
  rewrite forallb_forall in Hall. specialize (Hall c (in_all_chars c)).
  unfold prefix_free_at in Hall. rewrite forallb_forall in Hall.
  specialize (Hall d (in_all_chars d)). intros Hp. rewrite Hp in Hall.
  cbn in Hall. rewrite orb_false_r in Hall. now apply Ascii.eqb_eq.
Qed.

Lemma quote_char_nonempty (c : ascii) : nonempty (quote_char c) = true.
Proof.
  unfold quote_char. cbn [quote_plus].
  destruct (always_safe c); [reflexivity|].
  destruct (Ascii.eqb c " "); reflexivity.
Qed.

Lemma append_prefix (a b x y : string) :
  a +:+ x = b +:+ y → String.prefix a b = true ∨ String.prefix b a = true.
Proof.
  revert b. induction a as [|c a IH]; intros b H.
  - left. now destruct b.
  - destruct b as [|d b]; [right; reflexivity|].
    cbn [String.append] in H. injection H as -> H.
    cbn [String.prefix]. destruct (ascii_dec d d); [|contradiction].
    now apply IH.
Qed.

Lemma quote_char_safe (c d : ascii) :
  contains d (quote_char c) = true → quoted_char d = true.
Proof.
  assert (Hall : forallb (fun c =>
                   forallb quoted_char (list_ascii_of_string (quote_char c)))
                 all_chars = true) by (vm_compute; reflexivity).
  rewrite forallb_forall in Hall. specialize (Hall c (in_all_chars c)).
  rewrite forallb_forall in Hall. intros H. apply Hall. clear Hall.
  induction (quote_char c) as [|x s IH]; [discriminate|].
  cbn in H |- *. apply orb_true_iff in H as [H | H].
  - left. now apply Ascii.eqb_eq.
  - right. now apply IH.
Qed.

(** X22. The URL encoding of the signed parameters loses nothing and
    cannot be confused with the separators: two different texts never have
    the same encoding, and an encoded text consists of letters, digits,
    [_ . - ~], [+] and [%] only, so it has no [&], [=], [#], [?] or [/] in
    it. *)
Theorem url_encoding_is_unambiguous :
  (∀ a b, quote_plus a = quote_plus b → a = b)
  ∧ (∀ s c, contains c (quote_plus s) = true → quoted_char c = true)
  ∧ (∀ s, contains "&" (quote_plus s) = false
          ∧ contains "=" (quote_plus s) = false
          ∧ contains "#" (quote_plus s) = false
          ∧ contains "?" (quote_plus s) = false
          ∧ contains "/" (quote_plus s) = false).
Proof.
  assert (Hsafe : ∀ s c, contains c (quote_plus s) = true →
                         quoted_char c = true).
  { induction s as [|x s IH]; intros c H; [discriminate|].
    rewrite quote_plus_cons, contains_append in H.
    apply orb_true_iff in H as [H | H];
      [now apply (quote_char_safe x) | now apply IH]. }
  split; [|split; [exact Hsafe|]].
  - induction a as [|c a IH]; intros b H.
    + destruct b as [|d b]; [reflexivity|].
      rewrite quote_plus_cons in H. cbn [quote_plus] in H.
      pose proof (quote_char_nonempty d) as Hd.
      destruct (quote_char d); discriminate.
    + destruct b as [|d b].
      * rewrite quote_plus_cons in H. cbn [quote_plus] in H.
        pose proof (quote_char_nonempty c) as Hc.
        destruct (quote_char c); discriminate.
      * rewrite !quote_plus_cons in H.
        assert (Hcd : c = d).
        { destruct (append_prefix _ _ _ _ H) as [Hp | Hp];
            [|symmetry]; now apply quote_char_prefix_free. }
        subst d. apply String.app_inj in H. f_equal. now apply IH.
  - intros s.
    assert (Hno : ∀ c, quoted_char c = false →
                       contains c (quote_plus s) = false).
    { intros c Hc. destruct (contains c (quote_plus s)) eqn:E; [|reflexivity].
      apply Hsafe in E. congruence. }
    repeat split; apply Hno; reflexivity.
Qed.

Lemma contains_list (c : ascii) (l : list ascii) :
  contains c (string_of_list_ascii l) = true → In c l.
Proof.
  induction l as [|x l IH]; [discriminate|]. cbn.
  intros H. apply orb_true_iff in H as [H | H].
  - left. now apply Ascii.eqb_eq.
  - right. now apply IH.
Qed.

(** X23. A caller of [_generate_api_sig] cannot choose the key or the time
    that are signed: an [apiKey] or [time] entry among the parameters is
    replaced, so the signature is the same with or without it. The time
    returned is the one signed, and the signature starts with the nonce,
    six characters that are lower-case letters or digits. *)
Theorem signature_replaces_key_and_time
    (sha512_hexdigest : string → string)
    (e : env) (method_name : string) (params : gmap string jv) (v : jv) :
  let sign := _generate_api_sig sha512_hexdigest e method_name in
  sign (<["apiKey" := v]> params) = sign params
  ∧ sign (<["time" := v]> params) = sign params
  ∧ (sign params).2 = now e
  ∧ startswith (rand_prefix e) (sign params).1 = true
  ∧ String.length (rand_prefix e) = 6%nat
  ∧ (∀ c, contains c (rand_prefix e) = true → In c population).
Proof.
  cbn zeta. unfold _generate_api_sig. cbn [fst snd].
  split; [|split; [|split; [|split; [|split]]]].
  - now rewrite insert_insert_eq.
  - rewrite (insert_insert_ne _ "apiKey" "time") by discriminate.
    rewrite insert_insert_eq.
    now rewrite (insert_insert_ne _ "time" "apiKey") by discriminate.
  - reflexivity.
  - apply CheckerStorageFacts.startswith_append.
  - reflexivity.
  - intros c H. unfold rand_prefix in H. apply contains_list in H.
    apply List.in_map_iff in H as (k & <- & _).
    apply nth_In. change (length population) with 36%nat.
    apply Nat.mod_upper_bound. discriminate.
Qed.

End QuotingFacts.

Module OutageFacts.
Import PyStr Py Runtime StorageManager PolygonAPI Views Describe Reading Cases.
Import CacheReading RemoteReading Scenario Outage.
Import RuntimeFacts PyStrFacts UploadFacts MigrationFacts FrameFacts.
Import CheckerStorageFacts StorageFacts ClientFacts.
Local Open Scope py_scope.

(** The loop over records that all lack a side uploads nothing. *)
Lemma upload_loop_all_skipped c pk e (tcs : list pyobj) :
  Forall (fun t => text_case t = true ∧ complete t = false) tcs →
  ∀ start w,
    ∃ w',
      for_enumerate start tcs (upload_step c pk) e w = (Ok tt, w')
      ∧ storage w' = storage w
      ∧ trace w' = trace w.
Proof.
  intros Hall. induction Hall as [|t tcs [Ht Hc] _ IH]; intros start w.
  - exists w. cbn. auto.
  - destruct t as [z|d]; [discriminate|].
    cbn [for_enumerate]. unfold bind at 1, upload_step at 1.
    cbn [as_dict]. unfold bind at 1, ret at 1.
    unfold complete in Hc. cbn [input_of output_of] in Hc. rewrite Hc.
    unfold logger at 1.
    match goal with
    | |- ∃ w', for_enumerate _ _ _ _ ?w1 = _ ∧ _ =>
        destruct (IH (start + 1) w1) as (w' & Hrun & Hs & Htr)
    end.
    exists w'. split; [exact Hrun|]. cbn [storage trace] in *. auto.
Qed.

(** The resolution of the test cases when the cache has nothing. *)
Lemma resolve_after_miss pid testset e w tests :
  (get_test_cases_from_redis pid e w).1 = Ok None →
  problem_tests (remote e) pid testset = Ok tests →
  Forall (fun test => is_Some (test !! "index")) tests →
  ∃ l w1,
    resolve_test_cases pid testset e w = (Ok l, w1)
    ∧ Forall2 (fun test t =>
                 text_case t = true
                 ∧ test !! "index" = Some (index_of t)
                 ∧ complete t
                   = fetched_both (remote e) pid testset (index_of t))
              tests l
    ∧ storage w1 = storage w.
Proof.
  intros Hmiss Htests Hidx.
  pose proof (keeps_resolve pid testset e w) as Hk.
  unfold resolve_test_cases in *. unfold bind at 1 in Hk. unfold bind at 1.
  destruct (get_test_cases_from_redis pid e w) as [r u].
  cbn [fst] in Hmiss. subst r.
  unfold bind at 1 in Hk. unfold bind at 1. cbv [logger] in Hk |- *.
  unfold bind at 1 in Hk. unfold bind at 1.
  unfold get_all_test_cases at 1 in Hk. unfold get_all_test_cases at 1.
  cbv [request emit] in Hk |- *. unfold bind at 1 2 in Hk.
  unfold bind at 1 2. rewrite Htests in Hk |- *.
  match goal with
  | |- context [fetch_test_cases pid testset tests [] e ?w0] =>
      destruct (fetch_test_cases_run pid testset e tests Hidx [] w0)
        as (l & w2 & Hl & Hf & _)
  end.
  rewrite Hl in Hk |- *. cbn [app] in Hk |- *.
  unfold bind in Hk |- *.
  pose proof (proj1 (cache_operations_never_raise_aux pid l 1800 e w2)) as Hs.
  destruct (store_test_cases_in_redis pid l 1800 e w2) as [[[]|x] w3];
    [|discriminate Hs].
  exists l, w3. cbn [snd] in Hk. auto.
Qed.

(** X24. A migration can empty a problem and still complete. When the
    cache has no entry and the API lists the tests but every request for
    their texts fails, each record comes back with empty sides, so after
    the purge no test case is uploaded: checker handling starts from a
    storage that holds nothing under the problem's prefix, the objects of
    an earlier migration are gone, and at the end the only objects under
    the prefix are checker objects. *)
Theorem unfetched_texts_empty_the_problem
    (pid c : string) (db : option Z) (testset : string)
    (tests : list (gmap string jv)) (e : env) (w : world) :
  (get_test_cases_from_redis pid e w).1 = Ok None →
  problem_tests (remote e) pid testset = Ok tests →
  Forall (fun test => is_Some (test !! "index")) tests →
  (∀ idx, fetched_both (remote e) pid testset idx = false) →
  storage_configured e = true → purge_fails e = false →
  let pk := problem_id_for_naming pid db in
  let run := migrate_to_cloud_storage pid c db testset e w in
  (∃ w2,
     run = upload_custom_checker_to_storage pid c db e w2
     ∧ ∀ key, startswith (problem_prefix pk) key = true →
              storage w2 !! (c, key) = None)
  ∧ (∀ key, startswith (problem_prefix pk) key = true →
       is_Some (storage run.2 !! (c, key)) →
       key = checker_source_path pk ∨ key = checker_binary_path e pk)
  ∧ (∀ n, storage run.2 !! (c, Naming.input_key pk n) = None
          ∧ storage run.2 !! (c, Naming.output_key pk n) = None).
Proof.
  intros Hmiss Htests Hidx Hdown Hcfg Hpurge. cbn zeta.
  set (pk := problem_id_for_naming pid db).
  destruct (resolve_after_miss pid testset e w tests Hmiss Htests Hidx)
    as (l & w1 & Hres & Hf & Hs1).
  assert (Hl : Forall (fun t => text_case t = true ∧ complete t = false) l).
  { clear - Hf Hdown.
    induction Hf as [|test t tests' l' (Ht & _ & Hc) _ IH];
      constructor; [|exact IH].
    split; [exact Ht|]. now rewrite Hc. }
  destruct (upload_loop_all_skipped c pk e l Hl 1 (after_purge c pk w1))
    as (w2 & Hloop & Hs2 & _).
  assert (Hrun : migrate_to_cloud_storage pid c db testset e w
                 = upload_custom_checker_to_storage pid c db e w2).
  { unfold migrate_to_cloud_storage.
    rewrite (bind_ok _ _ _ _ _ _ Hres).
    rewrite (bind_ok _ _ _ _ _ _ (get_storage_manager_ok _ _ Hcfg)).
    rewrite (bind_ok _ _ _ _ _ _ (empty_blob_ok _ _ _ _ Hpurge)).
    fold pk. now rewrite (bind_ok _ _ _ _ _ _ Hloop). }
  assert (Hempty : ∀ key, startswith (problem_prefix pk) key = true →
                          storage w2 !! (c, key) = None).
  { intros key Hkey. rewrite Hs2. apply purged_lookup.
    unfold under_prefix. cbn [fst snd]. rewrite String.eqb_refl. exact Hkey. }
  pose proof (upload_custom_checker_outcome pid c db e w2) as Hck.
  fold pk in Hck. rewrite <- Hrun in Hck.
  assert (Hafter : ∀ key, startswith (problem_prefix pk) key = true →
            is_Some (storage (migrate_to_cloud_storage pid c db testset e w).2
                       !! (c, key)) →
            key = checker_source_path pk ∨ key = checker_binary_path e pk).
  { intros key Hkey Hsome.
    destruct (string_dec key (checker_source_path pk)) as [->|Hs]; [auto|].
    destruct (string_dec key (checker_binary_path e pk)) as [->|Hb]; [auto|].
    rewrite (checker_write_lookup _ _ _ _ _ _ Hck) in Hsome
      by (intros E; apply (f_equal snd) in E; cbn [snd] in E; congruence).
    rewrite Hempty in Hsome by exact Hkey. now destruct Hsome. }
  split; [exists w2; split; [exact Hrun | exact Hempty]|].
  split; [exact Hafter|].
  intros n. destruct (case_keys_under_prefix c pk n) as [Hi Ho].
  unfold under_prefix in Hi, Ho. cbn [fst snd] in Hi, Ho.
  rewrite String.eqb_refl in Hi, Ho. cbn [andb] in Hi, Ho.
  destruct (test_keys_not_checker_source pk n) as [Hs1' Hs2'].
  destruct (test_keys_not_checker_binary e pk n) as [Hb1 Hb2].
  split.
  - destruct (storage (migrate_to_cloud_storage pid c db testset e w).2
                !! (c, Naming.input_key pk n)) as [v|] eqn:E; [|reflexivity].
    destruct (Hafter _ Hi) as [H | H]; [rewrite E; now eexists | |];
      congruence.
  - destruct (storage (migrate_to_cloud_storage pid c db testset e w).2
                !! (c, Naming.output_key pk n)) as [v|] eqn:E; [|reflexivity].
    destruct (Hafter _ Ho) as [H | H]; [rewrite E; now eexists | |];
      congruence.
Qed.

Lemma unfetched_texts_empty_the_problem_witness :
  let e := with_remote remote_texts_down env_three in
  let run :=
    migrate_to_cloud_storage "123" "bucket" (Some 7) "tests" e
      world_after_earlier_run in
  storage world_after_earlier_run !! ("bucket", "test_cases/7/01") = Some "5"
  ∧ storage run.2 !! ("bucket", Naming.input_key "7" 1) = None
  ∧ storage run.2 !! ("bucket", Naming.output_key "7" 1) = None.
Proof.
  split; [reflexivity|].
  refine (proj2 (proj2
    (unfetched_texts_empty_the_problem "123" "bucket" (Some 7) "tests"
       [listed 1; listed 2; listed 3]
       (with_remote remote_texts_down env_three) world_after_earlier_run
       _ eq_refl _ (fun _ => eq_refl) eq_refl eq_refl)) 1).
  - vm_compute. reflexivity.
  - repeat (constructor; [eexists; vm_compute; reflexivity|]). constructor.
Defined.

End OutageFacts.

Module DriveFacts.
Import PyStr Py Drive.
Import RuntimeFacts PyStrFacts KeyFacts.

Lemma extends_refl d : extends d d.
Proof. exists []. now rewrite app_nil_r. Qed.

Lemma extends_trans d1 d2 d3 : extends d1 d2 → extends d2 d3 → extends d1 d3.
Proof.
  intros [m1 H1] [m2 H2]. exists (m1 ++ m2). now rewrite H2, H1, app_assoc.
Qed.

Lemma list_files_app nm fo p fs1 fs2 n1 n2 n3 :
  list_files nm fo p {| files := fs1 ++ fs2; next_id := n1 |}
  = list_files nm fo p {| files := fs1; next_id := n2 |}
    ++ list_files nm fo p {| files := fs2; next_id := n3 |}.
Proof. unfold list_files. cbn [files]. apply List.filter_app. Qed.

Lemma list_files_eq nm fo p d d' :
  files d = files d' → list_files nm fo p d = list_files nm fo p d'.
Proof. unfold list_files. now intros ->. Qed.

(** What a call of [_get_or_create_folder] with a parent to create in
    does. *)
Lemma get_or_create_outcome root nm p q d :
  match p with Some p' => Some p' | None => root end = Some q →
  ∃ i d',
    _get_or_create_folder root nm p d = (Ok i, d')
    ∧ ((d' = d
        ∧ ∃ f rest, list_files nm true (Some q) d = f :: rest
                    ∧ file_id f = i)
       ∨ (list_files nm true (Some q) d = []
          ∧ i = next_id d
          ∧ d' = {| files :=
                      files d ++
                      [{| file_id := next_id d; name := nm; parent := Some q;
                          is_folder := true; body := "" |}];
                    next_id := S (next_id d) |})).
Proof.
  intros Hq. unfold _get_or_create_folder. rewrite Hq.
  destruct (list_files nm true (Some q) d) as [|f rest] eqn:E.
  - do 2 eexists. split; [reflexivity|]. right. auto.
  - do 2 eexists. split; [reflexivity|]. left. split; [reflexivity|].
    now exists f, rest.
Qed.

(** The folder found or created is found again, by the same call, on any
    later drive that has only gained files. *)
Lemma get_or_create_again root nm p q d i d' :
  match p with Some p' => Some p' | None => root end = Some q →
  _get_or_create_folder root nm p d = (Ok i, d') →
  ∀ d2, extends d' d2 → _get_or_create_folder root nm p d2 = (Ok i, d2).
Proof.
  intros Hq Hrun d2 [more Hext].
  destruct (get_or_create_outcome root nm p q d Hq)
    as (i0 & d0 & Hrun0 & Hcase).
  rewrite Hrun in Hrun0. injection Hrun0 as <- <-.
  unfold _get_or_create_folder. rewrite Hq.
  assert (Hfirst : ∃ f rest, list_files nm true (Some q) d2 = f :: rest
                             ∧ file_id f = i).
  { destruct Hcase as [(-> & f & rest & Hl & Hf) | (Hl & -> & ->)].
    - exists f, (rest ++ list_files nm true (Some q)
                          {| files := more; next_id := 0 |}).
      split; [|exact Hf].
      rewrite (list_files_eq _ _ _ d2
                 {| files := files d ++ more; next_id := 0 |}) by exact Hext.
      rewrite (list_files_app _ _ _ _ _ _ (next_id d) 0).
      rewrite (list_files_eq _ _ _ {| files := files d; next_id := next_id d |} d)
        by reflexivity.
      now rewrite Hl.
    - cbn [files] in Hext.
      exists {| file_id := next_id d; name := nm; parent := Some q;
                is_folder := true; body := "" |},
             (list_files nm true (Some q) {| files := more; next_id := 0 |}).
      split; [|reflexivity].
      rewrite (list_files_eq _ _ _ d2
                 {| files := (files d ++ [_]) ++ more; next_id := 0 |})
        by exact Hext.
      rewrite (list_files_app _ _ _ _ _ _ 0 0).
      rewrite (list_files_app _ _ _ _ _ _ (next_id d) 0).
      rewrite (list_files_eq _ _ _ {| files := files d; next_id := next_id d |} d)
        by reflexivity.
      rewrite Hl. unfold list_files at 1. cbn [files List.filter name is_folder
        parent has_parent implb andb app].
      rewrite String.eqb_refl, Nat.eqb_refl. cbn [andb app]. reflexivity. }
  destruct Hfirst as (f & rest & -> & <-). reflexivity.
Qed.

Lemma get_or_create_extends root nm p q d i d' :
  match p with Some p' => Some p' | None => root end = Some q →
  _get_or_create_folder root nm p d = (Ok i, d') →
  extends d d'
  ∧ (next_id d ≤ next_id d')%nat
  ∧ ∀ file_name, files_named file_name d' = files_named file_name d.
Proof.
  intros Hq Hrun.
  destruct (get_or_create_outcome root nm p q d Hq)
    as (i0 & d0 & Hrun0 & Hcase).
  rewrite Hrun in Hrun0. injection Hrun0 as <- <-.
  destruct Hcase as [(-> & _) | (_ & _ & ->)].
  - split; [apply extends_refl|]. split; [lia | reflexivity].
  - split; [eexists; reflexivity|]. cbn [next_id]. split; [lia|].
    intros file_name. unfold files_named. cbn [files].
    rewrite List.filter_app. cbn. now rewrite app_nil_r.
Qed.

(** One upload, taken apart. *)
Lemma upload_run root r c pk n (i o : string) d :
  root = Some r →
  ∃ container_folder test_cases_folder problem_folder d3,
    _get_or_create_folder root c None d = (Ok container_folder, d3.1.1)
    ∧ _get_or_create_folder root "test_cases" (Some container_folder) d3.1.1
      = (Ok test_cases_folder, d3.1.2)
    ∧ _get_or_create_folder root pk (Some test_cases_folder) d3.1.2
      = (Ok problem_folder, d3.2)
    ∧ upload_test_case root c pk n (JStr i) (JStr o) d =
        (Ok tt,
         {| files :=
              files d3.2 ++
              [{| file_id := next_id d3.2; name := format_02d n;
                  parent := Some problem_folder; is_folder := false;
                  body := i |};
               {| file_id := S (next_id d3.2);
                  name := format_02d n +:+ ".a";
                  parent := Some problem_folder; is_folder := false;
                  body := o |}];
            next_id := S (S (next_id d3.2)) |}).
Proof.
  intros ->.
  destruct (get_or_create_outcome (Some r) c None r d eq_refl)
    as (cf & d1 & H1 & _).
  destruct (get_or_create_outcome (Some r) "test_cases" (Some cf) cf d1 eq_refl)
    as (tf & d2 & H2 & _).
  destruct (get_or_create_outcome (Some r) pk (Some tf) tf d2 eq_refl)
    as (pf & d3 & H3 & _).
  exists cf, tf, pf, ((d1, d2), d3). cbn [fst snd].
  split; [exact H1|]. split; [exact H2|]. split; [exact H3|].
  unfold upload_test_case, reraising, dbind.
  rewrite H1, H2, H3. cbn [encode]. unfold dret, create. cbn [files next_id].
  now rewrite <- app_assoc.
Qed.

Lemma output_name_differs (n : Z) :
  String.eqb (format_02d n +:+ ".a") (format_02d n) = false.
Proof.
  apply String.eqb_neq. intros E.
  apply (f_equal String.length) in E. rewrite length_append in E.
  cbn in E. lia.
Qed.

(** X25. On Google Drive an upload never replaces a file. With a root
    folder configured an upload of a test case succeeds and adds two new
    files to the problem folder; a second upload of the same test number
    adds two more to the same folder, so the folder then holds both
    inputs under one name. Folders are reused: [_get_or_create_folder]
    returns the folder it found or created on every later call and creates
    nothing then. *)
Theorem drive_upload_adds_files
    (root : option nat) (r : nat) (c pk : string) (n : Z)
    (i1 o1 i2 o2 : string) (d : drive) :
  root = Some r →
  let u1 := upload_test_case root c pk n (JStr i1) (JStr o1) d in
  let u2 := upload_test_case root c pk n (JStr i2) (JStr o2) u1.2 in
  u1.1 = Ok tt ∧ u2.1 = Ok tt
  ∧ (∃ f1 f2,
       files_named (format_02d n) u2.2
       = files_named (format_02d n) d ++ [f1; f2]
       ∧ body f1 = i1 ∧ body f2 = i2
       ∧ parent f1 = parent f2 ∧ file_id f1 ≠ file_id f2)
  ∧ (∀ nm p q d0 i d',
       match p with Some p' => Some p' | None => root end = Some q →
       _get_or_create_folder root nm p d0 = (Ok i, d') →
       _get_or_create_folder root nm p d' = (Ok i, d')).
Proof.
  intros Hroot. cbn zeta.
  destruct (upload_run root r c pk n i1 o1 d Hroot)
    as (cf & tf & pf & [[d1 d2] d3] & H1 & H2 & H3 & Hu1).
  cbn [fst snd] in *. rewrite Hu1. cbn [fst snd].
  set (u := {| files := files d3 ++ _; next_id := _ |}) in *.
  destruct (upload_run root r c pk n i2 o2 u Hroot)
    as (cf' & tf' & pf' & [[e1 e2] e3] & G1 & G2 & G3 & Hu2).
  cbn [fst snd] in *.
  assert (Hq0 : match @None nat with Some p' => Some p' | None => root end
                = Some r) by exact Hroot.
  destruct (get_or_create_extends root c None r d cf d1 Hq0 H1)
    as (X1 & N1 & F1).
  destruct (get_or_create_extends root "test_cases" (Some cf) cf d1 tf d2
              eq_refl H2) as (X2 & N2 & F2).
  destruct (get_or_create_extends root pk (Some tf) tf d2 pf d3 eq_refl H3)
    as (X3 & N3 & F3).
  assert (Xu : extends d3 u) by (eexists; reflexivity).
  rewrite (get_or_create_again root c None r d cf d1 Hq0 H1 u) in G1
    by (eapply extends_trans; [exact X2|];
        eapply extends_trans; [exact X3 | exact Xu]).
  injection G1 as <- <-.
  rewrite (get_or_create_again root "test_cases" (Some cf) cf d1 tf d2
             eq_refl H2 u) in G2
    by (eapply extends_trans; [exact X3 | exact Xu]).
  injection G2 as <- <-.
  rewrite (get_or_create_again root pk (Some tf) tf d2 pf d3 eq_refl H3 u Xu)
    in G3.
  injection G3 as <- <-.
  rewrite Hu2. cbn [fst snd].
  split; [reflexivity|]. split; [reflexivity|]. split.
  - do 2 eexists. split; [|split; [|split; [|split]]].
    + unfold files_named. cbn [files]. unfold u. cbn [files].
      rewrite !List.filter_app. cbn [List.filter is_folder name negb andb].
      rewrite !String.eqb_refl, !output_name_differs. cbn [app].
      fold (files_named (format_02d n) d3).
      rewrite F3, F2, F1. rewrite <- app_assoc. reflexivity.
    + reflexivity.
    + reflexivity.
    + reflexivity.
    + cbn [file_id]. unfold u. cbn [next_id]. lia.
  - intros nm p q d0 i d' Hq Hrun.
    apply (get_or_create_again root nm p q d0 i d' Hq Hrun d').
    apply extends_refl.
Qed.

Lemma drive_upload_adds_files_witness :
  let u1 := upload_test_case (Some 0%nat) "bucket" "7" 1 (JStr "old")
              (JStr "old out") empty_drive in
  let u2 := upload_test_case (Some 0%nat) "bucket" "7" 1 (JStr "new")
              (JStr "new out") u1.2 in
  ∃ f1 f2,
    files_named (format_02d 1) u2.2
    = files_named (format_02d 1) empty_drive ++ [f1; f2]
    ∧ body f1 = "old" ∧ body f2 = "new"
    ∧ parent f1 = parent f2 ∧ file_id f1 ≠ file_id f2.
Proof.
  exact (proj1 (proj2 (proj2
    (drive_upload_adds_files (Some 0%nat) 0 "bucket" "7" 1
       "old" "old out" "new" "new out" empty_drive eq_refl)))).
Defined.

End DriveFacts.

Module DrivePurgeFacts.
Import PyStr Py Drive.
Import RuntimeFacts PyStrFacts KeyFacts DriveFacts.

Lemma filter_filter {A} (p q : A → bool) (l : list A) :
  List.filter q (List.filter p l) = List.filter (fun x => p x && q x) l.
Proof.
  induction l as [|x l IH]; [reflexivity|]. cbn.
  destruct (p x); cbn; [destruct (q x); now rewrite IH | exact IH].
Qed.

Lemma filter_comm {A} (p q : A → bool) (l : list A) :
  List.filter q (List.filter p l) = List.filter p (List.filter q l).
Proof.
  rewrite !filter_filter. apply List.filter_ext. intros x. apply andb_comm.
Qed.

Lemma Forall_filter {A} (P : A → Prop) (p : A → bool) (l : list A) :
  Forall P l → Forall P (List.filter p l).
Proof.
  intros H. apply List.Forall_forall. intros x Hx.
  apply List.filter_In in Hx as [Hx _].
  rewrite List.Forall_forall in H. now apply H.
Qed.

Lemma filter_none {A} (p : A → bool) (l : list A) :
  (∀ x, In x l → p x = false) → List.filter p l = [].
Proof.
  induction l as [|x l IH]; intros H; [reflexivity|]. cbn.
  rewrite (H x) by now left. apply IH. intros y Hy. apply H. now right.
Qed.

Lemma existsb_eqb_In (i : nat) (ids : list nat) :
  existsb (Nat.eqb i) ids = true ↔ In i ids.
Proof.
  rewrite existsb_exists. split.
  - intros (j & Hj & E). apply Nat.eqb_eq in E. now subst.
  - intros H. exists i. split; [exact H | apply Nat.eqb_refl].
Qed.

Lemma NoDup_cons_In {A} (x : A) (l : list A) :
  NoDup (x :: l) ↔ ¬ In x l ∧ NoDup l.
Proof. rewrite NoDup_cons, list_elem_of_In. reflexivity. Qed.

Lemma same_id_same_file (fs : list drive_file) (f g : drive_file) :
  NoDup (map file_id fs) → In f fs → In g fs → file_id f = file_id g → f = g.
Proof.
  induction fs as [|x fs IH]; intros Hnd Hf Hg E; [destruct Hf|].
  cbn [map] in Hnd. apply NoDup_cons_In in Hnd as [Hx Hnd].
  destruct Hf as [-> | Hf], Hg as [-> | Hg].
  - reflexivity.
  - exfalso. apply Hx. rewrite E. now apply List.in_map.
  - exfalso. apply Hx. rewrite <- E. now apply List.in_map.
  - now apply IH.
Qed.

Lemma NoDup_map_filter {A B} (h : A → B) (p : A → bool) (l : list A) :
  NoDup (map h l) → NoDup (map h (List.filter p l)).
Proof.
  induction l as [|x l IH]; intros H; [exact H|].
  cbn [map] in H. apply NoDup_cons_In in H as [Hx H].
  cbn [List.filter]. destruct (p x); [|now apply IH].
  cbn [map]. apply NoDup_cons_In. split; [|now apply IH].
  intros Hin. apply Hx. apply List.in_map_iff in Hin as (y & E & Hy).
  apply List.filter_In in Hy as [Hy _]. rewrite <- E. now apply List.in_map.
Qed.

(** A deletion keeps the order of what it leaves and takes the files asked
    for. When these are younger than [b], it leaves every file that is not
    younger than [b], and what it takes besides them is in a folder
    younger than [b]. *)
Lemma remove_tree_filter (b : nat) (fuel : nat) :
  ∀ ids fs,
    (∀ j, In j ids → (b < j)%nat) →
    Forall after_parent fs →
    NoDup (map file_id fs) →
    ∃ keep,
      remove_tree fuel ids fs = List.filter keep fs
      ∧ (∀ f, (file_id f ≤ b)%nat → keep f = true)
      ∧ (∀ f, In (file_id f) ids → keep f = false)
      ∧ (∀ f, In f fs → keep f = false →
           In (file_id f) ids ∨ ∃ p, parent f = Some p ∧ (b < p)%nat).
Proof.
  induction fuel as [|fuel IH]; intros ids fs Hids Hwf Hnd.
  - exists (fun f => negb (existsb (Nat.eqb (file_id f)) ids)).
    cbn [remove_tree]. split; [reflexivity|]. split; [|split].
    + intros f Hf. apply negb_true_iff.
      destruct (existsb (Nat.eqb (file_id f)) ids) eqn:E; [|reflexivity].
      apply existsb_eqb_In, Hids in E. lia.
    + intros f Hf. apply negb_false_iff. now apply existsb_eqb_In.
    + intros f _ Hf. left. apply negb_false_iff in Hf.
      now apply existsb_eqb_In.
  - cbn [remove_tree].
    set (keep1 := fun f => negb (existsb (Nat.eqb (file_id f)) ids)).
    set (fs' := List.filter keep1 fs).
    set (inside := List.filter
                     (fun f => existsb (fun p => has_parent p f) ids) fs').
    assert (Hk1 : ∀ f, (file_id f ≤ b)%nat → keep1 f = true).
    { intros f Hf. apply negb_true_iff.
      destruct (existsb (Nat.eqb (file_id f)) ids) eqn:E; [|reflexivity].
      apply existsb_eqb_In, Hids in E. lia. }
    assert (Hk1' : ∀ f, In (file_id f) ids → keep1 f = false).
    { intros f Hf. apply negb_false_iff. now apply existsb_eqb_In. }
    assert (Hk1'' : ∀ f, keep1 f = false → In (file_id f) ids).
    { intros f Hf. apply negb_false_iff in Hf. now apply existsb_eqb_In. }
    destruct inside as [|g inside'] eqn:Ein.
    + exists keep1. split; [reflexivity|]. split; [exact Hk1|].
      split; [exact Hk1'|]. intros f _ Hf. left. now apply Hk1''.
    + assert (Hwf' : Forall after_parent fs') by now apply Forall_filter.
      assert (Hnd' : NoDup (map file_id fs')) by now apply NoDup_map_filter.
      assert (Hins : ∀ h, In h (g :: inside') →
                In h fs' ∧ ∃ p, parent h = Some p ∧ In p ids).
      { intros h Hh. rewrite <- Ein in Hh.
        apply List.filter_In in Hh as [Hh Hp]. split; [exact Hh|].
        apply existsb_exists in Hp as (p & Hp & Hhp).
        unfold has_parent in Hhp.
        destruct (parent h) as [q|]; [|discriminate].
        apply Nat.eqb_eq in Hhp. subst q. now exists p. }
      destruct (IH (map file_id (g :: inside')) fs')
        as (keep2 & Hr & Hb & Hd & Hwhy).
      * intros j Hj. apply List.in_map_iff in Hj as (h & <- & Hh).
        destruct (Hins h Hh) as (Hh' & p & Hp & Hpi).
        rewrite List.Forall_forall in Hwf'. specialize (Hwf' h Hh').
        unfold after_parent in Hwf'. rewrite Hp in Hwf'.
        specialize (Hids p Hpi). lia.
      * exact Hwf'.
      * exact Hnd'.
      * exists (fun f => keep1 f && keep2 f). split; [|split; [|split]].
        -- rewrite Hr. unfold fs'. apply filter_filter.
        -- intros f Hf. now rewrite Hk1, Hb.
        -- intros f Hf. now rewrite Hk1'.
        -- intros f Hf Hk. destruct (keep1 f) eqn:E1.
           ++ cbn [andb] in Hk.
              assert (Hf' : In f fs')
                by (apply List.filter_In; split; [exact Hf | exact E1]).
              destruct (Hwhy f Hf' Hk) as [Hin | Hpar]; [|now right].
              right. apply List.in_map_iff in Hin as (h & E & Hh).
              destruct (Hins h Hh) as (Hh' & p & Hp & Hpi).
              assert (h = f)
                by (apply (same_id_same_file fs'); assumption).
              subst h. exists p. split; [exact Hp | now apply Hids].
           ++ left. now apply Hk1''.
Qed.

(** The items found in a folder can be deleted one after the other: each
    is still there when its turn comes. *)
Lemma delete_all_filter (b : nat) (found : list drive_file) :
  (∀ f, In f found → parent f = Some b) →
  NoDup (map file_id found) →
  ∀ d, Forall after_parent (files d) → NoDup (map file_id (files d)) →
    (∀ f, In f found → In f (files d)) →
    ∃ keep,
      delete_all found d =
        (Ok tt, {| files := List.filter keep (files d);
                   next_id := next_id d |})
      ∧ (∀ f, (file_id f ≤ b)%nat → keep f = true)
      ∧ (∀ f, In (file_id f) (map file_id found) → keep f = false).
Proof.
  induction found as [|g found IH]; intros Hb Hndf d Hwf Hnd Hthere.
  - exists (fun _ => true). cbn [delete_all]. unfold dret. split; [|split].
    + f_equal. destruct d as [fs n]. cbn [files next_id]. f_equal.
      clear. induction fs as [|x fs IHfs]; [reflexivity|].
      cbn [List.filter]. f_equal. exact IHfs.
    + reflexivity.
    + intros f [].
  - cbn [delete_all]. unfold dbind, delete.
    assert (Hyoung : ∀ f, In f (g :: found) → (b < file_id f)%nat).
    { intros f Hf. specialize (Hb f Hf).
      rewrite List.Forall_forall in Hwf. specialize (Hwf f (Hthere f Hf)).
      unfold after_parent in Hwf. now rewrite Hb in Hwf. }
    assert (Hg : existsb (fun f => Nat.eqb (file_id f) (file_id g)) (files d)
                 = true).
    { apply existsb_exists. exists g. split; [|apply Nat.eqb_refl].
      apply Hthere. now left. }
    rewrite Hg.
    destruct (remove_tree_filter b (length (files d)) [file_id g] (files d))
      as (keep1 & Hr & Hk & Hd & Hwhy); [|exact Hwf|exact Hnd|].
    { intros j [<- | []]. apply Hyoung. now left. }
    rewrite Hr.
    cbn [map] in Hndf. apply NoDup_cons_In in Hndf as [Hgf Hndf].
    destruct (IH (fun f Hf => Hb f (or_intror Hf)) Hndf
                {| files := List.filter keep1 (files d);
                   next_id := next_id d |})
      as (keep2 & Hrun & Hk2 & Hd2).
    { cbn [files]. now apply Forall_filter. }
    { cbn [files]. now apply NoDup_map_filter. }
    { cbn [files]. intros h Hh. apply List.filter_In.
      assert (Hin : In h (files d)) by (apply Hthere; now right).
      split; [exact Hin|].
      destruct (keep1 h) eqn:E; [reflexivity|]. exfalso.
      destruct (Hwhy h Hin E) as [[Eid | []] | (p & Hp & Hlt)].
      - apply Hgf. rewrite Eid. now apply List.in_map.
      - rewrite (Hb h (or_intror Hh)) in Hp. injection Hp as <-. lia. }
    exists (fun f => keep1 f && keep2 f). rewrite Hrun. cbn [files next_id].
    split; [|split].
    + now rewrite filter_filter.
    + intros f Hf. now rewrite Hk, Hk2.
    + intros f [E | Hf].
      * rewrite (Hd f); [reflexivity|]. left. exact E.
      * rewrite (Hd2 f Hf). apply andb_false_r.
Qed.

(** [_get_or_create_folder] on a well-formed drive. *)
Lemma get_or_create_well_formed root nm p q d i d' :
  match p with Some p' => Some p' | None => root end = Some q →
  well_formed d → (q < next_id d)%nat →
  _get_or_create_folder root nm p d = (Ok i, d') →
  well_formed d' ∧ (next_id d ≤ next_id d')%nat ∧ (q < i < next_id d')%nat
  ∧ ∃ f rest, list_files nm true (Some q) d' = f :: rest ∧ file_id f = i.
Proof.
  intros Hq Hwf Hlt Hrun.
  destruct (get_or_create_outcome root nm p q d Hq)
    as (i0 & d0 & Hrun0 & Hcase).
  rewrite Hrun in Hrun0. injection Hrun0 as <- <-.
  destruct Hcase as [(-> & f & rest & Hl & Hf) | (Hl & -> & ->)].
  - split; [exact Hwf|]. split; [lia|].
    assert (Hin : In f (list_files nm true (Some q) d))
      by (rewrite Hl; now left).
    unfold list_files in Hin. apply List.filter_In in Hin as [Hin Hp].
    apply andb_true_iff in Hp as [_ Hp]. unfold has_parent in Hp.
    destruct Hwf as [Hwf _]. rewrite List.Forall_forall in Hwf.
    destruct (Hwf f Hin) as [H1 H2]. unfold after_parent in H2.
    destruct (parent f) as [q'|]; [|discriminate].
    apply Nat.eqb_eq in Hp. subst q'. split; [lia|]. now exists f, rest.
  - cbn [next_id files]. split; [|split; [lia | split; [lia|]]].
    + destruct Hwf as [Hwf Hnd]. split; cbn [files next_id].
      * apply Forall_app. split.
        -- eapply List.Forall_impl; [|exact Hwf]. intros f [H1 H2].
           split; [lia | exact H2].
        -- constructor; [|constructor]. cbn. split; lia.
      * rewrite List.map_app. cbn [map file_id].
        apply NoDup_app. split; [exact Hnd|]. split.
        -- intros j Hj ->%list_elem_of_singleton.
           apply list_elem_of_In, List.in_map_iff in Hj as (f & E & Hf).
           rewrite List.Forall_forall in Hwf. destruct (Hwf f Hf) as [H1 _].
           lia.
        -- apply NoDup_singleton.
    + exists {| file_id := next_id d; name := nm; parent := Some q;
                is_folder := true; body := "" |}, [].
      split; [|reflexivity].
      rewrite (list_files_app _ _ _ _ _ _ (next_id d) 0).
      rewrite (list_files_eq _ _ _ {| files := files d; next_id := next_id d |} d)
        by reflexivity.
      rewrite Hl. unfold list_files. cbn [files List.filter name is_folder
        parent has_parent implb andb app].
      rewrite String.eqb_refl, Nat.eqb_refl. reflexivity.
Qed.

Lemma get_or_create_found root nm p q d f rest :
  match p with Some p' => Some p' | None => root end = Some q →
  list_files nm true (Some q) d = f :: rest →
  _get_or_create_folder root nm p d = (Ok (file_id f), d).
Proof. intros Hq Hl. unfold _get_or_create_folder. now rewrite Hq, Hl. Qed.

Lemma list_files_filter nm fo p keep fs n n' :
  list_files nm fo p {| files := List.filter keep fs; next_id := n |}
  = List.filter keep (list_files nm fo p {| files := fs; next_id := n' |}).
Proof. unfold list_files. cbn [files]. apply filter_comm. Qed.

(** X26. On Google Drive a purge followed by an upload leaves the problem
    folder with the new files only. On a drive where identifiers are not
    shared, every file is younger than its folder and a root folder is
    configured, [empty_blob] succeeds and removes
    every item of the problem's name in the [test_cases] folder; the
    upload that follows finds the container and [test_cases] folders
    again, creates a new problem folder and puts the input and the output
    there, so that folder holds exactly these two files. *)
Theorem drive_purge_then_upload
    (root : option nat) (r : nat) (c pk : string) (n : Z) (i o : string)
    (d : drive) :
  root = Some r → well_formed d → (r < next_id d)%nat →
  let purge := empty_blob root c pk d in
  let upload := upload_test_case root c pk n (JStr i) (JStr o) purge.2 in
  purge.1 = Ok tt ∧ upload.1 = Ok tt
  ∧ ∃ test_cases_folder problem_folder,
      list_files pk false (Some test_cases_folder) purge.2 = []
      ∧ map file_id (list_files pk false (Some test_cases_folder) upload.2)
        = [problem_folder]
      ∧ listing problem_folder upload.2
        = [(format_02d n, i); (format_02d n +:+ ".a", o)].
Proof.
  intros Hroot Hwf Hr. cbn zeta.
  assert (Hq0 : match @None nat with Some p' => Some p' | None => root end
                = Some r) by exact Hroot.
  destruct (get_or_create_outcome root c None r d Hq0)
    as (cf & d1 & H1 & _).
  destruct (get_or_create_well_formed root c None r d cf d1 Hq0 Hwf Hr H1)
    as (Hwf1 & Hn1 & Hcf & fc & restc & Hlc & Hfc).
  destruct (get_or_create_outcome root "test_cases" (Some cf) cf d1 eq_refl)
    as (tf & d2 & H2 & _).
  destruct (get_or_create_well_formed root "test_cases" (Some cf) cf d1 tf d2
              eq_refl Hwf1 ltac:(lia) H2)
    as (Hwf2 & Hn2 & Htf & ft & restt & Hlt & Hft).
  destruct (get_or_create_extends root "test_cases" (Some cf) cf d1 tf d2
              eq_refl H2) as ([more Hext] & _ & _).
  set (found := list_files pk false (Some tf) d2).
  assert (Hfound : ∀ f, In f found → parent f = Some tf).
  { intros f Hf. unfold found, list_files in Hf.
    apply List.filter_In in Hf as [Hin Hp].
    apply andb_true_iff in Hp as [_ Hp]. unfold has_parent in Hp.
    destruct (parent f) as [q|]; [|discriminate].
    apply Nat.eqb_eq in Hp. now subst q. }
  assert (Hap : Forall after_parent (files d2)).
  { eapply List.Forall_impl; [|exact (proj1 Hwf2)]. now intros f [_ H]. }
  assert (Hthere : ∀ f, In f found → In f (files d2)).
  { intros f Hf. unfold found, list_files in Hf.
    now apply List.filter_In in Hf as [Hin _]. }
  destruct (delete_all_filter tf found Hfound
              (NoDup_map_filter _ _ _ (proj2 Hwf2)) d2 Hap (proj2 Hwf2) Hthere)
    as (keep & Hdel & Hkeep & Hgone).
  set (d3 := {| files := List.filter keep (files d2); next_id := next_id d2 |})
    in *.
  assert (Hpurge : empty_blob root c pk d = (Ok tt, d3)).
  { unfold empty_blob, reraising, dbind. rewrite H1, H2. exact Hdel. }
  rewrite Hpurge. cbn [fst snd].
  (* the folders are found again *)
  assert (Hlc2 : list_files c true (Some r) d2 = fc :: (restc ++
             list_files c true (Some r) {| files := more; next_id := 0 |})).
  { rewrite (list_files_eq _ _ _ d2
               {| files := files d1 ++ more; next_id := 0 |}) by exact Hext.
    rewrite (list_files_app _ _ _ _ _ _ 0 0).
    rewrite (list_files_eq _ _ _ {| files := files d1; next_id := 0 |} d1)
      by reflexivity.
    now rewrite Hlc. }
  assert (G1 : _get_or_create_folder root c None d3 = (Ok cf, d3)).
  { rewrite <- Hfc. eapply get_or_create_found; [exact Hq0|].
    unfold d3. rewrite (list_files_filter _ _ _ _ _ _ (next_id d2)).
    rewrite (list_files_eq _ _ _ {| files := files d2; next_id := next_id d2 |} d2)
      by reflexivity.
    rewrite Hlc2. cbn [List.filter]. rewrite Hkeep by lia. reflexivity. }
  assert (G2 : _get_or_create_folder root "test_cases" (Some cf) d3
               = (Ok tf, d3)).
  { rewrite <- Hft. eapply get_or_create_found; [reflexivity|].
    unfold d3. rewrite (list_files_filter _ _ _ _ _ _ (next_id d2)).
    rewrite (list_files_eq _ _ _ {| files := files d2; next_id := next_id d2 |} d2)
      by reflexivity.
    rewrite Hlt. cbn [List.filter]. rewrite Hkeep by lia. reflexivity. }
  assert (Hnone : list_files pk false (Some tf) d3 = []).
  { unfold d3. rewrite (list_files_filter _ _ _ _ _ _ (next_id d2)).
    rewrite (list_files_eq _ _ _ {| files := files d2; next_id := next_id d2 |} d2)
      by reflexivity.
    apply filter_none. intros f Hf. apply Hgone. now apply List.in_map. }
  assert (Hnone' : list_files pk true (Some tf) d3 = []).
  { unfold list_files in *.
    destruct (List.filter _ (files d3)) as [|f l] eqn:E at 1; [reflexivity|].
    exfalso.
    assert (Hin : In f (List.filter
                          (fun f => String.eqb (name f) pk
                                    && implb true (is_folder f)
                                    && has_parent tf f) (files d3)))
      by (rewrite E; now left).
    apply List.filter_In in Hin as [Hin Hp].
    apply andb_true_iff in Hp as [Hp Hpar].
    apply andb_true_iff in Hp as [Hname _].
    assert (Hin' : In f (List.filter
                          (fun f => String.eqb (name f) pk
                                    && implb false (is_folder f)
                                    && has_parent tf f) (files d3))).
    { apply List.filter_In. split; [exact Hin|].
      cbn [implb]. now rewrite Hname, Hpar. }
    rewrite Hnone in Hin'. destruct Hin'. }
  assert (Hwf3 : Forall (fun f => (file_id f < next_id d3)%nat
                                  ∧ after_parent f) (files d3)).
  { unfold d3. cbn [files next_id]. apply Forall_filter. exact (proj1 Hwf2). }
  set (pf := next_id d2).
  set (folder := {| file_id := pf; name := pk; parent := Some tf;
                    is_folder := true; body := "" |}).
  set (fin := {| file_id := S pf; name := format_02d n; parent := Some pf;
                 is_folder := false; body := i |}).
  set (fout := {| file_id := S (S pf); name := format_02d n +:+ ".a";
                  parent := Some pf; is_folder := false; body := o |}).
  assert (G3 : _get_or_create_folder root pk (Some tf) d3
               = (Ok pf, {| files := files d3 ++ [folder];
                            next_id := S pf |})).
  { unfold _get_or_create_folder. now rewrite Hnone'. }
  assert (Hup : upload_test_case root c pk n (JStr i) (JStr o) d3
                = (Ok tt, {| files := files d3 ++ [folder; fin; fout];
                             next_id := S (S (S pf)) |})).
  { unfold upload_test_case, reraising, dbind. rewrite G1, G2, G3.
    cbn [encode]. unfold dret, create. cbn [files next_id].
    now rewrite <- !app_assoc. }
  rewrite Hup. cbn [fst snd].
  split; [reflexivity|]. split; [reflexivity|].
  exists tf, pf. split; [exact Hnone|]. split.
  - rewrite (list_files_app _ _ _ _ _ _ (next_id d3) 0).
    rewrite (list_files_eq _ _ _ {| files := files d3; next_id := next_id d3 |} d3)
      by reflexivity.
    rewrite Hnone. subst folder fin fout. unfold list_files, has_parent.
    cbn [files List.filter name is_folder parent implb app].
    assert (Hne : Nat.eqb pf tf = false) by (apply Nat.eqb_neq; unfold pf; lia).
    rewrite String.eqb_refl, Nat.eqb_refl, Hne, !andb_false_r. reflexivity.
  - unfold listing, files_in. cbn [files]. rewrite List.filter_app.
    assert (Hold : List.filter (has_parent pf) (files d3) = []).
    { clear - Hwf3.
      change (next_id d3) with pf in Hwf3.
      induction (files d3) as [|f l IH]; [reflexivity|].
      inversion Hwf3 as [|? ? [Hid Hpar] Hl]; subst. cbn.
      unfold has_parent at 1. unfold after_parent in Hpar.
      destruct (parent f) as [q|]; [|now apply IH].
      assert (E : Nat.eqb q pf = false) by (apply Nat.eqb_neq; lia).
      rewrite E. now apply IH. }
    rewrite Hold. subst folder fin fout. unfold has_parent.
    cbn [app List.filter parent].
    assert (Hne : Nat.eqb tf pf = false) by (apply Nat.eqb_neq; unfold pf; lia).
    rewrite Hne, Nat.eqb_refl. reflexivity.
Qed.

Lemma drive_purge_then_upload_witness :
  let before :=
    (upload_test_case (Some 0%nat) "bucket" "7" 1 (JStr "old") (JStr "old out")
       empty_drive).2 in
  let purge := empty_blob (Some 0%nat) "bucket" "7" before in
  let upload := upload_test_case (Some 0%nat) "bucket" "7" 1 (JStr "new")
                  (JStr "new out") purge.2 in
  purge.1 = Ok tt ∧ upload.1 = Ok tt.
Proof.
  cbn zeta.
  match goal with
  | |- (empty_blob ?root ?c ?pk ?d).1 = _ ∧ _ =>
      destruct (drive_purge_then_upload root 0 c pk 1 "new" "new out" d eq_refl)
        as (H1 & H2 & _)
  end.
  - split.
    + apply List.Forall_forall. intros f Hf. vm_compute in Hf.
      repeat (destruct Hf as [<- | Hf]; [vm_compute; split; lia|]).
      destruct Hf.
    + apply (bool_decide_unpack _). vm_compute. exact I.
  - vm_compute. lia.
  - split; [exact H1 | exact H2].
Defined.

End DrivePurgeFacts.
